(** * Album endpoints of the photo library API (internal/api/album.go)

    A shallow embedding of the eleven gin handlers registered by
    [album.go], and the properties of the media delivery paths
    (thumbnail cache-and-generate, zip archive export) that follow from
    the handler code.

    Handlers are written in a small state monad over the handler state:
    the world a request runs against (filesystem, memory cache, database,
    clock, random source, call trace) and the HTTP response under
    construction.  Every effectful call of the Go code appends one event
    to the trace, so that "is never invoked" and "happens before" become
    statements about lists. *)

From Stdlib Require Import Ascii.
From stdpp Require Import gmap strings list pretty.


Open Scope Z_scope.

(** ** Go values *)

(** A Go [(value, error)] pair; [Err] carries [err.Error()]. *)
Inductive Result (A : Type) : Type :=
| Ok (a : A)
| Err (msg : string).
Arguments Ok {A} a.
Arguments Err {A} msg.

(** A Go [[]byte] and, likewise, the content of a regular file.  A byte
    sequence is opaque except when the zip writer produced it, in which
    case it is kept as the entries it encodes, in central directory
    order: entry name and entry content. *)
#[local] Set Warnings "-register-all".
Inductive Bytes : Type :=
| Blob (s : string)
| Zip (entries : list (string * Bytes)).
#[local] Set Warnings "register-all".

(** ** Filesystem, seen through os, ioutil and pkg/fs *)

Inductive Node : Type :=
| NDir
| NFile (content : Bytes).

(** The I/O operations that the environment may refuse (disk full,
    permission denied, ...); the world says which ones fail. *)
Inductive IoOp : Type :=
| OpMkdirAll (p : string)
| OpCreate (p : string)
| OpOpen (p : string)
| OpWrite (p : string)
| OpRemove (p : string)
| OpReadFile (p : string).

(** ** Memory cache (go-cache): an item and its expiry in Unix
    nanoseconds, 0 meaning "never expires". *)
Record Item : Type := { Object : Bytes; Expiration : Z }.

(** [time.Hour], in nanoseconds. *)
Definition time_Hour : Z := 3600 * 1000000000.

(** [Get]: an item is found when present and not expired. *)
Definition cache_lookup (now : Z) (c : gmap string Item) (k : string) : option Bytes :=
  match c !! k with
  | Some it =>
      if (0 <? Expiration it) && (Expiration it <? now) then None
      else Some (Object it)
  | None => None
  end.

(** [Set(k, x, d)]: the item expires [d] from now, for a positive [d]
    (the handlers pass [time.Hour]). *)
Definition cache_store (now : Z) (c : gmap string Item) (k : string) (x : Bytes) (d : Z)
  : gmap string Item :=
  <[k := {| Object := x; Expiration := if 0 <? d then now + d else 0 |}]> c.

(** ** Records of the collaborating packages, with the fields the
    handlers read. *)

Module config.
Record Config : Type :=
  { TempPath : string;
    OriginalsPath : string;
    ThumbPath : string;
    ThumbUncached : bool }.
End config.

Module entity.
Record Album : Type :=
  { AlbumUID : string;
    AlbumSlug : string;
    AlbumTitle : string;
    AlbumFavorite : bool }.
Record Photo : Type := { PhotoUID : string }.
Record PhotoAlbum : Type := { pa_PhotoUID : string; pa_AlbumUID : string }.
Record File : Type := { FileName : string; FileHash : string; ShareFileName : string }.
Definition NewPhotoAlbum (photoUID albumUID : string) : PhotoAlbum :=
  {| pa_PhotoUID := photoUID; pa_AlbumUID := albumUID |}.
Definition set_AlbumFavorite (b : bool) (a : Album) : Album :=
  {| AlbumUID := AlbumUID a; AlbumSlug := AlbumSlug a;
     AlbumTitle := AlbumTitle a; AlbumFavorite := b |}.
End entity.

Module form.
Record AlbumSearch : Type := { as_Query : string; Count : Z; Offset : Z }.
Record Album : Type := { AlbumTitle : string; AlbumFavorite : bool }.
Record Selection : Type := { Photos : list string }.
Record PhotoSearch : Type := { ps_Album : string; ps_Count : Z; ps_Offset : Z }.
End form.

Module query.
(** A row of [query.PhotoSearch]; [ShareFileName] stands for the value
    of the method of that name. *)
Record PhotoResult : Type :=
  { PhotoUID : string; FileName : string; ShareFileName : string }.
End query.

Module thumb.
Record Type_ : Type := { Width : Z; Height : Z; Options : list Z }.
End thumb.

(** ** The request *)

Record Context : Type :=
  { URLPath : string;                (* c.Request.URL.Path *)
    Params : gmap string string;
    Queries : gmap string string;
    Headers : gmap string string;    (* c.Request.Header, by canonical name *)
    Body : string }.

(** [c.Param], [c.Query] and [c.Request.Header.Get] return the empty
    string for a missing key. *)
Definition Param (c : Context) (k : string) : string := default "" (Params c !! k).
Definition Query (c : Context) (k : string) : string := default "" (Queries c !! k).
Definition Header (c : Context) (k : string) : string := default "" (Headers c !! k).

(** ** The response *)

Inductive ApiError : Type :=
| ErrUnauthorized | ErrAlbumNotFound | ErrSaveFailed | ErrFormInvalid.

Inductive EntityEvent : Type := EntityCreated | EntityUpdated | EntityDeleted.

Inductive JVal : Type :=
| VStr (s : string)
| VAlbum (a : entity.Album)
| VPhotoAlbums (l : list entity.PhotoAlbum)
| VStrs (l : list string).

Inductive Payload (AlbumResult : Type) : Type :=
| BNone
| BData (b : Bytes)                      (* c.Data *)
| BFile (b : Bytes)                      (* c.File: bytes of the file *)
| BText (msg : string)                   (* http.Error: one line of text *)
| BApiError (e : ApiError)               (* c.JSON of a package-level error value *)
| BH (fields : list (string * JVal))     (* c.JSON of a gin.H *)
| BAlbum (a : entity.Album)
| BAlbumResults (l : list AlbumResult)
| BHttpResponse.                         (* c.JSON of http.Response{} *)
Arguments BNone {AlbumResult}.
Arguments BData {AlbumResult} b.
Arguments BFile {AlbumResult} b.
Arguments BText {AlbumResult} msg.
Arguments BApiError {AlbumResult} e.
Arguments BH {AlbumResult} fields.
Arguments BAlbum {AlbumResult} a.
Arguments BAlbumResults {AlbumResult} l.
Arguments BHttpResponse {AlbumResult}.

(** ** The call trace *)

Inductive Level : Type := LDebug | LInfo | LWarn | LError.

Inductive Event : Type :=
| EvLog (l : Level) (msg : string)
| EvCacheGet (key : string)
| EvCacheSet (key : string) (value : Bytes) (ttl : Z)
| EvStat (p : string)
| EvMkdirAll (p : string)
| EvCreate (p : string)
| EvZipAdd (zip src alias : string)
| EvZipClose (zip : string)
| EvClose (p : string)
| EvServeFile (p : string)
| EvRemove (p : string)
| EvReadFile (p : string)
| EvFromFile (src hash root : string) (w h : Z) (opts : list Z)
| EvFromCache (src hash root : string) (w h : Z) (opts : list Z)
| EvToken (size : nat)
| EvQuery (what arg : string)
| EvDbWrite (what arg : string)
| EvSuccess (msg : string)
| EvUpdateClientConfig
| EvPublish (e : EntityEvent) (uid : string).

(** Calls on the memory cache. *)
Definition cache_event (e : Event) : bool :=
  match e with
  | EvCacheGet _ | EvCacheSet _ _ _ => true
  | _ => false
  end.

(** Calls of the thumbnail generator, in either mode. *)
Definition generator_event (e : Event) : bool :=
  match e with
  | EvFromFile _ _ _ _ _ _ | EvFromCache _ _ _ _ _ _ => true
  | _ => false
  end.

(** Calls that reach the disk: the generator, and every os, ioutil, zip
    and pkg/fs call. *)
Definition store_event (e : Event) : bool :=
  match e with
  | EvStat _ | EvMkdirAll _ | EvCreate _ | EvZipAdd _ _ _ | EvZipClose _
  | EvClose _ | EvServeFile _ | EvRemove _ | EvReadFile _
  | EvFromFile _ _ _ _ _ _ | EvFromCache _ _ _ _ _ _ => true
  | _ => false
  end.

(** Calls that change the database. *)
Definition db_write_event (e : Event) : bool :=
  match e with
  | EvDbWrite _ _ => true
  | _ => false
  end.

(** [path.Join] of two elements: empty elements are dropped, the others
    are joined by a slash.  The lexical cleaning that Go applies to the
    result is the identity on the clean paths the configuration and the
    index hold, and is not modelled. *)
Definition path_Join (a b : string) : string :=
  if decide (a = "") then b
  else if decide (b = "") then a
  else a +:+ "/" +:+ b.

(** ** os.MkdirAll

    [os.MkdirAll(path, perm)] looks at the path first: a directory is
    left alone, a regular file is an error.  Otherwise it makes the
    parent in the same way, and then the directory itself with
    [os.Mkdir]; what it made before a failure stays. *)

(** Drops the leading characters that satisfy [P]. *)
Fixpoint skip (P : ascii → bool) (l : list ascii) : list ascii :=
  match l with
  | a :: l' => if P a then skip P l' else l
  | [] => []
  end.

(** [os.IsPathSeparator], on Unix *)
Definition IsPathSeparator (a : ascii) : bool := bool_decide (a = "/"%char).

(** The parent [MkdirAll] makes first: it skips the trailing separators
    of the path, scans backward over the last element, and takes what is
    before the separator it stopped at, [path[:j-1]], when [j > 1]. *)
Definition os_parent (path : string) : option string :=
  match skip (λ a, negb (IsPathSeparator a))
             (skip IsPathSeparator (List.rev (String.list_ascii_of_string path))) with
  | _ :: (_ :: _) as parent => Some (String.string_of_list_ascii (List.rev parent))
  | _ => None
  end.

(** [MkdirAll], with the operations that fail ([OpMkdirAll q] stands for
    the [os.Mkdir] of [q]) and a bound [n] on the number of parents; the
    disk it leaves and its error. *)
Fixpoint mkdirAll (n : nat) (fails : IoOp → bool) (fs : gmap string Node) (path : string)
  : gmap string Node * option string :=
  match fs !! path with
  | Some NDir => (fs, None)
  | Some (NFile _) => (fs, Some ("mkdir " +:+ path +:+ ": not a directory"))
  | None =>
      let made :=
        match n, os_parent path with
        | S n, Some parent => mkdirAll n fails fs parent
        | _, _ => (fs, None)
        end in
      match made.2 with
      | Some err => made
      | None =>
          if fails (OpMkdirAll path)
          then (made.1, Some ("mkdir " +:+ path +:+ ": permission denied"))
          else (<[path := NDir]> made.1, None)
      end
  end.

(** Every parent is shorter than its path, so the length of the path
    bounds the number of parents. *)
Definition MkdirAll (fails : IoOp → bool) (fs : gmap string Node) (path : string)
  : gmap string Node * option string :=
  mkdirAll (String.length path) fails fs path.

(** [q] is a proper ancestor of [p]: [p] is [q], a separator and more. *)
Definition ancestor (q p : string) : Prop := ∃ rest, p = q +:+ "/" +:+ rest.

(** ** net/http: what [http.ServeFile] reads of the request *)

(** [isSlashRune] *)
Definition isSlashRune (a : ascii) : bool :=
  bool_decide (a = "/"%char) || bool_decide (a = "\"%char).

(** [strings.FieldsFunc(v, isSlashRune)]; [cur] is the field under way. *)
Fixpoint fields (cur v : string) : list string :=
  match v with
  | EmptyString => if decide (cur = "") then [] else [cur]
  | String a v =>
      if isSlashRune a then (if decide (cur = "") then [] else [cur]) ++ fields "" v
      else fields (cur +:+ String a "") v
  end.

(** [containsDotDot]: an element of the path is [..]. *)
Definition containsDotDot (v : string) : bool := bool_decide (".." ∈ fields "" v).

(** [strings.HasSuffix] *)
Definition HasSuffix (s suffix : string) : bool :=
  (String.length suffix <=? String.length s)%nat
  && bool_decide (String.substring (String.length s - String.length suffix)%nat
                    (String.length suffix) s = suffix).

(** The request carries a precondition or asks for a range: one of the
    headers that [http.ServeContent] reads before it sends the file. *)
Definition conditional (c : Context) : bool :=
  negb (forallb (λ k, bool_decide (Header c k = ""))
          ["If-Match"; "If-Unmodified-Since"; "If-None-Match"; "If-Modified-Since"; "Range"]).

(** ** Collaborators

    The packages the handlers call into and that are outside
    [album.go]: the authorization gates of the api package, the
    database behind [query] and [entity], the request binders, the
    thumbnail type table and the thumbnail generator, the text
    helpers, and the parts of [net/http] that look at more of the
    request and of the file than the handlers do: [DetectContentType]
    is the content type [http.ServeContent] picks from the name and the
    content of a file, and [ServeOther] is the status, the content type
    and the bytes with which [http.ServeFile] answers when it does not
    send the whole file or an error (a redirect from [/index.html], a
    directory, a request with a precondition or a range: 200, 206, 301,
    304, 412 or 416).  The handlers are verified for every implementation of
    this interface. *)
Class Deps : Type :=
  { (* database *)
    DB : Type;
    AlbumResult : Type;
    (* api package: gates and static payloads *)
    Unauthorized : Context → config.Config → bool;
    InvalidToken : Context → config.Config → bool;
    InvalidDownloadToken : Context → config.Config → bool;
    brokenIconSvg : Bytes;
    photoIconSvg : Bytes;
    albumIconSvg : Bytes;
    (* txt and strings *)
    txt_UcFirst : string → string;
    txt_Quote : string → string;
    strings_Title : string → string;
    (* gin binders *)
    BindAlbumSearch : Context → Result form.AlbumSearch;
    BindAlbum : Context → form.Album → Result form.Album;
    BindSelection : Context → Result form.Selection;
    (* query *)
    AlbumSearch : DB → form.AlbumSearch → Result (list AlbumResult);
    AlbumByUID : DB → string → Result entity.Album;
    PhotoSearch : DB → form.PhotoSearch → Result (list query.PhotoResult);
    PhotoSelection : DB → form.Selection → Result (list entity.Photo);
    AlbumThumbByUID : DB → string → Result entity.File;
    (* entity and form *)
    TypeDefault : string;
    NewAlbum : string → string → string → entity.Album;
    form_NewAlbum : entity.Album → Result form.Album;
    Db_Create : DB → entity.Album → DB * entity.Album * option string;
    SaveForm : DB → entity.Album → form.Album → DB * entity.Album * option string;
    Db_Delete : DB → entity.Album → DB;
    Db_Save : DB → entity.Album → DB;
    FirstOrCreatePhotoAlbum : DB → entity.PhotoAlbum → DB * option entity.PhotoAlbum;
    Db_DeletePhotoAlbums : DB → string → list string → DB;
    File_Update : DB → entity.File → string → bool → DB * option string;
    (* thumb *)
    Types : string → option thumb.Type_;
    ExceedsLimit : thumb.Type_ → bool;
    OnDemand : thumb.Type_ → bool;
    FromFile : gmap string Node → string → string → string → Z → Z → list Z
               → gmap string Node * Result string;
    FromCache : gmap string Node → string → string → string → Z → Z → list Z
                → gmap string Node * Result string;
    (* net/http and mime *)
    DetectContentType : string → Bytes → string;
    ServeOther : Context → string → option Node → Z * string * option Bytes }.

Section Handlers.
Context `{D : Deps}.

(** ** The world and the handler state *)

Record World : Type :=
  { w_fs : gmap string Node;         (* the filesystem *)
    w_cache : gmap string Item;      (* service.Cache() *)
    w_db : DB;                       (* the index database *)
    w_now : Z;                       (* the clock, Unix nanoseconds *)
    w_fails : IoOp → bool;           (* I/O operations that fail *)
    w_entropy : nat → string;        (* the random source, draw by draw *)
    w_draws : nat;                   (* draws consumed so far *)
    w_trace : list Event }.          (* calls made so far, oldest first *)

Record Response : Type :=
  { status : Z;
    ctype : string;
    headers : list (string * string);
    body : Payload AlbumResult }.

Record HState : Type := { hw : World; hr : Response }.

Definition M (A : Type) : Type := HState → A * HState.

Definition ret {A} (a : A) : M A := λ s, (a, s).
Definition bind {A B} (m : M A) (k : A → M B) : M B :=
  λ s, let '(a, s') := m s in k a s'.

Notation "'let*' x ':=' m 'in' k" := (bind m (λ x, k))
  (at level 10, x pattern, m at level 100, k at level 200).
Notation "m '>>' k" := (bind m (λ _, k))
  (at level 100, k at level 200, right associativity).

(** The response before the handler writes to it: gin answers 200 with
    an empty body. *)
Definition fresh : Response :=
  {| status := 200; ctype := ""; headers := []; body := BNone |}.

(** Runs a handler on a world; the response and the world it leaves. *)
Definition run (h : M unit) (w : World) : Response * World :=
  let s := snd (h {| hw := w; hr := fresh |}) in (hr s, hw s).

(** *** State access *)

Definition gets {A} (f : World → A) : M A := λ s, (f (hw s), s).
Definition modify (f : World → World) : M unit :=
  λ s, (tt, {| hw := f (hw s); hr := hr s |}).
Definition respond (f : Response → Response) : M unit :=
  λ s, (tt, {| hw := hw s; hr := f (hr s) |}).

Definition with_fs (fs : gmap string Node) (w : World) : World :=
  {| w_fs := fs; w_cache := w_cache w; w_db := w_db w; w_now := w_now w;
     w_fails := w_fails w; w_entropy := w_entropy w; w_draws := w_draws w;
     w_trace := w_trace w |}.
Definition with_cache (c : gmap string Item) (w : World) : World :=
  {| w_fs := w_fs w; w_cache := c; w_db := w_db w; w_now := w_now w;
     w_fails := w_fails w; w_entropy := w_entropy w; w_draws := w_draws w;
     w_trace := w_trace w |}.
Definition with_db (d : DB) (w : World) : World :=
  {| w_fs := w_fs w; w_cache := w_cache w; w_db := d; w_now := w_now w;
     w_fails := w_fails w; w_entropy := w_entropy w; w_draws := w_draws w;
     w_trace := w_trace w |}.
Definition with_draws (n : nat) (w : World) : World :=
  {| w_fs := w_fs w; w_cache := w_cache w; w_db := w_db w; w_now := w_now w;
     w_fails := w_fails w; w_entropy := w_entropy w; w_draws := n;
     w_trace := w_trace w |}.
Definition with_trace (t : list Event) (w : World) : World :=
  {| w_fs := w_fs w; w_cache := w_cache w; w_db := w_db w; w_now := w_now w;
     w_fails := w_fails w; w_entropy := w_entropy w; w_draws := w_draws w;
     w_trace := t |}.

Definition emit (e : Event) : M unit :=
  modify (λ w, with_trace (w_trace w ++ [e]) w).

(** *** Logging and events *)

Definition log (l : Level) (msg : string) : M unit := emit (EvLog l msg).
Definition event_Success (msg : string) : M unit := emit (EvSuccess msg).
Definition UpdateClientConfig : M unit := emit EvUpdateClientConfig.
Definition PublishAlbumEvent (e : EntityEvent) (uid : string) : M unit :=
  emit (EvPublish e uid).

(** [report(prefix, err)]: logs the error, if there is one. *)
Definition report (prefix : string) (err : option string) : M unit :=
  match err with
  | Some e => log LError (prefix +:+ ": " +:+ e)
  | None => ret tt
  end.

(** *** gin *)

Definition c_Header (k v : string) : M unit :=
  respond (λ r, {| status := status r; ctype := ctype r;
                   headers := headers r ++ [(k, v)]; body := body r |}).

Definition write (st : Z) (ct : string) (b : Payload AlbumResult) : M unit :=
  respond (λ r, {| status := st; ctype := ct; headers := headers r; body := b |}).

Definition c_Data (st : Z) (ct : string) (data : Bytes) : M unit :=
  write st ct (BData data).

Definition c_JSON (st : Z) (b : Payload AlbumResult) : M unit :=
  write st "application/json; charset=utf-8" b.

Definition c_AbortWithStatusJSON (st : Z) (b : Payload AlbumResult) : M unit :=
  c_JSON st b.

Definition http_StatusOK : Z := 200.
Definition http_StatusBadRequest : Z := 400.
Definition http_StatusUnauthorized : Z := 401.
Definition http_StatusForbidden : Z := 403.
Definition http_StatusNotFound : Z := 404.
Definition http_StatusInternalServerError : Z := 500.

(** What [http.ServeFile] writes for the request [c] and the file at
    [p], given the node at [p] and whether opening it fails: an error
    for a URL path with a [..] element (400), a file that is not there
    (404) and a file that cannot be opened (403, the failures of the
    world being refusals); the whole file with status 200 for a regular
    file and a request without precondition and range, under the content
    type of the file unless the handler has set one; the answer of
    [ServeOther] in the remaining cases.  Of the headers, the response
    keeps those the handler has set with [c.Header]: the ones that
    [net/http] adds are not recorded. *)
Definition http_ServeFile (c : Context) (p : string) (n : option Node) (refused : bool)
    (r : Response) : Response :=
  let answer st ct b := {| status := st; ctype := ct; headers := headers r; body := b |} in
  let other :=
    let '(st, ct, b) := ServeOther c p n in
    answer st ct (from_option BFile BNone b) in
  if containsDotDot (URLPath c)
  then answer http_StatusBadRequest "text/plain; charset=utf-8" (BText "invalid URL path")
  else if HasSuffix (URLPath c) "/index.html" then other
  else match n with
       | None =>
           answer http_StatusNotFound "text/plain; charset=utf-8" (BText "404 page not found")
       | Some n =>
           if refused
           then answer http_StatusForbidden "text/plain; charset=utf-8" (BText "403 Forbidden")
           else match n with
                | NDir => other
                | NFile d =>
                    if conditional c then other
                    else answer http_StatusOK
                           (if decide (ctype r = "") then DetectContentType p d else ctype r)
                           (BFile d)
                end
       end.

(** [c.File(p)], which is [http.ServeFile(c.Writer, c.Request, p)] *)
Definition c_File (c : Context) (p : string) : M unit :=
  emit (EvServeFile p) >>
  let* w := gets id in
  respond (http_ServeFile c p (w_fs w !! p) (w_fails w (OpOpen p))).

(** [gin.H{"error": msg}] *)
Definition H_error (msg : string) : Payload AlbumResult := BH [("error", VStr msg)].

(** *** pkg/fs, os, ioutil *)

(** Modelled from the spec: [fs.FileExists] is outside [album.go]; "the
    source path exists on the filesystem", as a file that can be
    archived or served. *)
Definition file_exists (fs : gmap string Node) (p : string) : bool :=
  match fs !! p with
  | Some (NFile _) => true
  | _ => false
  end.

Definition fs_FileExists (p : string) : M bool :=
  emit (EvStat p) >> gets (λ w, file_exists (w_fs w) p).

(** [os.MkdirAll]: the directory and its missing ancestors are made;
    what was made before an error stays on the disk. *)
Definition os_MkdirAll (p : string) : M (option string) :=
  emit (EvMkdirAll p) >>
  let* w := gets id in
  let made := MkdirAll (w_fails w) (w_fs w) p in
  modify (with_fs made.1) >> ret made.2.

(** [os.Create]: creates the file empty, or truncates it; the handle is
    the path. *)
Definition os_Create (p : string) : M (Result string) :=
  emit (EvCreate p) >>
  let* w := gets id in
  if w_fails w (OpCreate p) then ret (Err ("open " +:+ p +:+ ": permission denied"))
  else match w_fs w !! p with
       | Some NDir => ret (Err ("open " +:+ p +:+ ": is a directory"))
       | _ => modify (with_fs (<[p := NFile (Blob "")]> (w_fs w))) >> ret (Ok p)
       end.

(** [Close] on an [os.File] *)
Definition file_Close (h : string) : M unit := emit (EvClose h).

(** [os.Remove] *)
Definition os_Remove (p : string) : M (option string) :=
  emit (EvRemove p) >>
  let* w := gets id in
  if w_fails w (OpRemove p) then ret (Some ("remove " +:+ p +:+ ": permission denied"))
  else match w_fs w !! p with
       | None => ret (Some ("remove " +:+ p +:+ ": no such file or directory"))
       | Some _ => modify (with_fs (delete p (w_fs w))) >> ret None
       end.

(** [ioutil.ReadFile] *)
Definition ioutil_ReadFile (p : string) : M (Result Bytes) :=
  emit (EvReadFile p) >>
  let* w := gets id in
  if w_fails w (OpReadFile p) then ret (Err ("open " +:+ p +:+ ": permission denied"))
  else match w_fs w !! p with
       | Some (NFile d) => ret (Ok d)
       | Some NDir => ret (Err ("read " +:+ p +:+ ": is a directory"))
       | None => ret (Err ("open " +:+ p +:+ ": no such file or directory"))
       end.

(** *** archive/zip *)

(** A [zip.Writer] on an open file: the entries written so far, which
    reach the file when the writer is closed. *)
Record ZipWriter : Type :=
  { zw_file : string;
    zw_entries : list (string * Bytes);
    zw_closed : bool }.

Definition zip_NewWriter (h : string) : ZipWriter :=
  {| zw_file := h; zw_entries := []; zw_closed := false |}.

(** [Close] on a [zip.Writer]: writes the central directory; an error when
    the writer was closed before. *)
Definition zipWriter_Close (zw : ZipWriter) : M (ZipWriter * option string) :=
  emit (EvZipClose (zw_file zw)) >>
  if zw_closed zw then ret (zw, Some "zip: writer closed twice")
  else
    let zw' := {| zw_file := zw_file zw; zw_entries := zw_entries zw; zw_closed := true |} in
    let* w := gets id in
    if w_fails w (OpWrite (zw_file zw)) then ret (zw', Some "write: no space left on device")
    else match w_fs w !! zw_file zw with
         | Some (NFile _) =>
             modify (with_fs (<[zw_file zw := NFile (Zip (zw_entries zw))]> (w_fs w))) >>
             ret (zw', None)
         | _ => ret (zw', None)
         end.

(** Modelled from the spec: [addFileToZip] is outside [album.go];
    it appends the source file "to the archive under its display alias",
    and "any I/O failure while appending (disk full, permission,
    corruption)" is an error that leaves the archive as it was. *)
Definition addFileToZip (zw : ZipWriter) (fileName fileAlias : string) : M (Result ZipWriter) :=
  emit (EvZipAdd (zw_file zw) fileName fileAlias) >>
  let* w := gets id in
  if w_fails w (OpOpen fileName) then ret (Err ("open " +:+ fileName +:+ ": permission denied"))
  else match w_fs w !! fileName with
       | Some (NFile d) =>
           if w_fails w (OpWrite (zw_file zw)) then ret (Err "write: no space left on device")
           else ret (Ok {| zw_file := zw_file zw;
                           zw_entries := zw_entries zw ++ [(fileAlias, d)];
                           zw_closed := zw_closed zw |})
       | Some NDir => ret (Err ("read " +:+ fileName +:+ ": is a directory"))
       | None => ret (Err ("open " +:+ fileName +:+ ": no such file or directory"))
       end.

(** *** service.Cache() *)

Definition gc_Get (k : string) : M (option Bytes) :=
  emit (EvCacheGet k) >> gets (λ w, cache_lookup (w_now w) (w_cache w) k).

Definition gc_Set (k : string) (x : Bytes) (d : Z) : M unit :=
  emit (EvCacheSet k x d) >>
  modify (λ w, with_cache (cache_store (w_now w) (w_cache w) k x d) w).

(** *** rnd *)

Definition draw : M string :=
  let* w := gets id in
  modify (with_draws (S (w_draws w))) >> ret (w_entropy w (w_draws w)).

(** Modelled from the spec: [rnd.Token] is outside [album.go];
    [token(length)] "produces a short, URL-safe, collision-resistant
    random identifier": the first [length] characters of the next draw
    of the random source. *)
Definition rnd_Token (size : nat) : M string :=
  emit (EvToken size) >>
  let* s := draw in ret (String.substring 0 size s).

(** *** query, entity, form *)

Definition query_AlbumSearch (f : form.AlbumSearch) : M (Result (list AlbumResult)) :=
  emit (EvQuery "AlbumSearch" (form.as_Query f)) >> gets (λ w, AlbumSearch (w_db w) f).

Definition query_AlbumByUID (uid : string) : M (Result entity.Album) :=
  emit (EvQuery "AlbumByUID" uid) >> gets (λ w, AlbumByUID (w_db w) uid).

Definition query_PhotoSearch (f : form.PhotoSearch) : M (Result (list query.PhotoResult)) :=
  emit (EvQuery "PhotoSearch" (form.ps_Album f)) >> gets (λ w, PhotoSearch (w_db w) f).

Definition query_PhotoSelection (f : form.Selection) : M (Result (list entity.Photo)) :=
  emit (EvQuery "PhotoSelection" "") >> gets (λ w, PhotoSelection (w_db w) f).

Definition query_AlbumThumbByUID (uid : string) : M (Result entity.File) :=
  emit (EvQuery "AlbumThumbByUID" uid) >> gets (λ w, AlbumThumbByUID (w_db w) uid).

(** [entity.NewAlbum]: the new album takes its UID from the random
    source. *)
Definition entity_NewAlbum (title type : string) : M entity.Album :=
  let* seed := draw in ret (NewAlbum seed title type).

(** [entity.Db().Create(m)] *)
Definition db_Create (m : entity.Album) : M (entity.Album * option string) :=
  emit (EvDbWrite "Create" (entity.AlbumUID m)) >>
  let* r := gets (λ w, Db_Create (w_db w) m) in
  modify (with_db r.1.1) >> ret (r.1.2, r.2).

(** [m.SaveForm(f)] *)
Definition m_SaveForm (m : entity.Album) (f : form.Album) : M (entity.Album * option string) :=
  emit (EvDbWrite "SaveForm" (entity.AlbumUID m)) >>
  let* r := gets (λ w, SaveForm (w_db w) m f) in
  modify (with_db r.1.1) >> ret (r.1.2, r.2).

(** [conf.Db().Delete(&m)] *)
Definition db_Delete (m : entity.Album) : M unit :=
  emit (EvDbWrite "Delete" (entity.AlbumUID m)) >>
  modify (λ w, with_db (Db_Delete (w_db w) m) w).

(** [conf.Db().Save(&album)] *)
Definition db_Save (m : entity.Album) : M unit :=
  emit (EvDbWrite "Save" (entity.AlbumUID m)) >>
  modify (λ w, with_db (Db_Save (w_db w) m) w).

(** [entity.FirstOrCreatePhotoAlbum] *)
Definition entity_FirstOrCreatePhotoAlbum (pa : entity.PhotoAlbum) : M (option entity.PhotoAlbum) :=
  emit (EvDbWrite "FirstOrCreatePhotoAlbum" (entity.pa_PhotoUID pa)) >>
  let* r := gets (λ w, FirstOrCreatePhotoAlbum (w_db w) pa) in
  modify (with_db r.1) >> ret r.2.

(** [entity.Db().Where("album_uid = ? AND photo_uid IN (?)", ..).Delete(&entity.PhotoAlbum{})] *)
Definition db_DeletePhotoAlbums (albumUID : string) (photos : list string) : M unit :=
  emit (EvDbWrite "DeletePhotoAlbums" albumUID) >>
  modify (λ w, with_db (Db_DeletePhotoAlbums (w_db w) albumUID photos) w).

(** [f.Update(attr, value)] on a file record *)
Definition f_Update (f : entity.File) (attr : string) (value : bool) : M (option string) :=
  emit (EvDbWrite ("Update " +:+ attr) (entity.FileName f)) >>
  let* r := gets (λ w, File_Update (w_db w) f attr value) in
  modify (with_db r.1) >> ret r.2.

(** *** thumb *)

Definition thumb_FromFile (fileName hash root : string) (w h : Z) (opts : list Z)
  : M (Result string) :=
  emit (EvFromFile fileName hash root w h opts) >>
  let* r := gets (λ wd, FromFile (w_fs wd) fileName hash root w h opts) in
  modify (with_fs r.1) >> ret r.2.

Definition thumb_FromCache (fileName hash root : string) (w h : Z) (opts : list Z)
  : M (Result string) :=
  emit (EvFromCache fileName hash root w h opts) >>
  let* r := gets (λ wd, FromCache (w_fs wd) fileName hash root w h opts) in
  modify (with_fs r.1) >> ret r.2.

(** ** The handlers

    Each definition is the function literal that the Go function of the
    same name registers on the router. *)

Import config.

(** GET /api/v1/albums *)
Definition GetAlbums (c : Context) (conf : Config) : M unit :=
  if Unauthorized c conf then
    c_AbortWithStatusJSON http_StatusUnauthorized (BApiError ErrUnauthorized)
  else
    match BindAlbumSearch c with
    | Err err => c_AbortWithStatusJSON http_StatusBadRequest (H_error (txt_UcFirst err))
    | Ok f =>
        let* result := query_AlbumSearch f in
        match result with
        | Err err => c_AbortWithStatusJSON 400 (H_error (txt_UcFirst err))
        | Ok result =>
            c_Header "X-Limit" (pretty (form.Count f)) >>
            c_Header "X-Offset" (pretty (form.Offset f)) >>
            c_JSON http_StatusOK (BAlbumResults result)
        end
    end.

(** GET /api/v1/albums/:uid *)
Definition GetAlbum (c : Context) (conf : Config) : M unit :=
  let id := Param c "uid" in
  let* m := query_AlbumByUID id in
  match m with
  | Err _ => c_AbortWithStatusJSON http_StatusNotFound (BApiError ErrAlbumNotFound)
  | Ok m => c_JSON http_StatusOK (BAlbum m)
  end.

(** POST /api/v1/albums *)
Definition CreateAlbum (c : Context) (conf : Config) : M unit :=
  if Unauthorized c conf then
    c_AbortWithStatusJSON http_StatusUnauthorized (BApiError ErrUnauthorized)
  else
    match BindAlbum c {| form.AlbumTitle := ""; form.AlbumFavorite := false |} with
    | Err err => c_AbortWithStatusJSON http_StatusBadRequest (H_error (txt_UcFirst err))
    | Ok f =>
        let* m := entity_NewAlbum (form.AlbumTitle f) TypeDefault in
        let m := entity.set_AlbumFavorite (form.AlbumFavorite f) m in
        log LDebug ("create album: " +:+ form.AlbumTitle f +:+ " " +:+ entity.AlbumUID m) >>
        let* res := db_Create m in
        let m := res.1 in
        match res.2 with
        | Some e =>
            log LError e >>
            c_AbortWithStatusJSON http_StatusBadRequest
              (H_error (txt_Quote (entity.AlbumTitle m) +:+ " already exists"))
        | None =>
            event_Success "album created" >>
            UpdateClientConfig >>
            PublishAlbumEvent EntityCreated (entity.AlbumUID m) >>
            c_JSON http_StatusOK (BAlbum m)
        end
    end.

(** PUT /api/v1/albums/:uid *)
Definition UpdateAlbum (c : Context) (conf : Config) : M unit :=
  if Unauthorized c conf then
    c_AbortWithStatusJSON http_StatusUnauthorized (BApiError ErrUnauthorized)
  else
    let uid := Param c "uid" in
    let* m := query_AlbumByUID uid in
    match m with
    | Err _ => c_AbortWithStatusJSON http_StatusNotFound (BApiError ErrAlbumNotFound)
    | Ok m =>
        match form_NewAlbum m with
        | Err err =>
            log LError err >>
            c_AbortWithStatusJSON http_StatusInternalServerError (BApiError ErrSaveFailed)
        | Ok f =>
            match BindAlbum c f with
            | Err err =>
                log LError err >>
                c_AbortWithStatusJSON http_StatusBadRequest (BApiError ErrFormInvalid)
            | Ok f =>
                let* res := m_SaveForm m f in
                let m := res.1 in
                match res.2 with
                | Some err =>
                    log LError err >>
                    c_AbortWithStatusJSON http_StatusInternalServerError (BApiError ErrSaveFailed)
                | None =>
                    UpdateClientConfig >>
                    event_Success "album saved" >>
                    PublishAlbumEvent EntityUpdated uid >>
                    c_JSON http_StatusOK (BAlbum m)
                end
            end
        end
    end.

(** DELETE /api/v1/albums/:uid *)
Definition DeleteAlbum (c : Context) (conf : Config) : M unit :=
  if Unauthorized c conf then
    c_AbortWithStatusJSON http_StatusUnauthorized (BApiError ErrUnauthorized)
  else
    let id := Param c "uid" in
    let* m := query_AlbumByUID id in
    match m with
    | Err _ => c_AbortWithStatusJSON http_StatusNotFound (BApiError ErrAlbumNotFound)
    | Ok m =>
        PublishAlbumEvent EntityDeleted id >>
        db_Delete m >>
        UpdateClientConfig >>
        event_Success ("album " +:+ txt_Quote (entity.AlbumTitle m) +:+ " deleted") >>
        c_JSON http_StatusOK (BAlbum m)
    end.

(** POST /api/v1/albums/:uid/like *)
Definition LikeAlbum (c : Context) (conf : Config) : M unit :=
  if Unauthorized c conf then
    c_AbortWithStatusJSON http_StatusUnauthorized (BApiError ErrUnauthorized)
  else
    let id := Param c "uid" in
    let* album := query_AlbumByUID id in
    match album with
    | Err _ => c_AbortWithStatusJSON http_StatusNotFound (BApiError ErrAlbumNotFound)
    | Ok album =>
        let album := entity.set_AlbumFavorite true album in
        db_Save album >>
        UpdateClientConfig >>
        PublishAlbumEvent EntityUpdated id >>
        c_JSON http_StatusOK BHttpResponse
    end.

(** DELETE /api/v1/albums/:uid/like *)
Definition DislikeAlbum (c : Context) (conf : Config) : M unit :=
  if Unauthorized c conf then
    c_AbortWithStatusJSON http_StatusUnauthorized (BApiError ErrUnauthorized)
  else
    let id := Param c "uid" in
    let* album := query_AlbumByUID id in
    match album with
    | Err _ => c_AbortWithStatusJSON http_StatusNotFound (BApiError ErrAlbumNotFound)
    | Ok album =>
        let album := entity.set_AlbumFavorite false album in
        db_Save album >>
        UpdateClientConfig >>
        PublishAlbumEvent EntityUpdated id >>
        c_JSON http_StatusOK BHttpResponse
    end.

(** The loop of [AddPhotosToAlbum] over the selected photos. *)
Fixpoint AddPhotosToAlbum_loop (a : entity.Album) (photos : list entity.Photo)
    (added : list entity.PhotoAlbum) : M (list entity.PhotoAlbum) :=
  match photos with
  | [] => ret added
  | p :: photos =>
      let* val := entity_FirstOrCreatePhotoAlbum
                    (entity.NewPhotoAlbum (entity.PhotoUID p) (entity.AlbumUID a)) in
      match val with
      | Some val => AddPhotosToAlbum_loop a photos (added ++ [val])
      | None => AddPhotosToAlbum_loop a photos added
      end
  end.

(** POST /api/v1/albums/:uid/photos *)
Definition AddPhotosToAlbum (c : Context) (conf : Config) : M unit :=
  if Unauthorized c conf then
    c_AbortWithStatusJSON http_StatusUnauthorized (BApiError ErrUnauthorized)
  else
    match BindSelection c with
    | Err err => c_AbortWithStatusJSON http_StatusBadRequest (H_error (txt_UcFirst err))
    | Ok f =>
        let uid := Param c "uid" in
        let* a := query_AlbumByUID uid in
        match a with
        | Err _ => c_AbortWithStatusJSON http_StatusNotFound (BApiError ErrAlbumNotFound)
        | Ok a =>
            let* photos := query_PhotoSelection f in
            match photos with
            | Err err =>
                log LError ("album: " +:+ err) >>
                c_AbortWithStatusJSON http_StatusBadRequest (H_error (txt_UcFirst err))
            | Ok photos =>
                let* added := AddPhotosToAlbum_loop a photos [] in
                (if decide (length added = 1%nat) then
                   event_Success ("one photo added to " +:+ txt_Quote (entity.AlbumTitle a))
                 else
                   event_Success (pretty (length added) +:+ " photos added to "
                                  +:+ txt_Quote (entity.AlbumTitle a))) >>
                PublishAlbumEvent EntityUpdated (entity.AlbumUID a) >>
                c_JSON http_StatusOK
                  (BH [("message", VStr "photos added to album");
                       ("album", VAlbum a); ("added", VPhotoAlbums added)])
            end
        end
    end.

(** DELETE /api/v1/albums/:uid/photos *)
Definition RemovePhotosFromAlbum (c : Context) (conf : Config) : M unit :=
  if Unauthorized c conf then
    c_AbortWithStatusJSON http_StatusUnauthorized (BApiError ErrUnauthorized)
  else
    match BindSelection c with
    | Err err => c_AbortWithStatusJSON http_StatusBadRequest (H_error (txt_UcFirst err))
    | Ok f =>
        if decide (length (form.Photos f) = 0%nat) then
          log LError "no photos selected" >>
          c_AbortWithStatusJSON http_StatusBadRequest (H_error (txt_UcFirst "no photos selected"))
        else
          let* a := query_AlbumByUID (Param c "uid") in
          match a with
          | Err _ => c_AbortWithStatusJSON http_StatusNotFound (BApiError ErrAlbumNotFound)
          | Ok a =>
              db_DeletePhotoAlbums (entity.AlbumUID a) (form.Photos f) >>
              event_Success ("photos removed from " +:+ entity.AlbumTitle a) >>
              PublishAlbumEvent EntityUpdated (entity.AlbumUID a) >>
              c_JSON http_StatusOK
                (BH [("message", VStr "photos removed from album");
                     ("album", VAlbum a); ("photos", VStrs (form.Photos f))])
          end
    end.

(** *** GET /albums/:uid/dl *)

Definition zipPath (conf : Config) : string := path_Join (TempPath conf) "album".

(** [fmt.Sprintf("%s-%s.zip", strings.Title(a.AlbumSlug), zipToken)] *)
Definition zipBaseName (a : entity.Album) (zipToken : string) : string :=
  strings_Title (entity.AlbumSlug a) +:+ "-" +:+ zipToken +:+ ".zip".

Definition zipFileName (conf : Config) (a : entity.Album) (zipToken : string) : string :=
  path_Join (zipPath conf) (zipBaseName a zipToken).

(** The loop over the search result.  The flag is false when the loop
    body returned from the handler, after writing the response. *)
Fixpoint DownloadAlbum_loop (conf : Config) (p : list query.PhotoResult)
    (zipWriter : ZipWriter) : M (bool * ZipWriter) :=
  match p with
  | [] => ret (true, zipWriter)
  | f :: p =>
      let fileName := path_Join (OriginalsPath conf) (query.FileName f) in
      let fileAlias := query.ShareFileName f in
      let* found := fs_FileExists fileName in
      if found then
        let* r := addFileToZip zipWriter fileName fileAlias in
        match r with
        | Err err =>
            log LError err >>
            c_AbortWithStatusJSON http_StatusInternalServerError
              (H_error (txt_UcFirst "failed to create zip file")) >>
            ret (false, zipWriter)
        | Ok zipWriter =>
            log LInfo ("album: added " +:+ txt_Quote (query.FileName f)
                       +:+ " as " +:+ txt_Quote fileAlias) >>
            DownloadAlbum_loop conf p zipWriter
        end
      else
        log LError ("album: file " +:+ txt_Quote (query.FileName f) +:+ " is missing") >>
        DownloadAlbum_loop conf p zipWriter
  end.

(** The handler from [zip.NewWriter] to its return, without the
    deferred calls. *)
Definition DownloadAlbum_build (c : Context) (conf : Config) (p : list query.PhotoResult)
    (zipBaseName zipFileName newZipFile : string) : M ZipWriter :=
  let zipWriter := zip_NewWriter newZipFile in
  let* r := DownloadAlbum_loop conf p zipWriter in
  let zipWriter := r.2 in
  if negb r.1 then ret zipWriter
  else
    log LInfo ("album: archive " +:+ txt_Quote zipBaseName +:+ " created") >>
    let* r := zipWriter_Close zipWriter in
    let zipWriter := r.1 in
    file_Close newZipFile >>
    let* found := fs_FileExists zipFileName in
    if negb found then
      log LError ("could not find zip file: " +:+ zipFileName) >>
      c_Data http_StatusNotFound "image/svg+xml" photoIconSvg >>
      ret zipWriter
    else
      c_Header "Content-Disposition" ("attachment; filename=" +:+ zipBaseName) >>
      c_File c zipFileName >>
      let* err := os_Remove zipFileName in
      match err with
      | Some err =>
          log LError ("album: could not remove " +:+ txt_Quote zipFileName
                      +:+ " (" +:+ err +:+ ")") >>
          ret zipWriter
      | None => ret zipWriter
      end.

Definition DownloadAlbum (c : Context) (conf : Config) : M unit :=
  if InvalidDownloadToken c conf then
    c_Data http_StatusForbidden "image/svg+xml" brokenIconSvg
  else
    let* a := query_AlbumByUID (Param c "uid") in
    match a with
    | Err _ => c_AbortWithStatusJSON http_StatusNotFound (BApiError ErrAlbumNotFound)
    | Ok a =>
        let* p := query_PhotoSearch
                    {| form.ps_Album := entity.AlbumUID a;
                       form.ps_Count := 10000; form.ps_Offset := 0 |} in
        match p with
        | Err err => c_AbortWithStatusJSON http_StatusNotFound (H_error (txt_UcFirst err))
        | Ok p =>
            let zipPath := zipPath conf in
            let* zipToken := rnd_Token 3 in
            let zipBaseName := zipBaseName a zipToken in
            let zipFileName := zipFileName conf a zipToken in
            let* err := os_MkdirAll zipPath in
            match err with
            | Some err =>
                log LError err >>
                c_AbortWithStatusJSON http_StatusInternalServerError
                  (H_error (txt_UcFirst "failed to create zip folder"))
            | None =>
                let* newZipFile := os_Create zipFileName in
                match newZipFile with
                | Err err =>
                    log LError err >>
                    c_AbortWithStatusJSON http_StatusInternalServerError
                      (H_error (txt_UcFirst err))
                | Ok newZipFile =>
                    let* zipWriter :=
                      DownloadAlbum_build c conf p zipBaseName zipFileName newZipFile in
                    (* deferred calls, the last one registered first *)
                    let* _ := zipWriter_Close zipWriter in
                    file_Close newZipFile
                end
            end
        end
    end.

(** *** GET /api/v1/albums/:uid/t/:token/:type *)

(** [fmt.Sprintf("album-thumbnail:%s:%s", uid, typeName)] *)
Definition cacheKey (uid typeName : string) : string :=
  "album-thumbnail:" +:+ uid +:+ ":" +:+ typeName.

Definition AlbumThumbnail (c : Context) (conf : Config) : M unit :=
  if InvalidToken c conf then
    c_Data http_StatusForbidden "image/svg+xml" brokenIconSvg
  else
    let typeName := Param c "type" in
    let uid := Param c "uid" in
    match Types typeName with
    | None =>
        log LError ("album: invalid thumb type " +:+ typeName) >>
        c_Data http_StatusOK "image/svg+xml" photoIconSvg
    | Some thumbType =>
        let cacheKey := cacheKey uid typeName in
        let* cacheData := gc_Get cacheKey in
        match cacheData with
        | Some cacheData =>
            log LDebug ("cache hit for " +:+ cacheKey) >>
            c_Data http_StatusOK "image/jpeg" cacheData
        | None =>
            let* f := query_AlbumThumbByUID uid in
            match f with
            | Err _ =>
                log LDebug ("album: no photos yet, using generic image for " +:+ uid) >>
                c_Data http_StatusOK "image/svg+xml" albumIconSvg
            | Ok f =>
                let fileName := path_Join (OriginalsPath conf) (entity.FileName f) in
                let* found := fs_FileExists fileName in
                if negb found then
                  log LError ("album: could not find original for " +:+ fileName) >>
                  c_Data http_StatusOK "image/svg+xml" photoIconSvg >>
                  log LWarn ("album: " +:+ txt_Quote (entity.FileName f) +:+ " is missing") >>
                  let* err := f_Update f "FileMissing" true in
                  report "album" err
                else if ExceedsLimit thumbType && bool_decide (Query c "download" = "") then
                  log LDebug ("album: using original, thumbnail size exceeds limit (width "
                              +:+ pretty (thumb.Width thumbType) +:+ ", height "
                              +:+ pretty (thumb.Height thumbType) +:+ ")") >>
                  c_File c fileName
                else
                  let* thumbnail :=
                    if ThumbUncached conf || OnDemand thumbType then
                      thumb_FromFile fileName (entity.FileHash f) (ThumbPath conf)
                        (thumb.Width thumbType) (thumb.Height thumbType)
                        (thumb.Options thumbType)
                    else
                      thumb_FromCache fileName (entity.FileHash f) (ThumbPath conf)
                        (thumb.Width thumbType) (thumb.Height thumbType)
                        (thumb.Options thumbType) in
                  match thumbnail with
                  | Err err =>
                      log LError ("album: " +:+ err) >>
                      c_Data http_StatusOK "image/svg+xml" photoIconSvg
                  | Ok thumbnail =>
                      (if bool_decide (Query c "download" ≠ "") then
                         c_Header "Content-Disposition"
                           ("attachment; filename=" +:+ entity.ShareFileName f)
                       else ret tt) >>
                      let* thumbData := ioutil_ReadFile thumbnail in
                      match thumbData with
                      | Err err =>
                          log LError ("album: " +:+ err) >>
                          c_Data http_StatusOK "image/svg+xml" albumIconSvg
                      | Ok thumbData =>
                          gc_Set cacheKey thumbData time_Hour >>
                          log LDebug ("cached " +:+ cacheKey) >>
                          c_Data http_StatusOK "image/jpeg" thumbData
                      end
                  end
            end
        end
    end.

(** *** The endpoints of [album.go] *)

Inductive Endpoint : Type :=
| EGetAlbums | EGetAlbum | ECreateAlbum | EUpdateAlbum | EDeleteAlbum
| ELikeAlbum | EDislikeAlbum | EAddPhotosToAlbum | ERemovePhotosFromAlbum
| EDownloadAlbum | EAlbumThumbnail.

Definition handler (e : Endpoint) : Context → Config → M unit :=
  match e with
  | EGetAlbums => GetAlbums
  | EGetAlbum => GetAlbum
  | ECreateAlbum => CreateAlbum
  | EUpdateAlbum => UpdateAlbum
  | EDeleteAlbum => DeleteAlbum
  | ELikeAlbum => LikeAlbum
  | EDislikeAlbum => DislikeAlbum
  | EAddPhotosToAlbum => AddPhotosToAlbum
  | ERemovePhotosFromAlbum => RemovePhotosFromAlbum
  | EDownloadAlbum => DownloadAlbum
  | EAlbumThumbnail => AlbumThumbnail
  end.

(** The check a handler opens with, if it has one. *)
Definition gate (e : Endpoint) : option (Context → Config → bool) :=
  match e with
  | EGetAlbum => None
  | EDownloadAlbum => Some InvalidDownloadToken
  | EAlbumThumbnail => Some InvalidToken
  | _ => Some Unauthorized
  end.

(** The request fails the check of the endpoint. *)
Definition denied (e : Endpoint) (c : Context) (conf : Config) : bool :=
  match gate e with
  | Some g => g c conf
  | None => false
  end.

(** *** Vocabulary of the statements *)

(** The response is [c.Data(st, ct, data)]. *)
Definition served (r : Response) (st : Z) (ct : string) (data : Bytes) : Prop :=
  status r = st ∧ ctype r = ct ∧ body r = BData data.

(** The events a run appended to the trace of [w]. *)
Definition appended (w w' : World) (evs : list Event) : Prop :=
  w_trace w' = w_trace w ++ evs.

(** The original of a file record and of a search result. *)
Definition original (conf : Config) (fileName : string) : string :=
  path_Join (OriginalsPath conf) fileName.

(** The content of a regular file. *)
Definition file_content (fs : gmap string Node) (p : string) : Bytes :=
  match fs !! p with
  | Some (NFile d) => d
  | _ => Blob ""
  end.


(** The generator call of the thumbnail handler: on demand when
    thumbnails are uncached or the type is rendered on demand, through
    the on-disk cache otherwise. *)
Definition generated (conf : Config) (t : thumb.Type_) (fs : gmap string Node)
    (f : entity.File) : gmap string Node * Result string :=
  (if ThumbUncached conf || OnDemand t then FromFile else FromCache)
    fs (original conf (entity.FileName f)) (entity.FileHash f) (ThumbPath conf)
    (thumb.Width t) (thumb.Height t) (thumb.Options t).


(** The archive entries of a search result on a disk: alias and content
    of the rows whose original is there, in the order of the rows. *)
Definition archived (conf : Config) (fs : gmap string Node) (p : list query.PhotoResult)
  : list (string * Bytes) :=
  (λ f, (query.ShareFileName f, file_content fs (original conf (query.FileName f))))
    <$> List.filter (λ f, file_exists fs (original conf (query.FileName f))) p.

(** The rows whose original is not there. *)
Definition skipped (conf : Config) (fs : gmap string Node) (p : list query.PhotoResult)
  : list query.PhotoResult :=
  List.filter (λ f, negb (file_exists fs (original conf (query.FileName f)))) p.

(** The log line that records a skipped row. *)
Definition missing_line (f : query.PhotoResult) : Event :=
  EvLog LError ("album: file " +:+ txt_Quote (query.FileName f) +:+ " is missing").

Definition error_line (e : Event) : bool :=
  match e with
  | EvLog LError _ => true
  | _ => false
  end.

(** The calls of a build that no I/O failure interrupts. *)
Definition build_events (conf : Config) (fs : gmap string Node) (zip : string)
    (p : list query.PhotoResult) : list Event :=
  p ≫= λ f,
    let fileName := original conf (query.FileName f) in
    if file_exists fs fileName then
      [EvStat fileName; EvZipAdd zip fileName (query.ShareFileName f);
       EvLog LInfo ("album: added " +:+ txt_Quote (query.FileName f)
                    +:+ " as " +:+ txt_Quote (query.ShareFileName f))]
    else [EvStat fileName; missing_line f].

(** No I/O failure stands in the way of appending the rows of [p] to
    the archive at [zip]. *)
Definition appendable (conf : Config) (w : World) (zip : string)
    (p : list query.PhotoResult) : Prop :=
  w_fails w (OpWrite zip) = false ∧
  Forall (λ f, file_exists (w_fs w) (original conf (query.FileName f)) = true →
               w_fails w (OpOpen (original conf (query.FileName f))) = false) p.

(** The token an export that starts in [w] draws. *)
Definition next_token (w : World) : string :=
  String.substring 0 3 (w_entropy w (w_draws w)).


(** The request gets as far as creating the temp zip file: the token is
    valid, the album [a] and its photos [p] are found, [os.MkdirAll]
    makes the temp folder and the temp file can be created. *)
Definition export_starts (c : Context) (conf : Config) (w : World)
    (a : entity.Album) (p : list query.PhotoResult) : Prop :=
  InvalidDownloadToken c conf = false ∧
  AlbumByUID (w_db w) (Param c "uid") = Ok a ∧
  PhotoSearch (w_db w) {| form.ps_Album := entity.AlbumUID a;
                          form.ps_Count := 10000; form.ps_Offset := 0 |} = Ok p ∧
  (MkdirAll (w_fails w) (w_fs w) (zipPath conf)).2 = None ∧
  w_fails w (OpCreate (zipFileName conf a (next_token w))) = false ∧
  w_fs w !! zipFileName conf a (next_token w) ≠ Some NDir.

(** The disk as the build finds it: the temp folder, with the ancestors
    that were missing, and the empty temp file are there. *)
Definition staged (conf : Config) (a : entity.Album) (w : World) : gmap string Node :=
  <[zipFileName conf a (next_token w) := NFile (Blob "")]>
    (MkdirAll (w_fails w) (w_fs w) (zipPath conf)).1.

(** [http.ServeFile] is asked for nothing but the file at [p], and can
    open it: the URL path of the request has no [..] element and does
    not end in [/index.html], the request carries no precondition and no
    range, and the open is not refused. *)
Definition servable (c : Context) (w : World) (p : string) : Prop :=
  containsDotDot (URLPath c) = false ∧
  HasSuffix (URLPath c) "/index.html" = false ∧
  conditional c = false ∧
  w_fails w (OpOpen p) = false.

(** The response in which the handler hands the temp file over: the
    attachment header is set, nothing else is written yet. *)
Definition attachment (a : entity.Album) (token : string) : Response :=
  {| status := 200; ctype := "";
     headers := [("Content-Disposition", "attachment; filename=" +:+ zipBaseName a token)];
     body := BNone |}.

(** *** Vocabulary of the invariants *)

(** The computation leaves the observation [f] of the world as it found
    it, from every state. *)
Definition preserves {A X : Type} (f : World → X) (m : M A) : Prop :=
  ∀ s, f (hw (m s).2) = f (hw s).

(** The node at a path. *)
Definition node_at (q : string) (w : World) : option Node := w_fs w !! q.

(** What making the directory [p] with [os.MkdirAll] can do at the path
    [q], from the disk [fs] to the disk [fs']: nothing, or make the
    directory [q] that was missing above [p]. *)
Definition made_above (p q : string) (fs fs' : gmap string Node) : Prop :=
  fs' !! q = fs !! q ∨ (ancestor q p ∧ fs !! q = None ∧ fs' !! q = Some NDir).

(** The world at a later reading of the clock. *)
Definition with_now (now : Z) (w : World) : World :=
  {| w_fs := w_fs w; w_cache := w_cache w; w_db := w_db w; w_now := now;
     w_fails := w_fails w; w_entropy := w_entropy w; w_draws := w_draws w;
     w_trace := w_trace w |}.

(** The request carries what the endpoint reads before it looks the
    album up: a selection for the two photo endpoints, not empty for the
    removal. *)
Definition selects (e : Endpoint) (c : Context) : Prop :=
  match e with
  | EAddPhotosToAlbum => ∃ f, BindSelection c = Ok f
  | ERemovePhotosFromAlbum => ∃ f, BindSelection c = Ok f ∧ form.Photos f ≠ []
  | _ => True
  end.

(** The response [c.JSON(st, b)] on a fresh context. *)
Definition json (st : Z) (b : Payload AlbumResult) : Response :=
  {| status := st; ctype := "application/json; charset=utf-8"; headers := []; body := b |}.

(** The events that reach the clients of the application. *)
Definition notification (e : Event) : bool :=
  match e with
  | EvSuccess _ | EvUpdateClientConfig | EvPublish _ _ => true
  | _ => false
  end.

(** The album events. *)
Definition published (e : Event) : bool :=
  match e with
  | EvPublish _ _ => true
  | _ => false
  end.

(** The kind of change an endpoint makes, if it makes one. *)
Definition change (e : Endpoint) : option EntityEvent :=
  match e with
  | ECreateAlbum => Some EntityCreated
  | EDeleteAlbum => Some EntityDeleted
  | EUpdateAlbum | ELikeAlbum | EDislikeAlbum
  | EAddPhotosToAlbum | ERemovePhotosFromAlbum => Some EntityUpdated
  | EGetAlbums | EGetAlbum | EDownloadAlbum | EAlbumThumbnail => None
  end.

End Handlers.


(** * A small installation

    One implementation of the collaborators, on which the handlers can
    be run: an index held in lists, tokens compared with fixed values,
    two thumbnail types and a generator that writes a marker file. *)
Module demo.

Record Index : Type :=
  { albums : list entity.Album;
    files : list (string * entity.File);     (* album UID, file *)
    links : list entity.PhotoAlbum;
    missing : list string }.                 (* files flagged FileMissing *)

Definition with_albums (l : list entity.Album) (db : Index) : Index :=
  {| albums := l; files := files db; links := links db; missing := missing db |}.
Definition with_links (l : list entity.PhotoAlbum) (db : Index) : Index :=
  {| albums := albums db; files := files db; links := l; missing := missing db |}.

Definition has_uid (uid : string) (a : entity.Album) : bool :=
  bool_decide (entity.AlbumUID a = uid).

Definition album_by_uid (db : Index) (uid : string) : Result entity.Album :=
  match List.find (has_uid uid) (albums db) with
  | Some a => Ok a
  | None => Err "record not found"
  end.

Definition album_files (db : Index) (uid : string) : list entity.File :=
  snd <$> List.filter (λ x, bool_decide (x.1 = uid)) (files db).

Definition to_result (f : entity.File) : query.PhotoResult :=
  {| query.PhotoUID := "p" +:+ entity.FileHash f;
     query.FileName := entity.FileName f;
     query.ShareFileName := entity.ShareFileName f |}.

Definition photo_search (db : Index) (f : form.PhotoSearch) : Result (list query.PhotoResult) :=
  Ok (take (Z.to_nat (form.ps_Count f)) (to_result <$> album_files db (form.ps_Album f))).

Definition album_thumb_by_uid (db : Index) (uid : string) : Result entity.File :=
  match album_files db uid with
  | f :: _ => Ok f
  | [] => Err "record not found"
  end.

Definition file_update (db : Index) (f : entity.File) (attr : string) (v : bool)
  : Index * option string :=
  ({| albums := albums db; files := files db; links := links db;
      missing := entity.FileName f :: missing db |}, None).

Definition new_album (seed title type : string) : entity.Album :=
  {| entity.AlbumUID := "a" +:+ seed; entity.AlbumSlug := title;
     entity.AlbumTitle := title; entity.AlbumFavorite := false |}.

Definition db_create (db : Index) (m : entity.Album) : Index * entity.Album * option string :=
  if existsb (λ a, bool_decide (entity.AlbumTitle a = entity.AlbumTitle m)) (albums db)
  then (db, m, Some "UNIQUE constraint failed: albums.album_slug")
  else (with_albums (albums db ++ [m]) db, m, None).

Definition db_delete (db : Index) (m : entity.Album) : Index :=
  with_albums (List.filter (λ a, negb (has_uid (entity.AlbumUID m) a)) (albums db)) db.

Definition db_save (db : Index) (m : entity.Album) : Index :=
  with_albums ((λ a, if has_uid (entity.AlbumUID m) a then m else a) <$> albums db) db.

Definition save_form (db : Index) (m : entity.Album) (f : form.Album)
  : Index * entity.Album * option string :=
  let m' := {| entity.AlbumUID := entity.AlbumUID m; entity.AlbumSlug := entity.AlbumSlug m;
               entity.AlbumTitle := form.AlbumTitle f;
               entity.AlbumFavorite := form.AlbumFavorite f |} in
  (db_save db m', m', None).

Definition first_or_create_photo_album (db : Index) (pa : entity.PhotoAlbum)
  : Index * option entity.PhotoAlbum :=
  (with_links (links db ++ [pa]) db, Some pa).

Definition db_delete_photo_albums (db : Index) (albumUID : string) (photos : list string) : Index :=
  with_links
    (List.filter (λ l, negb (bool_decide (entity.pa_AlbumUID l = albumUID)
                             && bool_decide (entity.pa_PhotoUID l ∈ photos))) (links db)) db.

Definition unauthorized (c : Context) (conf : config.Config) : bool :=
  negb (bool_decide (Headers c !! "X-Session-ID" = Some "69be27ac5ca3"))%string.
Definition invalid_token (c : Context) (conf : config.Config) : bool :=
  negb (bool_decide (Param c "token" = "public")).
Definition invalid_download_token (c : Context) (conf : config.Config) : bool :=
  negb (bool_decide (Query c "t" = "8fj2kq1m")).

Definition types (name : string) : option thumb.Type_ :=
  if decide (name = "tile_224") then
    Some {| thumb.Width := 224; thumb.Height := 224; thumb.Options := [1; 2] |}
  else if decide (name = "fit_7680") then
    Some {| thumb.Width := 7680; thumb.Height := 4320; thumb.Options := [3] |}
  else None.

Definition exceeds_limit (t : thumb.Type_) : bool :=
  (3840 <? thumb.Width t) || (3840 <? thumb.Height t).
Definition on_demand (t : thumb.Type_) : bool :=
  (2048 <? thumb.Width t) || (2048 <? thumb.Height t).

Definition thumb_name (hash root : string) (w h : Z) : string :=
  path_Join root (hash +:+ "_" +:+ pretty w +:+ "x" +:+ pretty h +:+ ".jpg").

Definition from_file (fs : gmap string Node) (src hash root : string) (w h : Z) (opts : list Z)
  : gmap string Node * Result string :=
  match fs !! src with
  | Some (NFile (Blob b)) =>
      (<[thumb_name hash root w h := NFile (Blob ("jpeg " +:+ pretty w +:+ "x" +:+ pretty h
                                                  +:+ " of " +:+ b))]> fs,
       Ok (thumb_name hash root w h))
  | Some (NFile (Zip _)) => (fs, Err "image: unknown format")
  | _ => (fs, Err ("open " +:+ src +:+ ": no such file or directory"))
  end.

Definition from_cache (fs : gmap string Node) (src hash root : string) (w h : Z) (opts : list Z)
  : gmap string Node * Result string :=
  match fs !! thumb_name hash root w h with
  | Some (NFile _) => (fs, Ok (thumb_name hash root w h))
  | _ => from_file fs src hash root w h opts
  end.

(** The content type by the extension of the name. *)
Definition detect_content_type (name : string) (content : Bytes) : string :=
  if HasSuffix name ".zip" then "application/zip"
  else if HasSuffix name ".jpg" then "image/jpeg"
  else "application/octet-stream".

(** The other answers of the file server: a redirect from
    [/index.html] and from a directory, whose URL path does not end in
    a slash on these routes; not modified for [If-None-Match: *]; the
    whole file as partial content for the range [bytes=0-]; every other
    range is refused and every other precondition fails. *)
Definition serve_other (c : Context) (p : string) (n : option Node)
  : Z * string * option Bytes :=
  if HasSuffix (URLPath c) "/index.html" then (301, "", None)
  else match n with
       | Some (NFile d) =>
           if decide (Header c "If-None-Match" = "*") then (304, "", None)
           else if decide (Header c "Range" = "bytes=0-") then
                  (206, detect_content_type p d, Some d)
           else if decide (Header c "Range" = "") then (412, "", None)
           else (416, "text/plain; charset=utf-8", None)
       | _ => (301, "", None)
       end.

Definition deps : Deps :=
  {| DB := Index;
     AlbumResult := entity.Album;
     Unauthorized := unauthorized;
     InvalidToken := invalid_token;
     InvalidDownloadToken := invalid_download_token;
     brokenIconSvg := Blob "<svg>broken</svg>";
     photoIconSvg := Blob "<svg>photo</svg>";
     albumIconSvg := Blob "<svg>album</svg>";
     txt_UcFirst := id;
     txt_Quote := λ s, "'" +:+ s +:+ "'";
     strings_Title := id;
     BindAlbumSearch := λ c, Ok {| form.as_Query := Query c "q"; form.Count := 24; form.Offset := 0 |};
     BindAlbum := λ c f,
       if decide (Body c = "") then Err "EOF"
       else Ok {| form.AlbumTitle := Body c; form.AlbumFavorite := form.AlbumFavorite f |};
     BindSelection := λ c,
       if decide (Body c = "") then Err "EOF" else Ok {| form.Photos := [Body c] |};
     AlbumSearch := λ db f, Ok (albums db);
     AlbumByUID := album_by_uid;
     PhotoSearch := photo_search;
     PhotoSelection := λ db f, Ok ((λ uid, {| entity.PhotoUID := uid |}) <$> form.Photos f);
     AlbumThumbByUID := album_thumb_by_uid;
     TypeDefault := "album";
     NewAlbum := new_album;
     form_NewAlbum := λ m, Ok {| form.AlbumTitle := entity.AlbumTitle m;
                                 form.AlbumFavorite := entity.AlbumFavorite m |};
     Db_Create := db_create;
     SaveForm := save_form;
     Db_Delete := db_delete;
     Db_Save := db_save;
     FirstOrCreatePhotoAlbum := first_or_create_photo_album;
     Db_DeletePhotoAlbums := db_delete_photo_albums;
     File_Update := file_update;
     Types := types;
     ExceedsLimit := exceeds_limit;
     OnDemand := on_demand;
     FromFile := from_file;
     FromCache := from_cache;
     DetectContentType := detect_content_type;
     ServeOther := serve_other |}.

End demo.


(** ** A world of the small installation: the album "Summer" with three
    indexed photos, one of which has lost its original; the album
    "Winter", whose only photo has lost its original; and the album
    "Scans", whose only file is not an image. *)
Module world.
Import demo.

Definition conf : config.Config :=
  {| config.TempPath := "/tmp/photoprism";
     config.OriginalsPath := "/photoprism/originals";
     config.ThumbPath := "/photoprism/cache/thumbnails";
     config.ThumbUncached := false |}.

Definition summer : entity.Album :=
  {| entity.AlbumUID := "aqk2x5y1"; entity.AlbumSlug := "summer";
     entity.AlbumTitle := "Summer"; entity.AlbumFavorite := false |}.

Definition winter : entity.Album :=
  {| entity.AlbumUID := "aqk2x7z3"; entity.AlbumSlug := "winter";
     entity.AlbumTitle := "Winter"; entity.AlbumFavorite := true |}.

Definition beach : entity.File :=
  {| entity.FileName := "2020/beach.jpg"; entity.FileHash := "0a1b";
     entity.ShareFileName := "20200704-beach.jpg" |}.
Definition palms : entity.File :=
  {| entity.FileName := "2020/palms.jpg"; entity.FileHash := "2c3d";
     entity.ShareFileName := "20200705-palms.jpg" |}.
Definition dunes : entity.File :=
  {| entity.FileName := "2020/dunes.jpg"; entity.FileHash := "4e5f";
     entity.ShareFileName := "20200706-dunes.jpg" |}.
Definition sleigh : entity.File :=
  {| entity.FileName := "2021/sleigh.jpg"; entity.FileHash := "6a7b";
     entity.ShareFileName := "20210106-sleigh.jpg" |}.

Definition scans : entity.Album :=
  {| entity.AlbumUID := "aqk2x9b5"; entity.AlbumSlug := "scans";
     entity.AlbumTitle := "Scans"; entity.AlbumFavorite := false |}.
Definition bundle : entity.File :=
  {| entity.FileName := "2021/bundle.zip"; entity.FileHash := "8c9d";
     entity.ShareFileName := "20210301-bundle.zip" |}.

Definition index : Index :=
  {| albums := [summer; winter; scans];
     files := [("aqk2x5y1", beach); ("aqk2x5y1", palms); ("aqk2x5y1", dunes);
               ("aqk2x7z3", sleigh); ("aqk2x9b5", bundle)];
     links := [];
     missing := [] |}.

Definition disk : gmap string Node :=
  <["/photoprism/originals/2020/beach.jpg" := NFile (Blob "beach")]>
    (<["/photoprism/originals/2020/dunes.jpg" := NFile (Blob "dunes")]>
       (<["/photoprism/originals/2021/bundle.zip" := NFile (Zip [("page.jpg", Blob "page")])]>
          (<["/photoprism/originals" := NDir]> ∅))).

(** The rows of "Summer", as the photo search returns them. *)
Definition beach_row : query.PhotoResult := to_result beach.
Definition palms_row : query.PhotoResult := to_result palms.
Definition dunes_row : query.PhotoResult := to_result dunes.
Definition sleigh_row : query.PhotoResult := to_result sleigh.

(** The random source: the first two draws agree on their first three
    characters. *)
Definition entropy (n : nat) : string :=
  match n with
  | 0%nat => "k3vq81"
  | 1%nat => "k3v0zz"
  | _ => "m2p7hd"
  end.

Definition no_fault (op : IoOp) : bool := false.

(** The original of [dunes.jpg] is there but cannot be opened. *)
Definition unreadable_dunes (op : IoOp) : bool :=
  match op with
  | OpOpen p => bool_decide (p = "/photoprism/originals/2020/dunes.jpg")
  | _ => false
  end.

(** The thumbnail of [beach.jpg] cannot be read back. *)
Definition unreadable_thumbnail (op : IoOp) : bool :=
  match op with
  | OpReadFile p => bool_decide (p = "/photoprism/cache/thumbnails/0a1b_224x224.jpg")
  | _ => false
  end.

Definition at_rest (fails : IoOp → bool) : World (D := deps) :=
  @Build_World deps disk ∅ index 1600000000000000000 fails entropy 0 [].

Definition w0 : World (D := deps) := at_rest no_fault.
Definition w_unreadable : World (D := deps) := at_rest unreadable_dunes.
Definition w_thumb_unreadable : World (D := deps) := at_rest unreadable_thumbnail.
Definition s0 : HState (D := deps) := {| hw := w0; hr := fresh |}.

Definition request (path : string) (params queries : list (string * string)) : Context :=
  {| URLPath := path; Params := list_to_map params; Queries := list_to_map queries;
     Headers := ∅; Body := "" |}.

(** GET /api/v1/albums/aqk2x5y1/dl?t=8fj2kq1m *)
Definition dl_summer : Context :=
  request "/api/v1/albums/aqk2x5y1/dl" [("uid", "aqk2x5y1")] [("t", "8fj2kq1m")].
(** GET /api/v1/albums/aqk2x7z3/dl?t=8fj2kq1m *)
Definition dl_winter : Context :=
  request "/api/v1/albums/aqk2x7z3/dl" [("uid", "aqk2x7z3")] [("t", "8fj2kq1m")].
(** GET /api/v1/albums/aqk2x5y1/dl?t=guess *)
Definition dl_forged : Context :=
  request "/api/v1/albums/aqk2x5y1/dl" [("uid", "aqk2x5y1")] [("t", "guess")].

(** GET /api/v1/albums/:uid/t/:token/:type *)
Definition thumbnail (uid token type : string) (queries : list (string * string)) : Context :=
  request ("/api/v1/albums/" +:+ uid +:+ "/t/" +:+ token +:+ "/" +:+ type)
    [("uid", uid); ("token", token); ("type", type)] queries.

(** A request on /api/v1/albums/aqk2x5y1 without a session, and one
    with the session of a signed-in user. *)
Definition anonymous : Context :=
  request "/api/v1/albums/aqk2x5y1" [("uid", "aqk2x5y1")] [].
Definition signed_in : Context :=
  {| URLPath := "/api/v1/albums/aqk2x5y1";
     Params := {[ "uid" := "aqk2x5y1" ]}; Queries := ∅;
     Headers := {[ "X-Session-ID" := "69be27ac5ca3" ]}; Body := "" |}.

End world.

(** ** More of the small installation: requests of the signed-in user,
    temp folders that refuse an operation, and an installation whose
    binder accepts an empty selection and whose index refuses a title
    that another album has. *)
Module scenes.
Import demo world.

(** A request of the signed-in user on the album [uid], with a body. *)
Definition signed (uid body : string) : Context :=
  {| URLPath := "/api/v1/albums/" +:+ uid;
     Params := {[ "uid" := uid ]}; Queries := ∅;
     Headers := {[ "X-Session-ID" := "69be27ac5ca3" ]}; Body := body |}.

(** No folder can be made; no folder can be made in [/tmp]; no file
    can be created; no file can be removed. *)
Definition no_mkdir (op : IoOp) : bool :=
  match op with OpMkdirAll _ => true | _ => false end.
Definition read_only_tmp (op : IoOp) : bool :=
  match op with
  | OpMkdirAll p => bool_decide (p = "/tmp/photoprism")
  | _ => false
  end.
Definition no_create (op : IoOp) : bool :=
  match op with OpCreate _ => true | _ => false end.
Definition no_remove (op : IoOp) : bool :=
  match op with OpRemove _ => true | _ => false end.

(** The original of [beach.jpg], the thumbnail photo of "Summer", is
    there but cannot be opened. *)
Definition unreadable_beach (op : IoOp) : bool :=
  match op with
  | OpOpen p => bool_decide (p = "/photoprism/originals/2020/beach.jpg")
  | _ => false
  end.

(** A request for the oversized rendition of "Summer" that asks for the
    bytes from the first one on. *)
Definition ranged : Context :=
  {| URLPath := "/api/v1/albums/aqk2x5y1/t/public/fit_7680";
     Params := {[ "uid" := "aqk2x5y1"; "token" := "public"; "type" := "fit_7680" ]};
     Queries := ∅;
     Headers := {[ "Range" := "bytes=0-" ]}; Body := "" |}.

(** The selection of the body: the text [[]] is the empty selection,
    any other text one photo. *)
Definition bind_selection (c : Context) : Result form.Selection :=
  if decide (Body c = "") then Err "EOF"
  else if decide (Body c = "[]") then Ok {| form.Photos := [] |}
  else Ok {| form.Photos := [Body c] |}.

(** A save that checks that no other album has the title. *)
Definition save_form_unique (db : Index) (m : entity.Album) (f : form.Album)
  : Index * entity.Album * option string :=
  if existsb (λ a, bool_decide (entity.AlbumTitle a = form.AlbumTitle f)
                   && negb (has_uid (entity.AlbumUID m) a)) (albums db)
  then (db, m, Some "UNIQUE constraint failed: albums.album_slug")
  else save_form db m f.

Definition strict : Deps :=
  {| DB := Index;
     AlbumResult := entity.Album;
     Unauthorized := unauthorized;
     InvalidToken := invalid_token;
     InvalidDownloadToken := invalid_download_token;
     brokenIconSvg := Blob "<svg>broken</svg>";
     photoIconSvg := Blob "<svg>photo</svg>";
     albumIconSvg := Blob "<svg>album</svg>";
     txt_UcFirst := id;
     txt_Quote := λ s, "'" +:+ s +:+ "'";
     strings_Title := id;
     BindAlbumSearch := λ c, Ok {| form.as_Query := Query c "q"; form.Count := 24; form.Offset := 0 |};
     BindAlbum := λ c f,
       if decide (Body c = "") then Err "EOF"
       else Ok {| form.AlbumTitle := Body c; form.AlbumFavorite := form.AlbumFavorite f |};
     BindSelection := bind_selection;
     AlbumSearch := λ db f, Ok (albums db);
     AlbumByUID := album_by_uid;
     PhotoSearch := photo_search;
     PhotoSelection := λ db f, Ok ((λ uid, {| entity.PhotoUID := uid |}) <$> form.Photos f);
     AlbumThumbByUID := album_thumb_by_uid;
     TypeDefault := "album";
     NewAlbum := new_album;
     form_NewAlbum := λ m, Ok {| form.AlbumTitle := entity.AlbumTitle m;
                                 form.AlbumFavorite := entity.AlbumFavorite m |};
     Db_Create := db_create;
     SaveForm := save_form_unique;
     Db_Delete := db_delete;
     Db_Save := db_save;
     FirstOrCreatePhotoAlbum := first_or_create_photo_album;
     Db_DeletePhotoAlbums := db_delete_photo_albums;
     File_Update := file_update;
     Types := types;
     ExceedsLimit := exceeds_limit;
     OnDemand := on_demand;
     FromFile := from_file;
     FromCache := from_cache;
     DetectContentType := detect_content_type;
     ServeOther := serve_other |}.

(** The world at rest, on the strict installation. *)
Definition w_strict : World (D := strict) :=
  @Build_World strict disk ∅ index 1600000000000000000 no_fault entropy 0 [].

End scenes.

(** * Properties *)

(** Symbolic execution of a handler: unfolds the monad and the gin
    primitives, and computes. *)
Ltac exec :=
  repeat (progress (unfold run, bind, ret, emit, modify, gets, respond, log,
                    c_Data, c_JSON, c_AbortWithStatusJSON, write, c_Header in *;
                    cbn in * )).

(** Closing the goals that remain once the run is computed: the shape of
    the response, the events appended, membership in them. *)
Ltac trace_eq := unfold appended; cbn; rewrite <- ?app_assoc; reflexivity.
Ltac in_trace :=
  cbn; repeat first [apply list_elem_of_here | apply list_elem_of_further
                    | apply elem_of_app; right].
Ltac all_events := cbn; repeat constructor.
Ltac close :=
  repeat match goal with
    | |- _ ∧ _ => split
    | |- served _ _ _ _ => repeat split
    | |- appended _ _ _ => trace_eq
    | |- _ ∈ _ => in_trace
    | |- Forall _ _ => all_events
    | |- _ = _ => reflexivity
    end.
Ltac done_run := eexists _, _, _; split; [reflexivity | close].

#[local] Arguments cache_lookup : simpl never.
#[local] Arguments cache_store : simpl never.
#[local] Arguments file_exists : simpl never.
#[local] Arguments path_Join : simpl never.
#[local] Arguments cacheKey : simpl never.
#[local] Arguments os_MkdirAll : simpl never.
#[local] Arguments os_Create : simpl never.
#[local] Arguments os_Remove : simpl never.
#[local] Arguments zipWriter_Close : simpl never.
#[local] Arguments c_File : simpl never.
#[local] Arguments http_ServeFile : simpl never.
#[local] Arguments MkdirAll : simpl never.
#[local] Arguments containsDotDot : simpl never.
#[local] Arguments HasSuffix : simpl never.
#[local] Arguments conditional : simpl never.

Section Properties.
Context `{D : Deps}.
Import config.

Implicit Types (c : Context) (conf : Config) (w : World) (s : HState).

(** ** The file server *)

(** [c.File] appends one event and lets [http.ServeFile] write the
    response. *)
Lemma c_File_run c p s :
  c_File c p s =
    (tt, {| hw := with_trace (w_trace (hw s) ++ [EvServeFile p]) (hw s);
            hr := http_ServeFile c p (w_fs (hw s) !! p) (w_fails (hw s) (OpOpen p)) (hr s) |}).
Proof. reflexivity. Qed.

(** The file server keeps the headers the handler has set, and never
    answers with bytes of the handler's own. *)
Lemma http_ServeFile_headers c p n refused (r : Response) :
  headers (http_ServeFile c p n refused r) = headers r.
Proof.
  unfold http_ServeFile. destruct (ServeOther c p n) as [[st ct] b].
  repeat case_match; reflexivity.
Qed.

Lemma http_ServeFile_no_data c p n refused (r : Response) data :
  body (http_ServeFile c p n refused r) ≠ BData data.
Proof.
  unfold http_ServeFile. destruct (ServeOther c p n) as [[st ct] [b|]];
    repeat case_match; discriminate.
Qed.

(** Asked for nothing but a regular file that it can open, the file
    server sends the whole file with status 200. *)
Lemma http_ServeFile_whole c w p d (r : Response) :
  servable c w p →
  status (http_ServeFile c p (Some (NFile d)) (w_fails w (OpOpen p)) r) = http_StatusOK ∧
  body (http_ServeFile c p (Some (NFile d)) (w_fails w (OpOpen p)) r) = BFile d.
Proof.
  intros (Hdots & Hindex & Hcond & Hopen). unfold http_ServeFile.
  rewrite Hdots, Hindex, Hcond, Hopen. split; reflexivity.
Qed.

(** ** [os.MkdirAll] *)

Lemma skip_suffix P l : ∃ l0, l = l0 ++ skip P l.
Proof.
  induction l as [|a l [l0 IH]]; [by exists []|]. cbn.
  destruct (P a); [| by exists []].
  exists (a :: l0). cbn. by rewrite <- IH.
Qed.

Lemma skip_head P l a l' : skip P l = a :: l' → P a = false.
Proof.
  induction l as [|b l IH]; [discriminate|]. cbn.
  destruct (P b) eqn:Hb; [exact IH|]. by intros [= <- <-].
Qed.

Lemma string_of_list_ascii_app l l' :
  String.string_of_list_ascii (l ++ l') =
  String.string_of_list_ascii l +:+ String.string_of_list_ascii l'.
Proof.
  induction l as [|a l IH]; [reflexivity|].
  change (String a (String.string_of_list_ascii (l ++ l')) =
          String a (String.string_of_list_ascii l +:+ String.string_of_list_ascii l')).
  by rewrite IH.
Qed.

Lemma string_app_assoc (a b c' : string) : (a +:+ b) +:+ c' = a +:+ (b +:+ c').
Proof.
  induction a as [|x a IH]; [reflexivity|].
  change (String x ((a +:+ b) +:+ c') = String x (a +:+ (b +:+ c'))). by rewrite IH.
Qed.

(** The parent is a proper ancestor. *)
Lemma os_parent_ancestor path parent : os_parent path = Some parent → ancestor parent path.
Proof.
  unfold os_parent.
  destruct (skip_suffix IsPathSeparator (List.rev (String.list_ascii_of_string path)))
    as [l0 H0].
  destruct (skip_suffix (λ a, negb (IsPathSeparator a))
              (skip IsPathSeparator (List.rev (String.list_ascii_of_string path))))
    as [l1 H1].
  destruct (skip (λ a, negb (IsPathSeparator a)) _) as [|a par] eqn:Hskip; [discriminate|].
  intros Hparent.
  assert (parent = String.string_of_list_ascii (List.rev par)) as ->
    by (destruct par; [discriminate | by injection Hparent]).
  clear Hparent. apply skip_head in Hskip.
  apply negb_false_iff, bool_decide_eq_true_1 in Hskip. subst a.
  rewrite H1 in H0. apply (f_equal (@List.rev _)) in H0.
  rewrite List.rev_involutive, !List.rev_app_distr in H0.
  exists (String.string_of_list_ascii (List.rev l1 ++ List.rev l0)).
  rewrite <- (String.string_of_list_ascii_of_string path), H0.
  change (List.rev ("/"%char :: par)) with (List.rev par ++ ["/"%char]).
  rewrite <- !app_assoc, !string_of_list_ascii_app.
  reflexivity.
Qed.

Lemma ancestor_trans q r p : ancestor q r → ancestor r p → ancestor q p.
Proof.
  intros [r1 ->] [r2 ->]. exists (r1 +:+ "/" +:+ r2).
  by rewrite !string_app_assoc.
Qed.

(** [MkdirAll] adds directories, at the path and at its ancestors, and
    nothing else: every path holds what it held, or held nothing and is
    a directory now, at the path or above it. *)
Lemma mkdirAll_lookup n fails (fs : gmap string Node) p q :
  (mkdirAll n fails fs p).1 !! q = fs !! q ∨
  (fs !! q = None ∧ (mkdirAll n fails fs p).1 !! q = Some NDir ∧ (q = p ∨ ancestor q p)).
Proof.
  revert p. induction n as [|n IH]; intros p; cbn [mkdirAll];
    destruct (fs !! p) as [[|d]|] eqn:Hp; try (by left).
  - cbn. destruct (fails (OpMkdirAll p)); [by left|]. cbn.
    destruct (decide (q = p)) as [->|Hne].
    + right. rewrite lookup_insert_eq. auto.
    + left. by rewrite lookup_insert_ne.
  - assert (Hmade : ∀ made : gmap string Node * option string,
              (made.1 !! q = fs !! q ∨
               (fs !! q = None ∧ made.1 !! q = Some NDir ∧ (q = p ∨ ancestor q p))) →
              let res := match made.2 with
                         | Some err => made
                         | None => if fails (OpMkdirAll p)
                                   then (made.1, Some ("mkdir " +:+ p +:+ ": permission denied"))
                                   else (<[p := NDir]> made.1, None)
                         end in
              res.1 !! q = fs !! q ∨
              (fs !! q = None ∧ res.1 !! q = Some NDir ∧ (q = p ∨ ancestor q p))).
    { intros [fs1 [err|]] H; cbn in *; [exact H|].
      destruct (fails (OpMkdirAll p)); [exact H|]. cbn.
      destruct (decide (q = p)) as [->|Hne].
      - right. rewrite lookup_insert_eq. auto.
      - rewrite lookup_insert_ne by congruence. exact H. }
    destruct (os_parent p) as [parent|] eqn:Hpar.
    + apply Hmade. destruct (IH parent) as [H | (H1 & H2 & H3)]; [by left|].
      right. split; [exact H1|]. split; [exact H2|]. right.
      apply os_parent_ancestor in Hpar.
      destruct H3 as [-> | H3]; [exact Hpar | by eapply ancestor_trans].
    + apply (Hmade (fs, None)). by left.
Qed.

Lemma MkdirAll_frame fails (fs : gmap string Node) p q :
  q ≠ p → ¬ ancestor q p → (MkdirAll fails fs p).1 !! q = fs !! q.
Proof.
  intros Hne Hanc. unfold MkdirAll.
  destruct (mkdirAll_lookup (String.length p) fails fs p q) as [H | (_ & _ & [H | H])];
    [exact H | contradiction | contradiction].
Qed.

Lemma MkdirAll_keeps fails (fs : gmap string Node) p q n :
  fs !! q = Some n → (MkdirAll fails fs p).1 !! q = Some n.
Proof.
  intros Hq. unfold MkdirAll.
  destruct (mkdirAll_lookup (String.length p) fails fs p q) as [H | (H & _)]; congruence.
Qed.

(** When [MkdirAll] returns no error, the directory is there. *)
Lemma mkdirAll_made n fails (fs : gmap string Node) p :
  (mkdirAll n fails fs p).2 = None → (mkdirAll n fails fs p).1 !! p = Some NDir.
Proof.
  destruct n as [|n]; cbn [mkdirAll]; destruct (fs !! p) as [[|d]|] eqn:Hp;
    try (intros _; exact Hp); try discriminate.
  - cbn. destruct (fails (OpMkdirAll p)); [discriminate|]. intros _. apply lookup_insert_eq.
  - destruct (match os_parent p with
              | Some parent => mkdirAll n fails fs parent
              | None => (fs, None)
              end) as [fs1 [err|]]; cbn; [discriminate|].
    destruct (fails (OpMkdirAll p)); [discriminate|]. intros _. apply lookup_insert_eq.
Qed.

Lemma MkdirAll_made fails (fs : gmap string Node) p :
  (MkdirAll fails fs p).2 = None → (MkdirAll fails fs p).1 !! p = Some NDir.
Proof. apply mkdirAll_made. Qed.

(** ** The gates *)

Lemma rejected_by_gate e c conf w :
  e ≠ EGetAlbum →
  denied e c conf = true →
  ∃ r, run (handler e c conf) w = (r, w) ∧
       (status r = http_StatusUnauthorized ∨ status r = http_StatusForbidden).
Proof.
  intros Hne Hd. unfold denied in Hd.
  destruct e; try congruence; cbn in Hd;
    cbn [handler];
    unfold GetAlbums, CreateAlbum, UpdateAlbum, DeleteAlbum, LikeAlbum, DislikeAlbum,
      AddPhotosToAlbum, RemovePhotosFromAlbum, DownloadAlbum, AlbumThumbnail;
    rewrite Hd; exec; eexists; (split; [reflexivity | cbn; auto]).
Qed.

Lemma file_exists_lookup (fs : gmap string Node) (p : string) :
  file_exists fs p = true → fs !! p = Some (NFile (file_content fs p)).
Proof.
  unfold file_exists, file_content.
  destruct (fs !! p) as [[|d]|]; congruence.
Qed.

(** C5. A thumbnail or download request that fails the token check is
    answered 403 with the broken icon and leaves the world exactly as it
    was: nothing is appended to the call trace, so the memory cache was
    neither read nor written and neither the disk nor the generator was
    reached. *)
Theorem unauthorized_request_touches_nothing e c conf w :
  e = EAlbumThumbnail ∨ e = EDownloadAlbum →
  denied e c conf = true →
  ∃ r, run (handler e c conf) w = (r, w) ∧
       served r http_StatusForbidden "image/svg+xml" brokenIconSvg ∧
       headers r = [].
Proof.
  intros [-> | ->] Hd; cbn in Hd; cbn [handler];
    unfold AlbumThumbnail, DownloadAlbum; rewrite Hd; exec;
    eexists; (split; [reflexivity | repeat split]).
Qed.

(** C10. The single-album fetch has no gate: two requests with the same
    uid get the same answer from the same world, whatever else they
    carry (session, token) and whatever the gates would say; a request
    for an existing album is answered 200 with the record.  Every other
    endpoint of the file turns a request that fails its gate away, with
    401 or 403 and an untouched world. *)
Theorem GetAlbum_has_no_gate :
  (∀ c1 c2 conf1 conf2 w,
     Param c1 "uid" = Param c2 "uid" →
     run (GetAlbum c1 conf1) w = run (GetAlbum c2 conf2) w) ∧
  (∀ c conf w m,
     AlbumByUID (w_db w) (Param c "uid") = Ok m →
     ∃ w', run (GetAlbum c conf) w =
             ({| status := http_StatusOK; ctype := "application/json; charset=utf-8";
                 headers := []; body := BAlbum m |}, w')) ∧
  (∀ e c conf w,
     e ≠ EGetAlbum →
     denied e c conf = true →
     ∃ r, run (handler e c conf) w = (r, w) ∧
          (status r = http_StatusUnauthorized ∨ status r = http_StatusForbidden)).
Proof.
  split; [| split].
  - intros c1 c2 conf1 conf2 w Huid. unfold GetAlbum. rewrite Huid. reflexivity.
  - intros c conf w m Hm. unfold GetAlbum, query_AlbumByUID. exec. rewrite Hm.
    exec. eexists. reflexivity.
  - intros e c conf w. apply rejected_by_gate.
Qed.

(** ** The thumbnail handler *)

(** C4. When the original of the album's thumbnail photo is not on the
    disk, the handler answers 200 with the photo icon, runs the
    FileMissing update on the file record, and stops: no generator call,
    the disk and the cache as they were.  The outcome of the update does
    not change the response; a failed update is logged. *)
Theorem missing_original_serves_icon_and_flags c conf w t f :
  InvalidToken c conf = false →
  Types (Param c "type") = Some t →
  cache_lookup (w_now w) (w_cache w) (cacheKey (Param c "uid") (Param c "type")) = None →
  AlbumThumbByUID (w_db w) (Param c "uid") = Ok f →
  file_exists (w_fs w) (original conf (entity.FileName f)) = false →
  ∃ r w' evs,
    run (AlbumThumbnail c conf) w = (r, w') ∧
    served r http_StatusOK "image/svg+xml" photoIconSvg ∧
    appended w w' evs ∧
    EvDbWrite "Update FileMissing" (entity.FileName f) ∈ evs ∧
    w_db w' = (File_Update (w_db w) f "FileMissing" true).1 ∧
    Forall (λ e, generator_event e = false) evs ∧
    w_fs w' = w_fs w ∧ w_cache w' = w_cache w.
Proof.
  intros Htok Htype Hmiss Hf Hgone.
  unfold AlbumThumbnail. rewrite Htok, Htype.
  unfold gc_Get. exec. rewrite Hmiss.
  unfold query_AlbumThumbByUID. exec. rewrite Hf.
  unfold fs_FileExists. exec. unfold original in Hgone. rewrite Hgone.
  unfold f_Update, report. exec.
  destruct (File_Update (w_db w) f "FileMissing" true) as [db' [err|]]; exec; done_run.
Qed.

(** C6. With a valid token and a known type: when the memory cache
    holds a live entry under the key of (uid, type), its bytes are served
    as image/jpeg and nothing but the cache lookup happens, the disk and
    the generator are not reached; on a miss, once the generator has
    returned a thumbnail and the thumbnail has been read, the bytes are
    stored under the same key with [time.Hour] as time to live, and
    served. *)
Theorem thumbnail_cache_hit_and_fill c conf w t :
  InvalidToken c conf = false →
  Types (Param c "type") = Some t →
  let key := cacheKey (Param c "uid") (Param c "type") in
  (∀ data,
     cache_lookup (w_now w) (w_cache w) key = Some data →
     ∃ r w' evs,
       run (AlbumThumbnail c conf) w = (r, w') ∧
       served r http_StatusOK "image/jpeg" data ∧
       appended w w' evs ∧
       Forall (λ e, store_event e = false) evs ∧
       w_fs w' = w_fs w ∧ w_cache w' = w_cache w) ∧
  (∀ f fs' thumbnail data,
     cache_lookup (w_now w) (w_cache w) key = None →
     AlbumThumbByUID (w_db w) (Param c "uid") = Ok f →
     file_exists (w_fs w) (original conf (entity.FileName f)) = true →
     ExceedsLimit t && bool_decide (Query c "download" = "") = false →
     generated conf t (w_fs w) f = (fs', Ok thumbnail) →
     w_fails w (OpReadFile thumbnail) = false →
     fs' !! thumbnail = Some (NFile data) →
     ∃ r w' evs,
       run (AlbumThumbnail c conf) w = (r, w') ∧
       served r http_StatusOK "image/jpeg" data ∧
       appended w w' evs ∧
       EvCacheSet key data time_Hour ∈ evs ∧
       w_cache w' =
         <[key := {| Object := data; Expiration := w_now w + time_Hour |}]> (w_cache w)).
Proof.
  intros Htok Htype key. split.
  - intros data Hhit.
    unfold AlbumThumbnail. rewrite Htok, Htype.
    unfold gc_Get. exec. fold key. rewrite Hhit. exec. done_run.
  - intros f fs' thumbnail data Hmiss Hf Hthere Hsmall Hgen Hok Hread.
    unfold AlbumThumbnail. rewrite Htok, Htype.
    unfold gc_Get. exec. fold key. rewrite Hmiss.
    unfold query_AlbumThumbByUID. exec. rewrite Hf.
    unfold fs_FileExists. exec. unfold original in Hthere. rewrite Hthere, Hsmall. cbn.
    unfold generated, original in Hgen.
    destruct (ThumbUncached conf || OnDemand t);
      unfold thumb_FromFile, thumb_FromCache; exec; rewrite Hgen; exec;
      destruct (bool_decide (Query c "download" ≠ ""));
      unfold ioutil_ReadFile; exec; rewrite Hok, Hread;
      unfold gc_Set; exec; done_run.
Qed.

(** C3 (amended). For a request with a valid token that names a type
    whose policy exceeds the size limit, without the download flag: the
    generator is never called, in either mode, and the disk is left as
    it was; and when the memory cache has no live entry for (uid, type),
    the album has a thumbnail photo and its original is on the disk,
    the original is handed to the file server, which serves it
    verbatim with status 200 when it is asked for nothing but the file
    and can open it. *)
Theorem oversized_thumbnail_skips_generator c conf w t :
  InvalidToken c conf = false →
  Types (Param c "type") = Some t →
  ExceedsLimit t = true →
  Query c "download" = "" →
  ∃ r w' evs,
    run (AlbumThumbnail c conf) w = (r, w') ∧
    appended w w' evs ∧
    Forall (λ e, generator_event e = false) evs ∧
    w_fs w' = w_fs w ∧
    (∀ f,
       cache_lookup (w_now w) (w_cache w) (cacheKey (Param c "uid") (Param c "type")) = None →
       AlbumThumbByUID (w_db w) (Param c "uid") = Ok f →
       file_exists (w_fs w) (original conf (entity.FileName f)) = true →
       EvServeFile (original conf (entity.FileName f)) ∈ evs ∧
       (servable c w (original conf (entity.FileName f)) →
        status r = http_StatusOK ∧
        body r = BFile (file_content (w_fs w) (original conf (entity.FileName f))))).
Proof.
  intros Htok Htype Hbig Hflag. unfold original.
  apply (bool_decide_eq_true_2 _) in Hflag.
  unfold AlbumThumbnail. rewrite Htok, Htype, Hbig, Hflag.
  unfold gc_Get. exec.
  destruct (cache_lookup _ _ _) as [data|] eqn:Hc; exec.
  { done_run. intros; congruence. }
  unfold query_AlbumThumbByUID. exec.
  destruct (AlbumThumbByUID _ _) as [f|e] eqn:Hf; exec.
  2: { done_run. intros; congruence. }
  unfold fs_FileExists. exec.
  destruct (file_exists _ _) eqn:Hthere; exec.
  - rewrite c_File_run. exec.
    done_run. intros f' _ [= <-] _. split; [in_trace|]. intros Hserve.
    rewrite (file_exists_lookup _ _ Hthere).
    by apply (http_ServeFile_whole c w).
  - unfold f_Update, report. exec.
    destruct (File_Update _ _ _ _) as [db' [err|]]; exec;
      done_run; intros f' _ [= <-]; congruence.
Qed.

(** C9 (amended). An invalid token is answered 403 with the broken
    icon.  With a valid token each kind of failure the handler handles
    itself is answered 200 with an SVG icon: an unknown type (photo
    icon), an album without photos (album icon), a missing original
    (photo icon), a failed generation (photo icon), a thumbnail that
    cannot be read (album icon).  A request with a valid token gets a
    status other than 200 only on the size-limit path, where the
    original is handed to the file server and the file server is asked
    for more than the file or cannot open it. *)
Theorem thumbnail_failures_answer_200 c conf w :
  let r := (run (AlbumThumbnail c conf) w).1 in
  let uid := Param c "uid" in
  let typeName := Param c "type" in
  (InvalidToken c conf = false →
   status r ≠ http_StatusOK →
   ∃ t f,
     Types typeName = Some t ∧
     ExceedsLimit t = true ∧
     Query c "download" = "" ∧
     cache_lookup (w_now w) (w_cache w) (cacheKey uid typeName) = None ∧
     AlbumThumbByUID (w_db w) uid = Ok f ∧
     file_exists (w_fs w) (original conf (entity.FileName f)) = true ∧
     EvServeFile (original conf (entity.FileName f))
       ∈ w_trace (run (AlbumThumbnail c conf) w).2 ∧
     ¬ servable c w (original conf (entity.FileName f))) ∧
  (InvalidToken c conf = true →
   served r http_StatusForbidden "image/svg+xml" brokenIconSvg) ∧
  (InvalidToken c conf = false →
   (Types typeName = None → served r http_StatusOK "image/svg+xml" photoIconSvg) ∧
   (∀ t,
      Types typeName = Some t →
      cache_lookup (w_now w) (w_cache w) (cacheKey uid typeName) = None →
      (∀ e, AlbumThumbByUID (w_db w) uid = Err e →
            served r http_StatusOK "image/svg+xml" albumIconSvg) ∧
      (∀ f,
         AlbumThumbByUID (w_db w) uid = Ok f →
         (file_exists (w_fs w) (original conf (entity.FileName f)) = false →
          served r http_StatusOK "image/svg+xml" photoIconSvg) ∧
         (file_exists (w_fs w) (original conf (entity.FileName f)) = true →
          ExceedsLimit t && bool_decide (Query c "download" = "") = false →
          (∀ fs' e, generated conf t (w_fs w) f = (fs', Err e) →
                    served r http_StatusOK "image/svg+xml" photoIconSvg) ∧
          (∀ fs' thumbnail,
             generated conf t (w_fs w) f = (fs', Ok thumbnail) →
             w_fails w (OpReadFile thumbnail) = true ∨ file_exists fs' thumbnail = false →
             served r http_StatusOK "image/svg+xml" albumIconSvg))))).
Proof.
  intros r uid typeName. subst r uid typeName. unfold generated, original.
  unfold AlbumThumbnail.
  destruct (InvalidToken c conf) eqn:Htok.
  { exec. split; [first [discriminate | intros _ Hst; by destruct Hst] | split; [intros _; repeat split | discriminate]]. }
  destruct (Types (Param c "type")) as [t|] eqn:Htype.
  2: { exec. split; [first [discriminate | intros _ Hst; by destruct Hst] | split; [discriminate | intros _; split]].
       - intros _. repeat split.
       - intros; congruence. }
  unfold gc_Get. exec.
  destruct (cache_lookup _ _ _) as [data|] eqn:Hc; exec.
  { split; [first [discriminate | intros _ Hst; by destruct Hst] | split; [discriminate | intros _; split; [discriminate |]]].
    intros t' [= <-] [=]. }
  unfold query_AlbumThumbByUID. exec.
  destruct (AlbumThumbByUID _ _) as [f|e] eqn:Hf; exec.
  2: { split; [first [discriminate | intros _ Hst; by destruct Hst] | split; [discriminate | intros _; split; [discriminate |]]].
       intros t' [= <-] _. split; [intros; repeat split | intros; congruence]. }
  unfold fs_FileExists. exec.
  destruct (file_exists _ _) eqn:Hthere; exec.
  2: { unfold f_Update, report. exec.
       destruct (File_Update _ _ _ _) as [db' [err|]]; exec;
         (split; [first [discriminate | intros _ Hst; by destruct Hst] | split; [discriminate | intros _; split; [discriminate |]]]);
         intros t' [= <-] _; (split; [intros; congruence |]);
         intros f' [= <-]; (split; [intros; repeat split | intros; congruence]). }
  destruct (ExceedsLimit t && bool_decide (Query c "download" = "")) eqn:Hbig; exec.
  { rewrite c_File_run. exec.
    split; [| split; [discriminate | intros _; split; [discriminate |]]].
    { intros _ Hst. apply andb_true_iff in Hbig as [Hbig Hflag].
      apply bool_decide_eq_true_1 in Hflag.
      exists t, f. repeat (split; [first [reflexivity | assumption | in_trace] |]).
      intros Hserve. apply Hst.
      rewrite (file_exists_lookup _ _ Hthere).
      by apply (http_ServeFile_whole c w). }
    intros t' [= <-] _. split; [intros; congruence |].
    intros f' [= <-]. split; [intros; congruence | intros; congruence]. }
  set (gen := if ThumbUncached conf || OnDemand t then FromFile else FromCache).
  assert (Hgen_run : ∃ ev, ∀ s,
    (if ThumbUncached conf || OnDemand t then
       thumb_FromFile (path_Join (OriginalsPath conf) (entity.FileName f)) (entity.FileHash f)
         (ThumbPath conf) (thumb.Width t) (thumb.Height t) (thumb.Options t)
     else
       thumb_FromCache (path_Join (OriginalsPath conf) (entity.FileName f)) (entity.FileHash f)
         (ThumbPath conf) (thumb.Width t) (thumb.Height t) (thumb.Options t)) s =
    let g := gen (w_fs (hw s)) (path_Join (OriginalsPath conf) (entity.FileName f))
               (entity.FileHash f) (ThumbPath conf) (thumb.Width t) (thumb.Height t)
               (thumb.Options t) in
    (g.2, {| hw := with_fs g.1 (with_trace (w_trace (hw s) ++ [ev]) (hw s)); hr := hr s |})).
  { subst gen. destruct (ThumbUncached conf || OnDemand t); eexists; intros s; reflexivity. }
  destruct Hgen_run as [ev Hgen_run]. rewrite Hgen_run. cbn.
  destruct (gen _ _ _ _ _ _ _) as [fs' [thumbnail|e]] eqn:Hgen;
    subst gen; clear Hgen_run; exec.
  2: { split; [first [discriminate | intros _ Hst; by destruct Hst] | split; [discriminate | intros _; split; [discriminate |]]].
       intros t' [= <-] _. split; [intros; congruence |].
       intros f' [= <-]. split; [intros; congruence | intros _ _; split].
       - intros; repeat split.
       - intros; congruence. }
  destruct (bool_decide (Query c "download" ≠ "")); exec;
    unfold ioutil_ReadFile; exec;
    destruct (w_fails w (OpReadFile thumbnail)) eqn:Hfault; exec;
    try destruct (fs' !! thumbnail) as [[|d]|] eqn:Hlook; exec;
    (split; [first [discriminate | intros _ Hst; by destruct Hst] | split; [discriminate | intros _; split; [discriminate |]]]);
    intros t' [= <-] _; (split; [intros; congruence |]);
    intros f' [= <-]; (split; [intros; congruence | intros _ _; split; [intros; congruence |]]);
    intros fs'' th Hgen' Hbad; rewrite Hgen in Hgen'; injection Hgen' as ? ?; subst;
    try (repeat split; fail);
    (destruct Hbad as [Hbad | Hbad]; [congruence |]);
    unfold file_exists in Hbad; rewrite Hlook in Hbad; discriminate.
Qed.

(** ** The archive export *)

Lemma with_trace_nil s :
  {| hw := with_trace (w_trace (hw s) ++ []) (hw s); hr := hr s |} = s.
Proof. destruct s as [[] ?]. cbn. by rewrite app_nil_r. Qed.

Lemma zip_entries_nil zw :
  {| zw_file := zw_file zw; zw_entries := zw_entries zw ++ []; zw_closed := zw_closed zw |} = zw.
Proof. destruct zw. cbn. by rewrite app_nil_r. Qed.

(** The loop of the export, when nothing fails: it runs to its end,
    appends the rows that are there and logs the others. *)
Lemma DownloadAlbum_loop_runs conf p : ∀ zw s,
  appendable conf (hw s) (zw_file zw) p →
  DownloadAlbum_loop conf p zw s =
    ((true, {| zw_file := zw_file zw;
               zw_entries := zw_entries zw ++ archived conf (w_fs (hw s)) p;
               zw_closed := zw_closed zw |}),
     {| hw := with_trace (w_trace (hw s) ++ build_events conf (w_fs (hw s)) (zw_file zw) p) (hw s);
        hr := hr s |}).
Proof.
  unfold appendable, archived, original.
  induction p as [|f p IH]; intros zw s [Hwrite Hopen].
  - cbn. by rewrite with_trace_nil, zip_entries_nil.
  - apply Forall_cons in Hopen as [Hf Hopen].
    cbn [DownloadAlbum_loop]. unfold fs_FileExists. exec.
    unfold build_events, original. cbn.
    destruct (file_exists _ _) eqn:Hthere.
    + unfold addFileToZip. exec. rewrite (Hf eq_refl).
      rewrite (file_exists_lookup _ _ Hthere), Hwrite. exec.
      rewrite IH by (split; assumption). cbn. rewrite <- !app_assoc. reflexivity.
    + exec. rewrite IH by (split; assumption). cbn. rewrite <- !app_assoc. reflexivity.
Qed.

(** The loop of the export, when the original of a row is there but
    cannot be opened: the rows before it are appended, the response is
    set to 500 and the loop returns. *)
Lemma DownloadAlbum_loop_aborts conf f p2 p1 : ∀ zw s,
  appendable conf (hw s) (zw_file zw) p1 →
  file_exists (w_fs (hw s)) (original conf (query.FileName f)) = true →
  w_fails (hw s) (OpOpen (original conf (query.FileName f))) = true →
  DownloadAlbum_loop conf (p1 ++ f :: p2) zw s =
    ((false, {| zw_file := zw_file zw;
                zw_entries := zw_entries zw ++ archived conf (w_fs (hw s)) p1;
                zw_closed := zw_closed zw |}),
     {| hw := with_trace
                (w_trace (hw s) ++
                 build_events conf (w_fs (hw s)) (zw_file zw) p1 ++
                 [EvStat (original conf (query.FileName f));
                  EvZipAdd (zw_file zw) (original conf (query.FileName f))
                    (query.ShareFileName f);
                  EvLog LError ("open " +:+ original conf (query.FileName f)
                                +:+ ": permission denied")])
                (hw s);
        hr := {| status := http_StatusInternalServerError;
                 ctype := "application/json; charset=utf-8";
                 headers := headers (hr s);
                 body := H_error (txt_UcFirst "failed to create zip file") |} |}).
Proof.
  unfold appendable, archived, original.
  induction p1 as [|g p1 IH]; intros zw s [Hwrite Hopen] Hthere Hfault.
  - cbn [app DownloadAlbum_loop]. unfold fs_FileExists. exec. rewrite Hthere.
    unfold addFileToZip. exec. rewrite Hfault. exec.
    rewrite zip_entries_nil, <- !app_assoc. reflexivity.
  - apply Forall_cons in Hopen as [Hg Hopen].
    cbn [app DownloadAlbum_loop]. unfold fs_FileExists. exec.
    unfold build_events, original. cbn.
    destruct (file_exists _ (path_Join _ (query.FileName g))) eqn:Hg_there.
    + unfold addFileToZip. exec. rewrite (Hg eq_refl).
      rewrite (file_exists_lookup _ _ Hg_there), Hwrite. exec.
      rewrite IH by first [split; assumption | assumption]. cbn.
      rewrite <- !app_assoc. reflexivity.
    + exec. rewrite IH by first [split; assumption | assumption]. cbn.
      rewrite <- !app_assoc. reflexivity.
Qed.

(** One turn of the loop on a row whose original is missing: the row
    is logged and the loop goes on with the rest, whatever the state of
    the disk and of the writer. *)
Lemma DownloadAlbum_loop_missing conf f p zw s :
  file_exists (w_fs (hw s)) (original conf (query.FileName f)) = false →
  DownloadAlbum_loop conf (f :: p) zw s =
    DownloadAlbum_loop conf p zw
      {| hw := with_trace
                 (w_trace (hw s) ++ [EvStat (original conf (query.FileName f)); missing_line f])
                 (hw s);
         hr := hr s |}.
Proof.
  unfold original. intros Hgone.
  cbn [DownloadAlbum_loop]. unfold fs_FileExists. exec. rewrite Hgone. exec.
  rewrite <- !app_assoc. reflexivity.
Qed.

#[local] Arguments DownloadAlbum_loop : simpl never.

Lemma build_events_errors conf fs zip p :
  List.filter error_line (build_events conf fs zip p) = missing_line <$> skipped conf fs p.
Proof.
  unfold build_events, skipped.
  induction p as [|f p IH]; [reflexivity|]. cbn.
  rewrite List.filter_app, IH.
  destruct (file_exists _ _); reflexivity.
Qed.

(** C7. A row whose original is missing never stops the build: it is
    recorded by an error line of the log and the loop goes on with the
    rows that follow, the archive as it was.  A build that no I/O
    failure interrupts runs over the whole input: the rows whose
    original is on the disk are appended to the archive under their
    alias, in input order; the rows whose original is missing are the
    error lines of the log, in input order; the disk is left as it
    was. *)
Theorem archive_build_keeps_order_and_skips_missing conf :
  (∀ f p zw s,
     file_exists (w_fs (hw s)) (original conf (query.FileName f)) = false →
     DownloadAlbum_loop conf (f :: p) zw s =
       DownloadAlbum_loop conf p zw
         {| hw := with_trace
                    (w_trace (hw s) ++
                     [EvStat (original conf (query.FileName f)); missing_line f])
                    (hw s);
            hr := hr s |}) ∧
  (∀ p zw s,
     appendable conf (hw s) (zw_file zw) p →
     ∃ zw' s' evs,
       DownloadAlbum_loop conf p zw s = ((true, zw'), s') ∧
       zw_entries zw' =
         zw_entries zw ++
         ((λ f, (query.ShareFileName f,
                 file_content (w_fs (hw s)) (original conf (query.FileName f))))
            <$> List.filter
                  (λ f, file_exists (w_fs (hw s)) (original conf (query.FileName f))) p) ∧
       appended (hw s) (hw s') evs ∧
       List.filter error_line evs =
         missing_line
           <$> List.filter
                 (λ f, negb (file_exists (w_fs (hw s)) (original conf (query.FileName f)))) p ∧
       w_fs (hw s') = w_fs (hw s) ∧
       hr s' = hr s).
Proof.
  split.
  - intros f p zw s. apply DownloadAlbum_loop_missing.
  - intros p zw s Hok.
    eexists _, _, _. split; [apply DownloadAlbum_loop_runs, Hok|].
    split; [reflexivity|]. split; [reflexivity|].
    split; [apply build_events_errors|]. split; reflexivity.
Qed.

(** *** Paths of the temp file *)

Lemma string_length_app (a b : string) :
  String.length (a +:+ b) = (String.length a + String.length b)%nat.
Proof.
  induction a as [|x a IH]; [reflexivity|].
  change (S (String.length (a +:+ b)) = S (String.length a + String.length b)).
  by rewrite IH.
Qed.

Lemma string_app_inj_r (s a b : string) : a +:+ s = b +:+ s → a = b.
Proof.
  revert b. induction a as [|x a IH]; intros [|y b] Heq.
  - reflexivity.
  - apply (f_equal String.length) in Heq.
    rewrite !string_length_app in Heq. cbn in Heq. lia.
  - apply (f_equal String.length) in Heq.
    rewrite !string_length_app in Heq. cbn in Heq. lia.
  - change (String x (a +:+ s) = String y (b +:+ s)) in Heq.
    injection Heq as -> Heq. f_equal. by apply IH.
Qed.

Lemma zipPath_nonempty conf : zipPath conf ≠ "".
Proof.
  unfold zipPath, path_Join. repeat case_decide; try done.
  intros Heq%(f_equal String.length). rewrite !string_length_app in Heq. cbn in Heq. lia.
Qed.

Lemma zipBaseName_nonempty a t : zipBaseName a t ≠ "".
Proof.
  unfold zipBaseName. intros Heq%(f_equal String.length).
  rewrite !string_length_app in Heq. cbn in Heq. lia.
Qed.

Lemma zipFileName_unfold conf a t :
  zipFileName conf a t = zipPath conf +:+ "/" +:+ zipBaseName a t.
Proof.
  unfold zipFileName, path_Join.
  pose proof (zipPath_nonempty conf). pose proof (zipBaseName_nonempty a t).
  repeat case_decide; done.
Qed.

Lemma zipFileName_not_zipPath conf a t : zipPath conf ≠ zipFileName conf a t.
Proof.
  rewrite zipFileName_unfold. intros Heq%(f_equal String.length).
  rewrite !string_length_app in Heq. cbn in Heq. lia.
Qed.

Lemma zipFileName_inj conf a t1 t2 :
  zipFileName conf a t1 = zipFileName conf a t2 → t1 = t2.
Proof.
  rewrite !zipFileName_unfold. unfold zipBaseName.
  intros Heq. do 4 apply String.app_inj in Heq.
  by apply string_app_inj_r in Heq.
Qed.

Lemma file_exists_insert_file fs p d : file_exists (<[p := NFile d]> fs) p = true.
Proof. unfold file_exists. by rewrite lookup_insert_eq. Qed.

Lemma file_exists_insert_ne fs p q n :
  p ≠ q → file_exists (<[p := n]> fs) q = file_exists fs q.
Proof. intros. unfold file_exists. by rewrite lookup_insert_ne. Qed.

Lemma file_exists_delete fs p : file_exists (delete p fs) p = false.
Proof. unfold file_exists. by rewrite lookup_delete_eq. Qed.

(** *** Steps of the export *)

Lemma os_MkdirAll_run p s :
  os_MkdirAll p s =
    ((MkdirAll (w_fails (hw s)) (w_fs (hw s)) p).2,
     {| hw := with_fs (MkdirAll (w_fails (hw s)) (w_fs (hw s)) p).1
                (with_trace (w_trace (hw s) ++ [EvMkdirAll p]) (hw s));
        hr := hr s |}).
Proof. reflexivity. Qed.

Lemma os_MkdirAll_ok p s :
  (MkdirAll (w_fails (hw s)) (w_fs (hw s)) p).2 = None →
  os_MkdirAll p s =
    (None, {| hw := with_fs (MkdirAll (w_fails (hw s)) (w_fs (hw s)) p).1
                      (with_trace (w_trace (hw s) ++ [EvMkdirAll p]) (hw s));
              hr := hr s |}).
Proof. intros Hmk. by rewrite os_MkdirAll_run, Hmk. Qed.

(** The temp file is below the temp folder: making the folder does not
    touch it. *)
Lemma zipFileName_not_above conf a t : ¬ ancestor (zipFileName conf a t) (zipPath conf).
Proof.
  rewrite zipFileName_unfold. intros [rest Heq]. apply (f_equal String.length) in Heq.
  rewrite !string_length_app in Heq. cbn in Heq. lia.
Qed.

Lemma zipFileName_free fails (fs : gmap string Node) conf a t :
  (MkdirAll fails fs (zipPath conf)).1 !! zipFileName conf a t = fs !! zipFileName conf a t.
Proof.
  apply MkdirAll_frame; [| apply zipFileName_not_above].
  intros Heq. by apply (zipFileName_not_zipPath conf a t).
Qed.

(** The bound on the number of parents is never reached: a parent is
    shorter than its path, and any bound from the length of the path on
    gives the same result. *)
Lemma os_parent_shorter path parent :
  os_parent path = Some parent → (String.length parent < String.length path)%nat.
Proof.
  intros [rest ->]%os_parent_ancestor. rewrite !string_length_app. cbn. lia.
Qed.

Lemma mkdirAll_bound fails (fs : gmap string Node) n : ∀ m p,
  (String.length p ≤ n)%nat → (String.length p ≤ m)%nat →
  mkdirAll n fails fs p = mkdirAll m fails fs p.
Proof.
  induction n as [|n IH]; intros m p Hn Hm.
  - assert (p = "") as -> by (destruct p; [reflexivity | cbn in Hn; lia]).
    destruct m; reflexivity.
  - destruct m as [|m].
    { assert (p = "") as -> by (destruct p; [reflexivity | cbn in Hm; lia]). reflexivity. }
    cbn [mkdirAll]. destruct (os_parent p) as [parent|] eqn:Hpar; [| reflexivity].
    apply os_parent_shorter in Hpar.
    rewrite (IH m parent) by lia. reflexivity.
Qed.

Lemma os_Create_ok p s :
  w_fails (hw s) (OpCreate p) = false →
  w_fs (hw s) !! p ≠ Some NDir →
  os_Create p s =
    (Ok p, {| hw := with_fs (<[p := NFile (Blob "")]> (w_fs (hw s)))
                      (with_trace (w_trace (hw s) ++ [EvCreate p]) (hw s));
              hr := hr s |}).
Proof.
  intros Hf Hp. unfold os_Create. exec. rewrite Hf.
  destruct (w_fs (hw s) !! p) as [[|?]|]; done.
Qed.

Lemma zipWriter_Close_ok zw s :
  zw_closed zw = false →
  w_fails (hw s) (OpWrite (zw_file zw)) = false →
  file_exists (w_fs (hw s)) (zw_file zw) = true →
  zipWriter_Close zw s =
    (({| zw_file := zw_file zw; zw_entries := zw_entries zw; zw_closed := true |}, None),
     {| hw := with_fs (<[zw_file zw := NFile (Zip (zw_entries zw))]> (w_fs (hw s)))
                (with_trace (w_trace (hw s) ++ [EvZipClose (zw_file zw)]) (hw s));
        hr := hr s |}).
Proof.
  intros Hopen Hf Hp. unfold zipWriter_Close. exec. rewrite Hopen. exec. rewrite Hf.
  by rewrite (file_exists_lookup _ _ Hp).
Qed.

Lemma zipWriter_Close_twice zw s :
  zw_closed zw = true →
  zipWriter_Close zw s =
    ((zw, Some "zip: writer closed twice"),
     {| hw := with_trace (w_trace (hw s) ++ [EvZipClose (zw_file zw)]) (hw s);
        hr := hr s |}).
Proof. intros Hc. unfold zipWriter_Close. exec. by rewrite Hc. Qed.

Lemma os_Remove_ok p s :
  w_fails (hw s) (OpRemove p) = false →
  file_exists (w_fs (hw s)) p = true →
  os_Remove p s =
    (None, {| hw := with_fs (delete p (w_fs (hw s)))
                      (with_trace (w_trace (hw s) ++ [EvRemove p]) (hw s));
              hr := hr s |}).
Proof.
  intros Hf Hp. unfold os_Remove. exec. rewrite Hf.
  by rewrite (file_exists_lookup _ _ Hp).
Qed.

Lemma os_Remove_fails p s :
  w_fails (hw s) (OpRemove p) = true →
  os_Remove p s =
    (Some ("remove " +:+ p +:+ ": permission denied"),
     {| hw := with_trace (w_trace (hw s) ++ [EvRemove p]) (hw s); hr := hr s |}).
Proof. intros Hf. unfold os_Remove. exec. by rewrite Hf. Qed.

(** The export that nothing interrupts: the archive of the rows that are
    on the disk is handed to the file server as an attachment, and the
    temp file is removed after that, unless the removal fails. *)
Lemma DownloadAlbum_serves_archive c conf w a p :
  export_starts c conf w a p →
  appendable conf (with_fs (staged conf a w) w) (zipFileName conf a (next_token w)) p →
  ∃ r w' evs,
    run (DownloadAlbum c conf) w = (r, w') ∧
    r = http_ServeFile c (zipFileName conf a (next_token w))
          (Some (NFile (Zip (archived conf (staged conf a w) p))))
          (w_fails w (OpOpen (zipFileName conf a (next_token w))))
          (attachment a (next_token w)) ∧
    appended w w' evs ∧
    EvCreate (zipFileName conf a (next_token w)) ∈ evs ∧
    EvServeFile (zipFileName conf a (next_token w)) ∈ evs ∧
    EvRemove (zipFileName conf a (next_token w)) ∈ evs ∧
    (w_fails w (OpRemove (zipFileName conf a (next_token w))) = false →
     w_fs w' = delete (zipFileName conf a (next_token w)) (staged conf a w)).
Proof.
  intros (Htok & Ha & Hp & Hmk & Hcr & Hzf) Happ.
  unfold DownloadAlbum. rewrite Htok.
  unfold query_AlbumByUID. exec. rewrite Ha.
  unfold query_PhotoSearch. exec. rewrite Hp.
  unfold rnd_Token, draw. exec. fold (next_token w).
  rewrite os_MkdirAll_ok by (cbn; assumption). cbn.
  rewrite os_Create_ok by (cbn; first [assumption | by rewrite zipFileName_free]). cbn.
  unfold DownloadAlbum_build. exec.
  rewrite DownloadAlbum_loop_runs by exact Happ. cbn.
  rewrite zipWriter_Close_ok
    by (cbn; first [reflexivity | apply Happ | apply file_exists_insert_file]). cbn.
  unfold file_Close, fs_FileExists. exec.
  rewrite file_exists_insert_file. cbn.
  rewrite c_File_run. cbn. rewrite lookup_insert_eq.
  destruct (w_fails w (OpRemove (zipFileName conf a (next_token w)))) eqn:Hrm.
  - rewrite os_Remove_fails by exact Hrm. exec.
    rewrite zipWriter_Close_twice by reflexivity. exec.
    eexists _, _, _. split; [reflexivity|]. split; [reflexivity|].
    split; [trace_eq|]. split; [in_trace|]. split; [in_trace|].
    split; [in_trace | discriminate].
  - rewrite os_Remove_ok by (cbn; first [exact Hrm | apply file_exists_insert_file]). exec.
    rewrite zipWriter_Close_twice by reflexivity. exec.
    eexists _, _, _. split; [reflexivity|]. split; [reflexivity|].
    split; [trace_eq|]. split; [in_trace|]. split; [in_trace|]. split; [in_trace|].
    intros _. unfold staged. by rewrite delete_insert_eq, delete_insert_eq.
Qed.

(** The sibling of the interrupted export: once the archive is handed to
    the file server and the removal succeeds, the temp file is gone. *)
Lemma served_export_removes_temp_file c conf w a p :
  export_starts c conf w a p →
  appendable conf (with_fs (staged conf a w) w) (zipFileName conf a (next_token w)) p →
  w_fails w (OpRemove (zipFileName conf a (next_token w))) = false →
  ∃ r w' evs,
    run (DownloadAlbum c conf) w = (r, w') ∧
    appended w w' evs ∧
    EvServeFile (zipFileName conf a (next_token w)) ∈ evs ∧
    EvRemove (zipFileName conf a (next_token w)) ∈ evs ∧
    file_exists (w_fs w') (zipFileName conf a (next_token w)) = false.
Proof.
  intros Hstart Happ Hrm.
  destruct (DownloadAlbum_serves_archive c conf w a p Hstart Happ)
    as (r & w' & evs & Hrun & _ & Hevs & _ & Hserved & Hremoved & Hfs).
  exists r, w', evs. split; [exact Hrun|]. split; [exact Hevs|].
  split; [exact Hserved|]. split; [exact Hremoved|].
  rewrite (Hfs Hrm). apply file_exists_delete.
Qed.

Lemma build_events_no_remove conf fs zip p z : EvRemove z ∉ build_events conf fs zip p.
Proof.
  unfold build_events. intros (g & Hin & _)%list_elem_of_bind.
  destruct (file_exists _ _);
    rewrite !elem_of_cons, elem_of_nil in Hin; unfold missing_line in Hin;
    intuition discriminate.
Qed.

(** C1. An export whose build is interrupted leaves its temp file
    behind.  When the original of a row is on the disk but cannot be
    opened, the request is answered 500, the deferred close of the zip
    writer flushes the rows appended so far, and the handler returns
    without removing the temp file: it is on the disk after the request,
    holding the partial archive. *)
Theorem aborted_export_leaves_temp_file c conf w a p1 f p2 :
  let zf := zipFileName conf a (next_token w) in
  export_starts c conf w a (p1 ++ f :: p2) →
  appendable conf (with_fs (staged conf a w) w) zf p1 →
  file_exists (staged conf a w) (original conf (query.FileName f)) = true →
  w_fails w (OpOpen (original conf (query.FileName f))) = true →
  ∃ r w' evs,
    run (DownloadAlbum c conf) w = (r, w') ∧
    status r = http_StatusInternalServerError ∧
    appended w w' evs ∧
    EvCreate zf ∈ evs ∧
    (EvRemove zf ∉ evs) ∧
    file_exists (w_fs w') zf = true ∧
    w_fs w' !! zf = Some (NFile (Zip (archived conf (staged conf a w) p1))).
Proof.
  intros zf (Htok & Ha & Hp & Hmk & Hcr & Hzf) Happ Hthere Hfault. subst zf.
  unfold DownloadAlbum. rewrite Htok.
  unfold query_AlbumByUID. exec. rewrite Ha.
  unfold query_PhotoSearch. exec. rewrite Hp.
  unfold rnd_Token, draw. exec. fold (next_token w).
  rewrite os_MkdirAll_ok by (cbn; assumption). cbn.
  rewrite os_Create_ok by (cbn; first [assumption | by rewrite zipFileName_free]). cbn.
  unfold DownloadAlbum_build. exec.
  rewrite DownloadAlbum_loop_aborts by first [exact Happ | exact Hthere | exact Hfault]. cbn.
  rewrite zipWriter_Close_ok
    by (cbn; first [reflexivity | apply Happ | apply file_exists_insert_file]). cbn.
  unfold file_Close. exec.
  eexists _, _, _. split; [reflexivity|]. split; [reflexivity|].
  split; [trace_eq|]. split.
  { rewrite !elem_of_app, !elem_of_cons. auto 10. }
  split.
  { intros Hin. rewrite !elem_of_app, !elem_of_cons, !elem_of_nil in Hin.
    pose proof (build_events_no_remove conf (staged conf a w)
                  (zipFileName conf a (next_token w)) p1
                  (zipFileName conf a (next_token w))).
    intuition discriminate. }
  split; [apply file_exists_insert_file | cbn; by rewrite lookup_insert_eq].
Qed.

Lemma archived_none conf fs p :
  Forall (λ f, file_exists fs (original conf (query.FileName f)) = false) p →
  archived conf fs p = [].
Proof.
  unfold archived. induction 1 as [|g p Hg _ IH]; [reflexivity|].
  cbn. rewrite Hg. exact IH.
Qed.

(** C2 (amended). An export in which no row has its original on the
    disk is not answered with an icon: the handler sets the attachment
    header and hands the temp file, an archive without entries, to the
    file server, which answers 200 with that archive when it is asked
    for nothing but the file and can open it. *)
Theorem export_without_files_serves_empty_archive c conf w a p :
  let zf := zipFileName conf a (next_token w) in
  export_starts c conf w a p →
  w_fails w (OpWrite zf) = false →
  Forall (λ f, file_exists (staged conf a w) (original conf (query.FileName f)) = false) p →
  ∃ r w' evs,
    run (DownloadAlbum c conf) w = (r, w') ∧
    r = http_ServeFile c zf (Some (NFile (Zip []))) (w_fails w (OpOpen zf))
          (attachment a (next_token w)) ∧
    headers r = [("Content-Disposition",
                  "attachment; filename=" +:+ zipBaseName a (next_token w))] ∧
    (∀ icon, body r ≠ BData icon) ∧
    (servable c w zf → status r = http_StatusOK ∧ body r = BFile (Zip [])) ∧
    appended w w' evs ∧
    EvServeFile zf ∈ evs.
Proof.
  intros zf Hstart Hwrite Hnone. subst zf.
  assert (Happ : appendable conf (with_fs (staged conf a w) w)
                   (zipFileName conf a (next_token w)) p).
  { split; [exact Hwrite|]. cbn. eapply Forall_impl; [exact Hnone|].
    cbn. intros g Hg. rewrite Hg. discriminate. }
  destruct (DownloadAlbum_serves_archive c conf w a p Hstart Happ)
    as (r & w' & evs & Hrun & Hr & Hevs & _ & Hserved & _).
  rewrite (archived_none conf _ p Hnone) in Hr.
  exists r, w', evs. split; [exact Hrun|]. split; [exact Hr|]. subst r.
  split; [apply http_ServeFile_headers|].
  split; [intros icon; apply http_ServeFile_no_data|].
  split; [apply http_ServeFile_whole | split; assumption].
Qed.

(** C8 (amended). The destination names of two exports of the same album
    differ exactly when the tokens they draw differ: the name is the
    only thing that keeps the two temp files apart, and the random
    source alone decides whether the tokens differ. *)
Theorem export_names_differ_iff_tokens_differ conf a (s1 s2 : HState) :
  let t1 := (rnd_Token 3 s1).1 in
  let t2 := (rnd_Token 3 s2).1 in
  (t1 = next_token (hw s1) ∧ t2 = next_token (hw s2)) ∧
  (zipFileName conf a t1 ≠ zipFileName conf a t2 ↔ t1 ≠ t2) ∧
  (zipBaseName a t1 ≠ zipBaseName a t2 ↔ t1 ≠ t2).
Proof.
  intros t1 t2. split; [split; reflexivity|]. split.
  - split; intros Hne Heq; apply Hne; [by rewrite Heq | by apply zipFileName_inj in Heq].
  - split; intros Hne Heq; apply Hne; [by rewrite Heq|].
    unfold zipBaseName in Heq. do 2 apply String.app_inj in Heq.
    by apply string_app_inj_r in Heq.
Qed.

End Properties.

(** * Further properties of the handlers *)

Section Further.
Context `{D : Deps}.
Import config.

Implicit Types (c : Context) (conf : Config) (w : World) (s : HState).

(** ** What the handlers leave alone *)

Lemma preserves_ret {A X} (f : World → X) (a : A) : preserves f (ret a).
Proof. intros s. reflexivity. Qed.

Lemma preserves_bind {A B X} (f : World → X) (m : M A) (k : A → M B) :
  preserves f m → (∀ a, preserves f (k a)) → preserves f (bind m k).
Proof.
  intros Hm Hk s. unfold bind. specialize (Hm s).
  destruct (m s) as [a s']. cbn in Hm. rewrite <- Hm. apply Hk.
Qed.

Lemma preserves_run {X} (f : World → X) (h : M unit) w :
  preserves f h → f (run h w).2 = f w.
Proof. intros Hh. apply (Hh {| hw := w; hr := fresh |}). Qed.

(** A call that is not a sequence of calls: unfold it and look at each
    of its outcomes. *)
Ltac prim :=
  intros ?;
  unfold report, event_Success, UpdateClientConfig, PublishAlbumEvent,
    c_File, fs_FileExists, os_MkdirAll, os_Create, file_Close, os_Remove,
    ioutil_ReadFile, zipWriter_Close, addFileToZip, gc_Get, gc_Set, rnd_Token, draw,
    query_AlbumSearch, query_AlbumByUID, query_PhotoSearch, query_PhotoSelection,
    query_AlbumThumbByUID, entity_NewAlbum, db_Create, m_SaveForm, db_Delete, db_Save,
    entity_FirstOrCreatePhotoAlbum, db_DeletePhotoAlbums, f_Update,
    thumb_FromFile, thumb_FromCache, node_at;
  exec;
  repeat first
    [ reflexivity
    | match goal with
      | |- context [if ?b then _ else _] => destruct b
      | |- context [match ?x with _ => _ end] => destruct x
      end; exec ].

(** A handler: follow its sequence of calls and its branches. *)
Ltac walk :=
  repeat first
    [ apply preserves_bind; [| intros ?]
    | apply preserves_ret
    | match goal with
      | |- preserves _ (if ?b then _ else _) => destruct b
      | |- preserves _ (match ?x with _ => _ end) => destruct x
      | |- preserves _ (let _ := _ in _) => cbv zeta
      end
    | solve [eauto]
    | solve [prim] ].

Lemma AddPhotosToAlbum_loop_preserves_fs a photos :
  ∀ added, preserves w_fs (AddPhotosToAlbum_loop a photos added).
Proof. induction photos as [|p photos IH]; intros added; cbn [AddPhotosToAlbum_loop]; walk. Qed.

Lemma AddPhotosToAlbum_loop_preserves_cache a photos :
  ∀ added, preserves w_cache (AddPhotosToAlbum_loop a photos added).
Proof. induction photos as [|p photos IH]; intros added; cbn [AddPhotosToAlbum_loop]; walk. Qed.

(** X1. The nine endpoints that manage albums and their photos work on
    the index only: whatever the request and whatever the outcome, they
    leave the disk and the memory cache exactly as they were. *)
Theorem album_management_leaves_disk_and_cache e c conf w :
  e ≠ EDownloadAlbum →
  e ≠ EAlbumThumbnail →
  w_fs (run (handler e c conf) w).2 = w_fs w ∧
  w_cache (run (handler e c conf) w).2 = w_cache w.
Proof.
  intros Hdl Hth.
  pose proof AddPhotosToAlbum_loop_preserves_fs.
  pose proof AddPhotosToAlbum_loop_preserves_cache.
  split; apply preserves_run;
    destruct e; try congruence; cbn [handler];
    unfold GetAlbums, GetAlbum, CreateAlbum, UpdateAlbum, DeleteAlbum, LikeAlbum,
      DislikeAlbum, AddPhotosToAlbum, RemovePhotosFromAlbum;
    walk.
Qed.


Lemma DownloadAlbum_loop_preserves_db conf p :
  ∀ zw, preserves w_db (DownloadAlbum_loop conf p zw).
Proof.
  induction p as [|f p IH]; intros zw; unfold DownloadAlbum_loop; fold DownloadAlbum_loop; walk.
Qed.



(** The loop keeps writing to the file it was given. *)
Lemma DownloadAlbum_loop_file conf p :
  ∀ zw s, zw_file (DownloadAlbum_loop conf p zw s).1.2 = zw_file zw.
Proof.
  induction p as [|f p IH]; intros zw s; unfold DownloadAlbum_loop; fold DownloadAlbum_loop.
  - reflexivity.
  - unfold fs_FileExists, addFileToZip. exec.
    destruct (file_exists _ _); exec; [| apply IH].
    destruct (w_fails _ _); exec; [reflexivity|].
    destruct (w_fs (hw s) !! _) as [[|d]|]; exec; try reflexivity.
    destruct (w_fails _ _); exec; [reflexivity|].
    rewrite IH. reflexivity.
Qed.

(** X2. The endpoints that only read the index (the album list, the
    single album, the archive export) return the database they found,
    whatever the request and whatever the outcome. *)
Theorem reading_endpoints_leave_database e c conf w :
  e = EGetAlbums ∨ e = EGetAlbum ∨ e = EDownloadAlbum →
  w_db (run (handler e c conf) w).2 = w_db w.
Proof.
  pose proof DownloadAlbum_loop_preserves_db.
  intros [-> | [-> | ->]]; apply preserves_run; cbn [handler];
    unfold GetAlbums, GetAlbum, DownloadAlbum, DownloadAlbum_build; walk.
Qed.

(** *** The disk outside the temp folder *)















(** ** The album endpoints *)

(** X4. An endpoint that works on one album looks it up before it does
    anything else: when the album is unknown, the request is answered
    404 with the album-not-found error and the lookup is the only call
    that was made; nothing is written, published or created. *)
Theorem unknown_album_is_404_and_nothing_else e c conf w msg :
  e ≠ EGetAlbums → e ≠ ECreateAlbum → e ≠ EAlbumThumbnail →
  denied e c conf = false →
  selects e c →
  AlbumByUID (w_db w) (Param c "uid") = Err msg →
  run (handler e c conf) w =
    (json http_StatusNotFound (BApiError ErrAlbumNotFound),
     with_trace (w_trace w ++ [EvQuery "AlbumByUID" (Param c "uid")]) w).
Proof.
  intros H1 H2 H3 Hd Hsel Hmiss. unfold denied in Hd.
  destruct e; try congruence; cbn in Hd, Hsel; cbn [handler];
    unfold GetAlbum, UpdateAlbum, DeleteAlbum, LikeAlbum, DislikeAlbum,
      AddPhotosToAlbum, RemovePhotosFromAlbum, DownloadAlbum;
    rewrite ?Hd;
    try (destruct Hsel as (f & Hf & Hne); rewrite Hf;
         destruct (decide (length (form.Photos f) = 0%nat)) as [Hlen|_];
         [by destruct (form.Photos f) |]);
    try (destruct Hsel as (f & Hf); rewrite Hf);
    unfold query_AlbumByUID; exec; rewrite Hmiss; reflexivity.
Qed.

(** X5. A removal with an empty selection is refused before the album
    is looked up: 400, one error line in the log, and no call on the
    index.  A removal with photos selected, on a known album, makes one
    delete call for the links of that album to the selected photos, and
    reports the album and the selection. *)
Theorem removal_needs_a_selection c conf w f :
  Unauthorized c conf = false →
  BindSelection c = Ok f →
  (form.Photos f = [] →
   run (RemovePhotosFromAlbum c conf) w =
     (json http_StatusBadRequest (H_error (txt_UcFirst "no photos selected")),
      with_trace (w_trace w ++ [EvLog LError "no photos selected"]) w)) ∧
  (∀ a,
     form.Photos f ≠ [] →
     AlbumByUID (w_db w) (Param c "uid") = Ok a →
     run (RemovePhotosFromAlbum c conf) w =
       (json http_StatusOK
          (BH [("message", VStr "photos removed from album");
               ("album", VAlbum a); ("photos", VStrs (form.Photos f))]),
        with_db (Db_DeletePhotoAlbums (w_db w) (entity.AlbumUID a) (form.Photos f))
          (with_trace
             (w_trace w ++
              [EvQuery "AlbumByUID" (Param c "uid");
               EvDbWrite "DeletePhotoAlbums" (entity.AlbumUID a);
               EvSuccess ("photos removed from " +:+ entity.AlbumTitle a);
               EvPublish EntityUpdated (entity.AlbumUID a)]) w))).
Proof.
  intros Hauth Hf. unfold RemovePhotosFromAlbum. rewrite Hauth, Hf. split.
  - intros Hempty. rewrite Hempty. reflexivity.
  - intros a Hne Ha.
    destruct (decide (length (form.Photos f) = 0%nat)) as [Hlen|_];
      [by destruct (form.Photos f) |].
    unfold query_AlbumByUID, db_DeletePhotoAlbums, event_Success, PublishAlbumEvent.
    exec. rewrite Ha. exec. rewrite <- !app_assoc. reflexivity.
Qed.

(** X6. Liking or disliking an album saves the album as it was found,
    with the favorite flag set or cleared and nothing else changed; on
    a database that returns what was saved, the single-album fetch that
    follows shows the flag. *)
Theorem like_then_fetch c conf w a (b : bool) :
  let saved := entity.set_AlbumFavorite b a in
  let endpoint := if b then LikeAlbum else DislikeAlbum in
  Unauthorized c conf = false →
  AlbumByUID (w_db w) (Param c "uid") = Ok a →
  AlbumByUID (Db_Save (w_db w) saved) (Param c "uid") = Ok saved →
  (run (endpoint c conf) w).1 = json http_StatusOK BHttpResponse ∧
  w_db (run (endpoint c conf) w).2 = Db_Save (w_db w) saved ∧
  (run (GetAlbum c conf) (run (endpoint c conf) w).2).1 = json http_StatusOK (BAlbum saved) ∧
  entity.AlbumFavorite saved = b ∧
  entity.AlbumUID saved = entity.AlbumUID a ∧
  entity.AlbumTitle saved = entity.AlbumTitle a ∧
  entity.AlbumSlug saved = entity.AlbumSlug a.
Proof.
  intros saved endpoint Hauth Ha Hsaved. subst endpoint.
  assert (Hrun : run ((if b then LikeAlbum else DislikeAlbum) c conf) w =
                 (json http_StatusOK BHttpResponse,
                  with_db (Db_Save (w_db w) saved)
                    (with_trace
                       (w_trace w ++
                        [EvQuery "AlbumByUID" (Param c "uid");
                         EvDbWrite "Save" (entity.AlbumUID a);
                         EvUpdateClientConfig;
                         EvPublish EntityUpdated (Param c "uid")]) w))).
  { destruct b; unfold LikeAlbum, DislikeAlbum; rewrite Hauth;
      unfold query_AlbumByUID, db_Save, UpdateClientConfig, PublishAlbumEvent;
      exec; rewrite Ha; exec; rewrite <- !app_assoc; reflexivity. }
  rewrite Hrun. cbn [fst snd]. split; [reflexivity|]. split; [reflexivity|].
  split; [| repeat split].
  unfold GetAlbum, query_AlbumByUID. exec. rewrite Hsaved. reflexivity.
Qed.

(** The loop over the selected photos makes one call per photo, in the
    order of the selection, and keeps the links that the calls return. *)
Lemma AddPhotosToAlbum_loop_calls a photos : ∀ added s,
  ∃ more s',
    AddPhotosToAlbum_loop a photos added s = (added ++ more, s') ∧
    (length more ≤ length photos)%nat ∧
    w_trace (hw s') =
      w_trace (hw s) ++
      ((λ p, EvDbWrite "FirstOrCreatePhotoAlbum" (entity.PhotoUID p)) <$> photos) ∧
    hr s' = hr s.
Proof.
  induction photos as [|p photos IH]; intros added s.
  - exists [], s. cbn. rewrite !app_nil_r. auto.
  - cbn [AddPhotosToAlbum_loop]. unfold entity_FirstOrCreatePhotoAlbum. exec.
    destruct (FirstOrCreatePhotoAlbum _ _) as [db' [val|]]; exec.
    + match goal with |- context [AddPhotosToAlbum_loop a photos ?l ?st] =>
        destruct (IH l st) as (more & s' & Hrun & Hlen & Htr & Hhr) end.
      exists (val :: more), s'. rewrite Hrun, Htr, Hhr. cbn.
      rewrite <- !app_assoc. repeat split; [lia].
    + match goal with |- context [AddPhotosToAlbum_loop a photos ?l ?st] =>
        destruct (IH l st) as (more & s' & Hrun & Hlen & Htr & Hhr) end.
      exists more, s'. rewrite Hrun, Htr, Hhr. cbn.
      rewrite <- !app_assoc. repeat split; [lia].
Qed.

(** X7. Adding photos to a known album makes exactly one
    first-or-create call per selected photo, in the order of the
    selection, and then one success message and one update event; the
    links reported are at most as many as the photos, and the message
    is in the singular exactly when one link is reported.  An empty
    selection is not refused: it is answered 200 with no link. *)
Theorem adding_photos_calls_once_per_photo c conf w f a photos :
  Unauthorized c conf = false →
  BindSelection c = Ok f →
  AlbumByUID (w_db w) (Param c "uid") = Ok a →
  PhotoSelection (w_db w) f = Ok photos →
  ∃ added w',
    run (AddPhotosToAlbum c conf) w =
      (json http_StatusOK
         (BH [("message", VStr "photos added to album");
              ("album", VAlbum a); ("added", VPhotoAlbums added)]), w') ∧
    (length added ≤ length photos)%nat ∧
    (photos = [] → added = []) ∧
    w_trace w' =
      w_trace w ++
      [EvQuery "AlbumByUID" (Param c "uid"); EvQuery "PhotoSelection" ""] ++
      ((λ p, EvDbWrite "FirstOrCreatePhotoAlbum" (entity.PhotoUID p)) <$> photos) ++
      [EvSuccess
         (if decide (length added = 1%nat)
          then "one photo added to " +:+ txt_Quote (entity.AlbumTitle a)
          else pretty (length added) +:+ " photos added to "
               +:+ txt_Quote (entity.AlbumTitle a));
       EvPublish EntityUpdated (entity.AlbumUID a)].
Proof.
  intros Hauth Hf Ha Hsel. unfold AddPhotosToAlbum. rewrite Hauth, Hf.
  unfold query_AlbumByUID, query_PhotoSelection. exec. rewrite Ha. exec. rewrite Hsel.
  match goal with |- context [AddPhotosToAlbum_loop a photos [] ?st] =>
    destruct (AddPhotosToAlbum_loop_calls a photos [] st)
      as (added & s' & Hrun & Hlen & Htr & Hhr) end.
  cbn in Hrun, Htr, Hhr. rewrite Hrun. cbn.
  exists added. destruct s' as [w' r']. cbn in Htr, Hhr. subst r'.
  unfold event_Success, PublishAlbumEvent.
  destruct (decide (length added = 1%nat)); exec;
    (eexists; split; [reflexivity|]; split; [exact Hlen|]; split;
     [intros ->; by destruct added |]);
    rewrite Htr; rewrite <- !app_assoc; reflexivity.
Qed.

(** ** Notifications *)

Lemma AddPhotosToAlbum_loop_quiet a photos added s :
  List.filter notification (w_trace (hw (AddPhotosToAlbum_loop a photos added s).2)) =
  List.filter notification (w_trace (hw s)) ∧
  hr (AddPhotosToAlbum_loop a photos added s).2 = hr s.
Proof.
  destruct (AddPhotosToAlbum_loop_calls a photos added s) as (more & s' & Hrun & _ & Htr & Hhr).
  rewrite Hrun. cbn. rewrite Htr, Hhr, List.filter_app. split; [| reflexivity].
  assert (Hnone : ∀ l : list entity.Photo,
            List.filter notification
              ((λ p, EvDbWrite "FirstOrCreatePhotoAlbum" (entity.PhotoUID p)) <$> l) = []).
  { induction l; [reflexivity | assumption]. }
  by rewrite Hnone, app_nil_r.
Qed.

(** The calls of the export and of the thumbnail handler notify nobody. *)
Ltac quiet_prim :=
  intros ?;
  unfold report, c_File, fs_FileExists, os_MkdirAll, os_Create, file_Close, os_Remove,
    ioutil_ReadFile, zipWriter_Close, addFileToZip, gc_Get, gc_Set, rnd_Token, draw,
    query_AlbumSearch, query_AlbumByUID, query_PhotoSearch, query_AlbumThumbByUID,
    f_Update, thumb_FromFile, thumb_FromCache;
  exec;
  repeat first
    [ reflexivity
    | progress (rewrite ?List.filter_app; cbn; rewrite ?app_nil_r)
    | match goal with
      | |- context [if ?b then _ else _] => destruct b
      | |- context [match ?x with _ => _ end] => destruct x
      end; exec ].

Ltac quiet_walk :=
  repeat first
    [ apply preserves_bind; [| intros ?]
    | apply preserves_ret
    | match goal with
      | |- preserves _ (if ?b then _ else _) => destruct b
      | |- preserves _ (match ?x with _ => _ end) => destruct x
      | |- preserves _ (let _ := _ in _) => cbv zeta
      end
    | solve [eauto]
    | solve [quiet_prim] ].

Lemma DownloadAlbum_loop_quiet conf p :
  ∀ zw, preserves (λ w, List.filter notification (w_trace w)) (DownloadAlbum_loop conf p zw).
Proof.
  induction p as [|f p IH]; intros zw; unfold DownloadAlbum_loop; fold DownloadAlbum_loop;
    quiet_walk.
Qed.

Lemma reading_handlers_quiet e c conf :
  e = EGetAlbums ∨ e = EGetAlbum ∨ e = EDownloadAlbum ∨ e = EAlbumThumbnail →
  preserves (λ w, List.filter notification (w_trace w)) (handler e c conf).
Proof.
  pose proof DownloadAlbum_loop_quiet.
  intros [-> | [-> | [-> | ->]]]; cbn [handler];
    unfold GetAlbums, GetAlbum, DownloadAlbum, DownloadAlbum_build, AlbumThumbnail;
    quiet_walk.
Qed.

(** All the outcomes of a handler without a loop. *)
Ltac outcomes :=
  unfold query_AlbumByUID, query_PhotoSelection, entity_NewAlbum, draw, db_Create,
    m_SaveForm, db_Delete, db_Save, db_DeletePhotoAlbums, event_Success,
    UpdateClientConfig, PublishAlbumEvent;
  exec;
  repeat (match goal with
          | |- context [if ?b then _ else _] => destruct b eqn:?
          | |- context [match ?x with _ => _ end] => destruct x eqn:?
          end; exec).

(** X8. Clients are notified only by requests that succeed: when an
    endpoint answers with a status other than 200, the request has sent
    no success message, no update of the client configuration and no
    album event. *)
Theorem only_successful_requests_notify e c conf w :
  status (run (handler e c conf) w).1 ≠ http_StatusOK →
  List.filter notification (w_trace (run (handler e c conf) w).2) =
  List.filter notification (w_trace w).
Proof.
  assert (Hread : e = EGetAlbums ∨ e = EGetAlbum ∨ e = EDownloadAlbum ∨ e = EAlbumThumbnail →
                  status (run (handler e c conf) w).1 ≠ http_StatusOK →
                  List.filter notification (w_trace (run (handler e c conf) w).2) =
                  List.filter notification (w_trace w)).
  { intros He _. apply (preserves_run (λ w, List.filter notification (w_trace w))).
    by apply reading_handlers_quiet. }
  destruct e; try (apply Hread; auto; fail); clear Hread; cbn [handler].
  - unfold CreateAlbum. outcomes; intros Hst; try (by destruct Hst);
      rewrite ?List.filter_app; cbn; by rewrite ?app_nil_r.
  - unfold UpdateAlbum. outcomes; intros Hst; try (by destruct Hst);
      rewrite ?List.filter_app; cbn; by rewrite ?app_nil_r.
  - unfold DeleteAlbum. outcomes; intros Hst; try (by destruct Hst);
      rewrite ?List.filter_app; cbn; by rewrite ?app_nil_r.
  - unfold LikeAlbum. outcomes; intros Hst; try (by destruct Hst);
      rewrite ?List.filter_app; cbn; by rewrite ?app_nil_r.
  - unfold DislikeAlbum. outcomes; intros Hst; try (by destruct Hst);
      rewrite ?List.filter_app; cbn; by rewrite ?app_nil_r.
  - unfold AddPhotosToAlbum.
    destruct (Unauthorized c conf); [exec; intros _; reflexivity|].
    destruct (BindSelection c) as [f|err]; [| exec; intros _; reflexivity].
    unfold query_AlbumByUID, query_PhotoSelection. exec.
    destruct (AlbumByUID _ _) as [a|err]; exec;
      [| intros _; rewrite List.filter_app; cbn; by rewrite app_nil_r].
    destruct (PhotoSelection _ _) as [photos|err]; exec;
      [| intros _; rewrite !List.filter_app; cbn; by rewrite !app_nil_r].
    match goal with |- context [AddPhotosToAlbum_loop a photos [] ?st] =>
      pose proof (AddPhotosToAlbum_loop_quiet a photos [] st) as [_ Hhr];
      destruct (AddPhotosToAlbum_loop a photos [] st) as [added s'] end.
    unfold event_Success, PublishAlbumEvent.
    destruct (decide (length added = 1%nat)); exec; intros Hst; by destruct Hst.
  - unfold RemovePhotosFromAlbum. outcomes; intros Hst; try (by destruct Hst);
      rewrite ?List.filter_app; cbn; by rewrite ?app_nil_r.
Qed.

Lemma filter_published_notification l :
  List.filter published (List.filter notification l) = List.filter published l.
Proof.
  induction l as [|x l IH]; [reflexivity|]. cbn.
  destruct x; cbn; rewrite ?IH; reflexivity.
Qed.

Lemma AddPhotosToAlbum_loop_publishes_nothing a photos added s :
  List.filter published (w_trace (hw (AddPhotosToAlbum_loop a photos added s).2)) =
  List.filter published (w_trace (hw s)).
Proof.
  destruct (AddPhotosToAlbum_loop_quiet a photos added s) as [Hq _].
  by rewrite <- filter_published_notification, Hq, filter_published_notification.
Qed.

(** X9. Every change that succeeds is published exactly once, as what
    it is: a request that one of the seven changing endpoints answers
    200 has published one album event, created for the creation,
    deleted for the deletion, updated for the others; the four reading
    endpoints publish nothing. *)
Theorem successful_change_is_published_once e c conf w :
  match change e with
  | Some kind =>
      status (run (handler e c conf) w).1 = http_StatusOK →
      ∃ uid,
        List.filter published (w_trace (run (handler e c conf) w).2) =
        List.filter published (w_trace w) ++ [EvPublish kind uid]
  | None =>
      List.filter published (w_trace (run (handler e c conf) w).2) =
      List.filter published (w_trace w)
  end.
Proof.
  assert (Hread : e = EGetAlbums ∨ e = EGetAlbum ∨ e = EDownloadAlbum ∨ e = EAlbumThumbnail →
                  List.filter published (w_trace (run (handler e c conf) w).2) =
                  List.filter published (w_trace w)).
  { intros He. rewrite <- filter_published_notification.
    rewrite (preserves_run (λ w, List.filter notification (w_trace w)))
      by (by apply reading_handlers_quiet).
    apply filter_published_notification. }
  destruct e; cbn [change]; try (apply Hread; auto; fail); clear Hread; cbn [handler].
  - unfold CreateAlbum. outcomes; intros Hst; try discriminate;
      eexists; rewrite ?List.filter_app; cbn; rewrite ?app_nil_r; reflexivity.
  - unfold UpdateAlbum. outcomes; intros Hst; try discriminate;
      eexists; rewrite ?List.filter_app; cbn; rewrite ?app_nil_r; reflexivity.
  - unfold DeleteAlbum. outcomes; intros Hst; try discriminate;
      eexists; rewrite ?List.filter_app; cbn; rewrite ?app_nil_r; reflexivity.
  - unfold LikeAlbum. outcomes; intros Hst; try discriminate;
      eexists; rewrite ?List.filter_app; cbn; rewrite ?app_nil_r; reflexivity.
  - unfold DislikeAlbum. outcomes; intros Hst; try discriminate;
      eexists; rewrite ?List.filter_app; cbn; rewrite ?app_nil_r; reflexivity.
  - unfold AddPhotosToAlbum.
    destruct (Unauthorized c conf); [exec; discriminate|].
    destruct (BindSelection c) as [f|err]; [| exec; discriminate].
    unfold query_AlbumByUID, query_PhotoSelection. exec.
    destruct (AlbumByUID _ _) as [a|err]; exec; [| discriminate].
    destruct (PhotoSelection _ _) as [photos|err]; exec; [| discriminate].
    match goal with |- context [AddPhotosToAlbum_loop a photos [] ?st] =>
      pose proof (AddPhotosToAlbum_loop_publishes_nothing a photos [] st) as Hloop;
      destruct (AddPhotosToAlbum_loop a photos [] st) as [added s'] end.
    cbn in Hloop. rewrite !List.filter_app in Hloop. cbn in Hloop.
    rewrite !app_nil_r in Hloop.
    unfold event_Success, PublishAlbumEvent.
    destruct (decide (length added = 1%nat)); exec; intros _;
      eexists; rewrite !List.filter_app; cbn; rewrite ?app_nil_r, Hloop; reflexivity.
  - unfold RemovePhotosFromAlbum. outcomes; intros Hst; try discriminate;
      eexists; rewrite ?List.filter_app; cbn; rewrite ?app_nil_r; reflexivity.
Qed.

(** ** The archive export, whatever fails *)

Lemma archived_cons_there conf fs f p :
  file_exists fs (original conf (query.FileName f)) = true →
  archived conf fs (f :: p) =
    (query.ShareFileName f, file_content fs (original conf (query.FileName f)))
      :: archived conf fs p.
Proof. intros H. unfold archived. cbn. by rewrite H. Qed.

Lemma archived_cons_missing conf fs f p :
  file_exists fs (original conf (query.FileName f)) = false →
  archived conf fs (f :: p) = archived conf fs p.
Proof. intros H. unfold archived. cbn. by rewrite H. Qed.

#[local] Arguments archived : simpl never.

(** The loop of the export is all or nothing.  Either it runs over
    every row, the response is left alone and the archive holds the rows
    that are on the disk, in order; or it stops at a row whose original
    is on the disk and could not be appended, with the response set to
    500 and the archive holding the rows before that one. *)
Lemma DownloadAlbum_loop_outcome conf p : ∀ zw s,
  ∃ ok zw' s',
    DownloadAlbum_loop conf p zw s = ((ok, zw'), s') ∧
    w_fs (hw s') = w_fs (hw s) ∧
    (ok = true →
     hr s' = hr s ∧
     zw_entries zw' = zw_entries zw ++ archived conf (w_fs (hw s)) p) ∧
    (ok = false →
     status (hr s') = http_StatusInternalServerError ∧
     body (hr s') = H_error (txt_UcFirst "failed to create zip file") ∧
     ∃ p1 f p2,
       p = p1 ++ f :: p2 ∧
       file_exists (w_fs (hw s)) (original conf (query.FileName f)) = true ∧
       (w_fails (hw s) (OpOpen (original conf (query.FileName f))) = true
        ∨ w_fails (hw s) (OpWrite (zw_file zw)) = true) ∧
       zw_entries zw' = zw_entries zw ++ archived conf (w_fs (hw s)) p1).
Proof.
  induction p as [|f p IH]; intros zw s; unfold DownloadAlbum_loop; fold DownloadAlbum_loop.
  - exists true, zw, s. split; [reflexivity|]. split; [reflexivity|].
    split; [| discriminate]. intros _. split; [reflexivity|].
    unfold archived. cbn. by rewrite app_nil_r.
  - unfold fs_FileExists. exec.
    change (path_Join (OriginalsPath conf) (query.FileName f))
      with (original conf (query.FileName f)) in *.
    destruct (file_exists _ _) eqn:Hthere.
    + unfold addFileToZip. exec.
      destruct (w_fails (hw s) (OpOpen _)) eqn:Hopen; exec;
        [eexists _, _, _; split; [reflexivity|]; split; [reflexivity|];
         split; [discriminate|]; intros _; split; [reflexivity|]; split; [reflexivity|];
         exists [], f, p; split; [reflexivity|]; split; [exact Hthere|];
         split; [by left|]; unfold archived; cbn; by rewrite app_nil_r |].
      rewrite (file_exists_lookup _ _ Hthere).
      destruct (w_fails (hw s) (OpWrite _)) eqn:Hwrite; exec;
        [eexists _, _, _; split; [reflexivity|]; split; [reflexivity|];
         split; [discriminate|]; intros _; split; [reflexivity|]; split; [reflexivity|];
         exists [], f, p; split; [reflexivity|]; split; [exact Hthere|];
         split; [by right|]; unfold archived; cbn; by rewrite app_nil_r |].
      match goal with |- context [DownloadAlbum_loop conf p ?z ?st] =>
        destruct (IH z st) as (ok & zw' & s' & Hrun & Hfs & Hall & Hstop) end.
      cbn in Hfs, Hall, Hstop.
      exists ok, zw', s'. split; [exact Hrun|]. split; [exact Hfs|]. split.
      * intros Hok. destruct (Hall Hok) as [Hhr Hent]. split; [exact Hhr|].
        rewrite Hent, archived_cons_there by exact Hthere.
        rewrite <- app_assoc. reflexivity.
      * intros Hok.
        destruct (Hstop Hok) as (Hst & Hbody & p1 & g & p2 & -> & Hg & Hwhy & Hent).
        split; [exact Hst|]. split; [exact Hbody|].
        exists (f :: p1), g, p2. split; [reflexivity|]. split; [exact Hg|].
        split; [destruct Hwhy as [Hw | Hw]; [by left | congruence] |].
        rewrite Hent, archived_cons_there by exact Hthere.
        rewrite <- app_assoc. reflexivity.
    + exec.
      match goal with |- context [DownloadAlbum_loop conf p ?z ?st] =>
        destruct (IH z st) as (ok & zw' & s' & Hrun & Hfs & Hall & Hstop) end.
      cbn in Hfs, Hall, Hstop.
      exists ok, zw', s'. split; [exact Hrun|]. split; [exact Hfs|]. split.
      * intros Hok. destruct (Hall Hok) as [Hhr Hent]. split; [exact Hhr|].
        by rewrite Hent, archived_cons_missing.
      * intros Hok.
        destruct (Hstop Hok) as (Hst & Hbody & p1 & g & p2 & -> & Hg & Hwhy & Hent).
        split; [exact Hst|]. split; [exact Hbody|].
        exists (f :: p1), g, p2. split; [reflexivity|]. split; [exact Hg|].
        split; [exact Hwhy|].
        by rewrite Hent, archived_cons_missing.
Qed.

Lemma DownloadAlbum_loop_preserves_fails conf p :
  ∀ zw, preserves w_fails (DownloadAlbum_loop conf p zw).
Proof.
  induction p as [|f p IH]; intros zw; unfold DownloadAlbum_loop; fold DownloadAlbum_loop; walk.
Qed.

Lemma DownloadAlbum_loop_closed conf p :
  ∀ zw s, zw_closed (DownloadAlbum_loop conf p zw s).1.2 = zw_closed zw.
Proof.
  induction p as [|f p IH]; intros zw s; unfold DownloadAlbum_loop; fold DownloadAlbum_loop.
  - reflexivity.
  - unfold fs_FileExists, addFileToZip. exec.
    destruct (file_exists _ _); exec; [| apply IH].
    destruct (w_fails _ _); exec; [reflexivity|].
    destruct (w_fs (hw s) !! _) as [[|d]|]; exec; try reflexivity.
    destruct (w_fails _ _); exec; [reflexivity|].
    rewrite IH. reflexivity.
Qed.

Lemma os_Remove_response p s : hr (os_Remove p s).2 = hr s.
Proof.
  unfold os_Remove. exec. destruct (w_fails _ _); exec; [reflexivity|].
  destruct (w_fs (hw s) !! p); reflexivity.
Qed.

Lemma zipWriter_Close_response zw s : hr (zipWriter_Close zw s).2 = hr s.
Proof.
  unfold zipWriter_Close. exec. destruct (zw_closed zw); exec; [reflexivity|].
  destruct (w_fails _ _); exec; [reflexivity|].
  destruct (w_fs (hw s) !! zw_file zw) as [[|d]|]; reflexivity.
Qed.

(** X10. A partial archive is never served.  An export that has
    created its temp file and can write to it ends in one of two ways,
    whatever else fails.  Either the temp file holds the archive of
    every row whose original is on the disk, in the order of the rows,
    when it is handed to the file server as an attachment, and the
    response is the one the file server writes for it: 200 with the
    whole archive when it is asked for nothing but the file and can open
    it.  Or the request is answered 500 with the zip error and no file,
    because a row that is on the disk could not be opened. *)
Theorem partial_archive_is_never_served c conf w a p :
  let zf := zipFileName conf a (next_token w) in
  export_starts c conf w a p →
  w_fails w (OpWrite zf) = false →
  let r := (run (DownloadAlbum c conf) w).1 in
  (r = http_ServeFile c zf (Some (NFile (Zip (archived conf (staged conf a w) p))))
         (w_fails w (OpOpen zf)) (attachment a (next_token w)) ∧
   headers r = [("Content-Disposition",
                 "attachment; filename=" +:+ zipBaseName a (next_token w))] ∧
   (servable c w zf →
    status r = http_StatusOK ∧
    body r = BFile (Zip (archived conf (staged conf a w) p)))) ∨
  (status r = http_StatusInternalServerError ∧
   body r = H_error (txt_UcFirst "failed to create zip file") ∧
   ∃ f, f ∈ p ∧
        file_exists (staged conf a w) (original conf (query.FileName f)) = true ∧
        w_fails w (OpOpen (original conf (query.FileName f))) = true).
Proof.
  intros zf (Htok & Ha & Hp & Hmk & Hcr & Hzf) Hwrite r. subst zf r.
  unfold DownloadAlbum. rewrite Htok.
  unfold query_AlbumByUID. exec. rewrite Ha.
  unfold query_PhotoSearch. exec. rewrite Hp.
  unfold rnd_Token, draw. exec. fold (next_token w).
  rewrite os_MkdirAll_ok by (cbn; assumption). cbn.
  rewrite os_Create_ok by (cbn; first [assumption | by rewrite zipFileName_free]). cbn.
  unfold DownloadAlbum_build. exec.
  match goal with |- context [DownloadAlbum_loop conf p ?z ?st] =>
    pose proof (DownloadAlbum_loop_preserves_fails conf p z st) as Hfails;
    pose proof (DownloadAlbum_loop_closed conf p z st) as Hclosed;
    pose proof (DownloadAlbum_loop_file conf p z st) as Hfile;
    destruct (DownloadAlbum_loop_outcome conf p z st)
      as (ok & zw' & s' & Hrun & Hfs & Hall & Hstop) end.
  rewrite Hrun in Hfails, Hclosed, Hfile. cbn in Hfails, Hclosed, Hfile, Hfs, Hall, Hstop.
  rewrite Hrun. cbn. fold (staged conf a w) in Hfs, Hall, Hstop.
  assert (Hthere : file_exists (w_fs (hw s')) (zw_file zw') = true).
  { rewrite Hfs, Hfile. apply file_exists_insert_file. }
  assert (Hcan : w_fails (hw s') (OpWrite (zw_file zw')) = false).
  { by rewrite Hfails, Hfile. }
  destruct ok; cbn.
  - destruct (Hall eq_refl) as [Hhr Hent]. cbn in Hent. left.
    rewrite zipWriter_Close_ok by (cbn; assumption). cbn.
    unfold file_Close, fs_FileExists. exec. rewrite Hfile.
    rewrite file_exists_insert_file. cbn.
    rewrite c_File_run. cbn. rewrite lookup_insert_eq, Hfails, Hhr, Hent. cbn.
    match goal with |- context [os_Remove ?q ?st] =>
      pose proof (os_Remove_response q st) as Hrm;
      destruct (os_Remove q st) as [[e|] s3] end; cbn in Hrm; exec;
      match goal with |- context [zipWriter_Close ?z ?st] =>
        pose proof (zipWriter_Close_response z st) as Hcl;
        destruct (zipWriter_Close z st) as [x s4] end; cbn in Hcl; cbn;
      rewrite Hcl, Hrm; cbn;
      (split; [reflexivity|]; split; [apply http_ServeFile_headers|]);
      apply http_ServeFile_whole.
  - destruct (Hstop eq_refl) as (Hst & Hbody & p1 & f & p2 & -> & Hf & Hwhy & _). right.
    match goal with |- context [zipWriter_Close ?z ?st] =>
      pose proof (zipWriter_Close_response z st) as Hcl;
      destruct (zipWriter_Close z st) as [x s4] end. cbn in Hcl. cbn.
    rewrite Hcl. split; [exact Hst|]. split; [exact Hbody|].
    exists f. split; [rewrite elem_of_app, elem_of_cons; auto|]. split; [exact Hf|].
    destruct Hwhy as [Hopen | Hw]; [exact Hopen | congruence].
Qed.

(** X11. An export that cannot set its temp file up serves nothing.
    When [os.MkdirAll] fails on the temp folder, the request is answered
    500 with a fixed message; the disk is as [MkdirAll] left it: what
    was on it is still there, and the folders above the temp folder that
    were made before the failure stay.  When the folder is there and the
    temp file cannot be created, the request is answered 500 with the
    text of the error, and the folder, with the folders above it that
    were missing, is all that was added to the disk.  In both cases the
    handler stops there: no row is looked at, nothing is appended, served
    or removed. *)
Theorem export_setup_failure_serves_nothing c conf w a p :
  let zp := zipPath conf in
  let zf := zipFileName conf a (next_token w) in
  let made := MkdirAll (w_fails w) (w_fs w) zp in
  let start := [EvQuery "AlbumByUID" (Param c "uid");
                EvQuery "PhotoSearch" (entity.AlbumUID a); EvToken 3; EvMkdirAll zp] in
  InvalidDownloadToken c conf = false →
  AlbumByUID (w_db w) (Param c "uid") = Ok a →
  PhotoSearch (w_db w) {| form.ps_Album := entity.AlbumUID a;
                          form.ps_Count := 10000; form.ps_Offset := 0 |} = Ok p →
  (∀ err,
     made.2 = Some err →
     ∃ r w',
       run (DownloadAlbum c conf) w = (r, w') ∧
       r = json http_StatusInternalServerError
             (H_error (txt_UcFirst "failed to create zip folder")) ∧
       w_fs w' = made.1 ∧
       (∀ q n, w_fs w !! q = Some n → w_fs w' !! q = Some n) ∧
       (∀ q, q ≠ zp → made_above zp q (w_fs w) (w_fs w')) ∧
       appended w w' (start ++ [EvLog LError err])) ∧
  (made.2 = None →
   w_fails w (OpCreate zf) = true ∨ w_fs w !! zf = Some NDir →
   ∃ r w' err,
     run (DownloadAlbum c conf) w = (r, w') ∧
     r = json http_StatusInternalServerError (H_error (txt_UcFirst err)) ∧
     w_fs w' = made.1 ∧
     w_fs w' !! zp = Some NDir ∧
     (∀ q, q ≠ zp → made_above zp q (w_fs w) (w_fs w')) ∧
     appended w w' (start ++ [EvCreate zf; EvLog LError err])).
Proof.
  intros zp zf made start Htok Ha Hp. subst zp zf made start.
  assert (Habove : ∀ q, q ≠ zipPath conf →
            made_above (zipPath conf) q (w_fs w)
              (MkdirAll (w_fails w) (w_fs w) (zipPath conf)).1).
  { intros q Hq. unfold MkdirAll.
    destruct (mkdirAll_lookup (String.length (zipPath conf)) (w_fails w) (w_fs w)
                (zipPath conf) q) as [H | (H1 & H2 & [H3 | H3])];
      [by left | contradiction | by right]. }
  split.
  - intros err Hmk. unfold DownloadAlbum. rewrite Htok.
    unfold query_AlbumByUID. exec. rewrite Ha.
    unfold query_PhotoSearch. exec. rewrite Hp.
    unfold rnd_Token, draw. exec. fold (next_token w).
    rewrite os_MkdirAll_run. cbn. rewrite Hmk. exec.
    eexists _, _. split; [reflexivity|]. split; [reflexivity|].
    split; [reflexivity|]. split; [intros q n; apply MkdirAll_keeps|].
    split; [exact Habove | trace_eq].
  - intros Hmk Hcr. unfold DownloadAlbum. rewrite Htok.
    unfold query_AlbumByUID. exec. rewrite Ha.
    unfold query_PhotoSearch. exec. rewrite Hp.
    unfold rnd_Token, draw. exec. fold (next_token w).
    rewrite os_MkdirAll_ok by (cbn; assumption). cbn.
    unfold os_Create. exec.
    destruct (w_fails w (OpCreate (zipFileName conf a (next_token w)))) eqn:Hfault; exec.
    { eexists _, _, _. split; [reflexivity|]. split; [reflexivity|].
      split; [reflexivity|]. split; [by apply MkdirAll_made|].
      split; [exact Habove | trace_eq]. }
    destruct Hcr as [Hcr | Hcr]; [discriminate|].
    rewrite zipFileName_free, Hcr. exec.
    eexists _, _, _. split; [reflexivity|]. split; [reflexivity|].
    split; [reflexivity|]. split; [by apply MkdirAll_made|].
    split; [exact Habove | trace_eq].
Qed.

(** X12. A failed cleanup does not change the answer.  When the archive
    has been handed to the file server and the temp file cannot be
    removed, the response is the one the file server wrote, 200 with
    the whole archive when it is asked for nothing but the file and can
    open it; the failure is one error line of the log, and the temp file
    stays on the disk with the whole archive in it. *)
Theorem failed_cleanup_is_only_logged c conf w a p :
  let zf := zipFileName conf a (next_token w) in
  export_starts c conf w a p →
  appendable conf (with_fs (staged conf a w) w) zf p →
  w_fails w (OpRemove zf) = true →
  ∃ r w' evs,
    run (DownloadAlbum c conf) w = (r, w') ∧
    r = http_ServeFile c zf (Some (NFile (Zip (archived conf (staged conf a w) p))))
          (w_fails w (OpOpen zf)) (attachment a (next_token w)) ∧
    (servable c w zf →
     status r = http_StatusOK ∧
     body r = BFile (Zip (archived conf (staged conf a w) p))) ∧
    appended w w' evs ∧
    EvLog LError ("album: could not remove " +:+ txt_Quote zf +:+ " ("
                  +:+ ("remove " +:+ zf +:+ ": permission denied") +:+ ")") ∈ evs ∧
    w_fs w' !! zf = Some (NFile (Zip (archived conf (staged conf a w) p))).
Proof.
  intros zf (Htok & Ha & Hp & Hmk & Hcr & Hzf) Happ Hrm. subst zf.
  unfold DownloadAlbum. rewrite Htok.
  unfold query_AlbumByUID. exec. rewrite Ha.
  unfold query_PhotoSearch. exec. rewrite Hp.
  unfold rnd_Token, draw. exec. fold (next_token w).
  rewrite os_MkdirAll_ok by (cbn; assumption). cbn.
  rewrite os_Create_ok by (cbn; first [assumption | by rewrite zipFileName_free]). cbn.
  unfold DownloadAlbum_build. exec.
  rewrite DownloadAlbum_loop_runs by exact Happ. cbn.
  rewrite zipWriter_Close_ok
    by (cbn; first [reflexivity | apply Happ | apply file_exists_insert_file]). cbn.
  unfold file_Close, fs_FileExists. exec.
  rewrite file_exists_insert_file. cbn.
  rewrite c_File_run. cbn. rewrite lookup_insert_eq.
  rewrite os_Remove_fails by exact Hrm. exec.
  rewrite zipWriter_Close_twice by reflexivity. exec.
  eexists _, _, _. split; [reflexivity|]. split; [reflexivity|].
  split; [apply http_ServeFile_whole|].
  split; [trace_eq|]. split; [in_trace|].
  cbn. by rewrite lookup_insert_eq.
Qed.

(** ** The thumbnail handler, further *)

(** X13. On a cache miss, with the original on the disk and the size
    limit not taking the request (the type is within the limit, or the
    download flag is set), when the generation succeeds and the
    thumbnail can be read back: the generator is called exactly once,
    in the mode the configuration and the type ask for, on demand when
    thumbnails are uncached or the type is rendered on demand, through
    the on-disk cache otherwise; the response carries a
    Content-Disposition attachment header, with the share name of the
    file, exactly when the download flag is set; the disk is as the
    generator left it and the index is not written. *)
Theorem generated_thumbnail_mode_and_header c conf w t f fs' thumbnail data :
  InvalidToken c conf = false →
  Types (Param c "type") = Some t →
  cache_lookup (w_now w) (w_cache w) (cacheKey (Param c "uid") (Param c "type")) = None →
  AlbumThumbByUID (w_db w) (Param c "uid") = Ok f →
  file_exists (w_fs w) (original conf (entity.FileName f)) = true →
  ExceedsLimit t && bool_decide (Query c "download" = "") = false →
  generated conf t (w_fs w) f = (fs', Ok thumbnail) →
  w_fails w (OpReadFile thumbnail) = false →
  fs' !! thumbnail = Some (NFile data) →
  ∃ r w' evs,
    run (AlbumThumbnail c conf) w = (r, w') ∧
    appended w w' evs ∧
    List.filter generator_event evs =
      [(if ThumbUncached conf || OnDemand t then EvFromFile else EvFromCache)
         (original conf (entity.FileName f)) (entity.FileHash f) (ThumbPath conf)
         (thumb.Width t) (thumb.Height t) (thumb.Options t)] ∧
    headers r =
      (if decide (Query c "download" = "") then []
       else [("Content-Disposition",
              "attachment; filename=" +:+ entity.ShareFileName f)]) ∧
    w_fs w' = fs' ∧
    w_db w' = w_db w.
Proof.
  intros Htok Htype Hmiss Hf Hthere Hsmall Hgen Hok Hread.
  unfold AlbumThumbnail. rewrite Htok, Htype.
  unfold gc_Get. exec. rewrite Hmiss.
  unfold query_AlbumThumbByUID. exec. rewrite Hf.
  unfold fs_FileExists. exec. unfold original in *. rewrite Hthere, Hsmall. cbn.
  unfold generated, original in Hgen.
  destruct (ThumbUncached conf || OnDemand t);
    unfold thumb_FromFile, thumb_FromCache; exec; rewrite Hgen; exec;
    (destruct (decide (Query c "download" = "")) as [Hq | Hq];
     [rewrite (bool_decide_eq_false_2 (Query c "download" ≠ "")) by (intros H; by apply H)
     |rewrite (bool_decide_eq_true_2 (Query c "download" ≠ "")) by exact Hq]);
    unfold ioutil_ReadFile; exec; rewrite Hok, Hread;
    unfold gc_Set; exec;
    (eexists _, _, _; split; [reflexivity|]; split; [trace_eq|]);
    repeat split; reflexivity.
Qed.

(** X14. A cached thumbnail lives one hour.  When the memory cache
    holds the bytes that a request stored at the time [filled], a request
    for the same album and type is served these bytes as long as the
    clock has not passed [filled] plus one hour, without a call on the
    index; once the clock has passed it, the entry is not used any more
    and the handler goes to the index. *)
Theorem cached_thumbnail_lives_one_hour c conf w t data (filled : Z) :
  let key := cacheKey (Param c "uid") (Param c "type") in
  InvalidToken c conf = false →
  Types (Param c "type") = Some t →
  0 < filled + time_Hour →
  w_cache w !! key = Some {| Object := data; Expiration := filled + time_Hour |} →
  (w_now w ≤ filled + time_Hour →
   run (AlbumThumbnail c conf) w =
     ({| status := http_StatusOK; ctype := "image/jpeg"; headers := [];
         body := BData data |},
      with_trace (w_trace w ++ [EvCacheGet key; EvLog LDebug ("cache hit for " +:+ key)]) w)) ∧
  (filled + time_Hour < w_now w →
   ∃ rest,
     w_trace (run (AlbumThumbnail c conf) w).2 =
     w_trace w ++ EvCacheGet key :: EvQuery "AlbumThumbByUID" (Param c "uid") :: rest).
Proof.
  intros key Htok Htype Hpos Hentry. split.
  - intros Hlive.
    assert (Hhit : cache_lookup (w_now w) (w_cache w) key = Some data).
    { unfold cache_lookup. rewrite Hentry. cbn.
      destruct (Z.ltb_spec (filled + time_Hour) (w_now w)); [lia|].
      by rewrite andb_false_r. }
    unfold AlbumThumbnail. rewrite Htok, Htype.
    unfold gc_Get. exec. fold key. rewrite Hhit. exec.
    rewrite <- !app_assoc. reflexivity.
  - intros Hdead.
    assert (Hmiss : cache_lookup (w_now w) (w_cache w) key = None).
    { unfold cache_lookup. rewrite Hentry. cbn.
      destruct (Z.ltb_spec 0 (filled + time_Hour)); [|lia].
      destruct (Z.ltb_spec (filled + time_Hour) (w_now w)); [reflexivity | lia]. }
    unfold AlbumThumbnail. rewrite Htok, Htype.
    unfold gc_Get. exec. fold key. rewrite Hmiss.
    unfold query_AlbumThumbByUID, fs_FileExists, f_Update, report, c_File,
      thumb_FromFile, thumb_FromCache, ioutil_ReadFile, gc_Set.
    exec.
    repeat (match goal with
            | |- context [match ?x with _ => _ end] =>
                lazymatch x with
                | context [match _ with _ => _ end] => fail
                | _ => destruct x eqn:?
                end
            end; exec);
      eexists; rewrite <- ?app_assoc; cbn; reflexivity.
Qed.

(** Every outcome of the thumbnail handler. *)
Ltac thumbnail_outcomes :=
  unfold AlbumThumbnail, gc_Get, query_AlbumThumbByUID, fs_FileExists, f_Update, report,
    c_File, thumb_FromFile, thumb_FromCache, ioutil_ReadFile, gc_Set;
  exec;
  repeat (match goal with
          | |- context [match ?x with _ => _ end] =>
              lazymatch x with
              | context [match _ with _ => _ end] => fail
              | _ => destruct x eqn:?
              end
          end; exec).

(** X15. The side effects of a thumbnail request are three, each tied
    to one outcome.  The memory cache changes only when a generated
    thumbnail is served, by the entry for (uid, type) with one hour to
    live: an icon is never cached.  The index changes only when the
    original is missing, by the FileMissing update.  The disk changes
    only by what the generator does. *)
Theorem thumbnail_side_effects c conf w :
  let r := (run (AlbumThumbnail c conf) w).1 in
  let w' := (run (AlbumThumbnail c conf) w).2 in
  let uid := Param c "uid" in
  let key := cacheKey uid (Param c "type") in
  (w_cache w' = w_cache w ∨
   ∃ data, served r http_StatusOK "image/jpeg" data ∧
           w_cache w' = cache_store (w_now w) (w_cache w) key data time_Hour) ∧
  (w_db w' = w_db w ∨
   served r http_StatusOK "image/svg+xml" photoIconSvg ∧
   ∃ f, AlbumThumbByUID (w_db w) uid = Ok f ∧
        w_db w' = (File_Update (w_db w) f "FileMissing" true).1) ∧
  (w_fs w' = w_fs w ∨
   ∃ t f, Types (Param c "type") = Some t ∧
          AlbumThumbByUID (w_db w) uid = Ok f ∧
          w_fs w' = (generated conf t (w_fs w) f).1).
Proof.
  intros r w' uid key. subst r w' uid key.
  thumbnail_outcomes;
    (split; [| split]);
    first
      [ left; reflexivity
      | right; eexists; split; [repeat split | reflexivity]
      | right; split; [repeat split | eexists; split; reflexivity]
      | right; eexists _, _; split; [reflexivity |]; split; [reflexivity |];
        unfold generated, original;
        match goal with H : (_ || _) = _ |- _ => rewrite H end; reflexivity ].
Qed.

(** ** Creating, updating and deleting *)

(** X16. A creation takes the title and the favorite flag from the
    form, and the rest of the new album from [entity.NewAlbum] on one
    draw of the random source.  When the database refuses the record,
    the error is logged and the client is told that the album already
    exists, whatever the error was; nothing is published.  Otherwise the
    record the database returned is answered. *)
Theorem creation_outcomes c conf w f :
  let m0 := entity.set_AlbumFavorite (form.AlbumFavorite f)
              (NewAlbum (w_entropy w (w_draws w)) (form.AlbumTitle f) TypeDefault) in
  let res := Db_Create (w_db w) m0 in
  Unauthorized c conf = false →
  BindAlbum c {| form.AlbumTitle := ""; form.AlbumFavorite := false |} = Ok f →
  ∃ w',
    run (CreateAlbum c conf) w =
      (match res.2 with
       | Some _ =>
           json http_StatusBadRequest
             (H_error (txt_Quote (entity.AlbumTitle res.1.2) +:+ " already exists"))
       | None => json http_StatusOK (BAlbum res.1.2)
       end, w') ∧
    w_db w' = res.1.1 ∧
    w_draws w' = S (w_draws w) ∧
    (∀ err, res.2 = Some err →
            EvLog LError err ∈ w_trace w' ∧
            List.filter notification (w_trace w') = List.filter notification (w_trace w)).
Proof.
  intros m0 res Hauth Hf. subst m0 res.
  unfold CreateAlbum. rewrite Hauth, Hf.
  unfold entity_NewAlbum, draw, db_Create, event_Success, UpdateClientConfig,
    PublishAlbumEvent.
  exec.
  destruct (Db_Create _ _) as [[db' m] [err|]]; exec;
    (eexists; split; [reflexivity|]; split; [reflexivity|]; split; [reflexivity|]).
  - intros err' [= <-]. split; [in_trace|].
    cbn. rewrite ?List.filter_app. cbn. by rewrite ?app_nil_r.
  - intros; discriminate.
Qed.

(** X17. An update works in stages, and each stage that fails stops it
    before the database is written: the form that is bound is the form
    of the album as it is stored, overlaid by the request; a form that
    cannot be made is answered 500, a form that cannot be bound 400.
    Only then is the album saved: a failed save is answered 500 and
    notifies nobody, a save that succeeds is answered with the saved
    album. *)
Theorem update_stages c conf w m :
  Unauthorized c conf = false →
  AlbumByUID (w_db w) (Param c "uid") = Ok m →
  (∀ err, form_NewAlbum m = Err err →
     (run (UpdateAlbum c conf) w).1 =
       json http_StatusInternalServerError (BApiError ErrSaveFailed) ∧
     w_db (run (UpdateAlbum c conf) w).2 = w_db w) ∧
  (∀ f0 err, form_NewAlbum m = Ok f0 → BindAlbum c f0 = Err err →
     (run (UpdateAlbum c conf) w).1 =
       json http_StatusBadRequest (BApiError ErrFormInvalid) ∧
     w_db (run (UpdateAlbum c conf) w).2 = w_db w) ∧
  (∀ f0 f, form_NewAlbum m = Ok f0 → BindAlbum c f0 = Ok f →
     let res := SaveForm (w_db w) m f in
     (run (UpdateAlbum c conf) w).1 =
       match res.2 with
       | Some _ => json http_StatusInternalServerError (BApiError ErrSaveFailed)
       | None => json http_StatusOK (BAlbum res.1.2)
       end ∧
     w_db (run (UpdateAlbum c conf) w).2 = res.1.1).
Proof.
  intros Hauth Hm. unfold UpdateAlbum. rewrite Hauth.
  unfold query_AlbumByUID. exec. rewrite Hm.
  split; [| split].
  - intros err Herr. rewrite Herr. exec. split; reflexivity.
  - intros f0 err Hf0 Herr. rewrite Hf0, Herr. exec. split; reflexivity.
  - intros f0 f Hf0 Hf. rewrite Hf0, Hf.
    unfold m_SaveForm, UpdateClientConfig, event_Success, PublishAlbumEvent. exec.
    destruct (SaveForm _ _ _) as [[db' m'] [err|]]; exec; split; reflexivity.
Qed.

(** X18. A deletion is announced before it is made, and is answered
    200 with the album as it was found, whatever the database does with
    the delete: the event goes out first, then the record is deleted,
    then the client configuration is refreshed and the success message
    sent. *)
Theorem deletion_is_announced_first c conf w m :
  Unauthorized c conf = false →
  AlbumByUID (w_db w) (Param c "uid") = Ok m →
  run (DeleteAlbum c conf) w =
    (json http_StatusOK (BAlbum m),
     with_db (Db_Delete (w_db w) m)
       (with_trace
          (w_trace w ++
           [EvQuery "AlbumByUID" (Param c "uid");
            EvPublish EntityDeleted (Param c "uid");
            EvDbWrite "Delete" (entity.AlbumUID m);
            EvUpdateClientConfig;
            EvSuccess ("album " +:+ txt_Quote (entity.AlbumTitle m) +:+ " deleted")]) w)).
Proof.
  intros Hauth Hm. unfold DeleteAlbum. rewrite Hauth.
  unfold query_AlbumByUID, PublishAlbumEvent, db_Delete, UpdateClientConfig, event_Success.
  exec. rewrite Hm. exec. rewrite <- !app_assoc. reflexivity.
Qed.

(** X19. The album list answers a search that succeeds with the
    results and two paging headers that echo the count and the offset
    of the form; a form that cannot be bound and a search that fails
    are answered 400 with the text of the error, and no header. *)
Theorem album_list_outcomes c conf w :
  Unauthorized c conf = false →
  (run (GetAlbums c conf) w).1 =
    match BindAlbumSearch c with
    | Err err => json http_StatusBadRequest (H_error (txt_UcFirst err))
    | Ok f =>
        match AlbumSearch (w_db w) f with
        | Err err => json http_StatusBadRequest (H_error (txt_UcFirst err))
        | Ok result =>
            {| status := http_StatusOK; ctype := "application/json; charset=utf-8";
               headers := [("X-Limit", pretty (form.Count f));
                           ("X-Offset", pretty (form.Offset f))];
               body := BAlbumResults result |}
        end
    end.
Proof.
  intros Hauth. unfold GetAlbums. rewrite Hauth.
  destruct (BindAlbumSearch c) as [f|err]; [| reflexivity].
  unfold query_AlbumSearch. exec.
  destruct (AlbumSearch (w_db w) f); reflexivity.
Qed.

(** X20. An export that runs to its end cleans its temp file up and
    leaves its temp folder behind: once the archive is handed to the
    file server and the removal succeeds, the temp file is gone, the
    temp folder is in place, and every other path of the disk holds
    what it held before the request, or was missing above the temp
    folder and is a directory now. *)
Theorem served_export_leaves_only_its_folder c conf w a p :
  let zp := zipPath conf in
  let zf := zipFileName conf a (next_token w) in
  export_starts c conf w a p →
  appendable conf (with_fs (staged conf a w) w) zf p →
  w_fails w (OpRemove zf) = false →
  let w' := (run (DownloadAlbum c conf) w).2 in
  w_fs w' = delete zf (MkdirAll (w_fails w) (w_fs w) zp).1 ∧
  w_fs w' !! zf = None ∧
  w_fs w' !! zp = Some NDir ∧
  (∀ q, q ≠ zf → q ≠ zp → made_above zp q (w_fs w) (w_fs w')).
Proof.
  intros zp zf Hstart Happ Hrm w'. subst zp zf w'.
  destruct (DownloadAlbum_serves_archive c conf w a p Hstart Happ)
    as (r & w' & evs & Hrun & _ & _ & _ & _ & _ & Hfs).
  destruct Hstart as (_ & _ & _ & Hmk & _).
  rewrite Hrun. cbn [snd]. rewrite (Hfs Hrm). unfold staged.
  rewrite delete_insert_eq.
  pose proof (zipFileName_not_zipPath conf a (next_token w)) as Hne.
  split; [reflexivity|]. split; [apply lookup_delete_eq|]. split.
  - rewrite lookup_delete_ne by (intros E; apply Hne; symmetry; exact E).
    by apply MkdirAll_made.
  - intros q Hzf Hzp. unfold made_above. rewrite lookup_delete_ne by congruence.
    unfold MkdirAll.
    destruct (mkdirAll_lookup (String.length (zipPath conf)) (w_fails w) (w_fs w)
                (zipPath conf) q) as [H | (H1 & H2 & [H3 | H3])];
      [by left | contradiction | by right].
Qed.

End Further.

(** * The properties on the small installation *)

Import world.
#[local] Existing Instance demo.deps.

(** C5 on a forged download token and on a forged thumbnail token. *)
Lemma unauthorized_request_touches_nothing_witness :
  (∃ r, run (DownloadAlbum dl_forged conf) w0 = (r, w0) ∧
        served r http_StatusForbidden "image/svg+xml" (Blob "<svg>broken</svg>") ∧
        headers r = []) ∧
  (∃ r, run (AlbumThumbnail (thumbnail "aqk2x5y1" "guess" "tile_224" []) conf) w0 = (r, w0) ∧
        served r http_StatusForbidden "image/svg+xml" (Blob "<svg>broken</svg>") ∧
        headers r = []).
Proof.
  split.
  - apply (unauthorized_request_touches_nothing EDownloadAlbum dl_forged conf w0);
      [right; reflexivity | reflexivity].
  - apply (unauthorized_request_touches_nothing EAlbumThumbnail
             (thumbnail "aqk2x5y1" "guess" "tile_224" []) conf w0);
      [left; reflexivity | reflexivity].
Defined.

(** C10: the anonymous request and the signed-in request for "Summer"
    get the same answer, the album; the anonymous request is turned away
    by the endpoint that deletes it. *)
Lemma GetAlbum_has_no_gate_witness :
  Unauthorized anonymous conf = true ∧
  Unauthorized signed_in conf = false ∧
  run (GetAlbum anonymous conf) w0 = run (GetAlbum signed_in conf) w0 ∧
  (∃ w', run (GetAlbum anonymous conf) w0 =
           ({| status := http_StatusOK; ctype := "application/json; charset=utf-8";
               headers := []; body := BAlbum summer |}, w')) ∧
  (∃ r, run (DeleteAlbum anonymous conf) w0 = (r, w0) ∧
        (status r = http_StatusUnauthorized ∨ status r = http_StatusForbidden)).
Proof.
  destruct GetAlbum_has_no_gate as (Hsame & Hfound & Hothers).
  split; [reflexivity|]. split; [reflexivity|].
  split; [apply Hsame; reflexivity|].
  split; [apply Hfound; reflexivity|].
  apply (Hothers EDeleteAlbum anonymous conf w0); [discriminate | reflexivity].
Defined.

(** C4: the thumbnail of "Winter", whose only photo has lost its
    original. *)
Lemma missing_original_serves_icon_and_flags_witness :
  ∃ r w' evs,
    run (AlbumThumbnail (thumbnail "aqk2x7z3" "public" "tile_224" []) conf) w0 = (r, w') ∧
    served r http_StatusOK "image/svg+xml" (Blob "<svg>photo</svg>") ∧
    appended w0 w' evs ∧
    EvDbWrite "Update FileMissing" "2021/sleigh.jpg" ∈ evs ∧
    demo.missing (w_db w') = ["2021/sleigh.jpg"] ∧
    Forall (λ e, generator_event e = false) evs ∧
    w_fs w' = w_fs w0 ∧ w_cache w' = w_cache w0.
Proof.
  destruct (missing_original_serves_icon_and_flags
              (thumbnail "aqk2x7z3" "public" "tile_224" []) conf w0
              {| thumb.Width := 224; thumb.Height := 224; thumb.Options := [1; 2] |}
              sleigh)
    as (r & w' & evs & Hrun & Hr & Hevs & Hin & Hdb & Hgen & Hfs & Hcache);
    try reflexivity.
  exists r, w', evs. rewrite Hdb. repeat split; try assumption; apply Hr.
Defined.

(** C6: the first request for the tile of "Summer" fills the cache, the
    second one is served from it. *)
Lemma thumbnail_cache_hit_and_fill_witness :
  let req := thumbnail "aqk2x5y1" "public" "tile_224" [] in
  let key := "album-thumbnail:aqk2x5y1:tile_224" in
  let data := Blob "jpeg 224x224 of beach" in
  let w1 := (run (AlbumThumbnail req conf) w0).2 in
  (∃ r w' evs,
     run (AlbumThumbnail req conf) w0 = (r, w') ∧
     served r http_StatusOK "image/jpeg" data ∧
     appended w0 w' evs ∧
     EvCacheSet key data time_Hour ∈ evs ∧
     w_cache w' = <[key := {| Object := data; Expiration := w_now w0 + time_Hour |}]> (w_cache w0)) ∧
  (∃ r w' evs,
     run (AlbumThumbnail req conf) w1 = (r, w') ∧
     served r http_StatusOK "image/jpeg" data ∧
     appended w1 w' evs ∧
     Forall (λ e, store_event e = false) evs ∧
     w_fs w' = w_fs w1 ∧ w_cache w' = w_cache w1).
Proof.
  intros req key data w1.
  pose (t := {| thumb.Width := 224; thumb.Height := 224; thumb.Options := [1; 2] |}).
  split.
  - destruct (thumbnail_cache_hit_and_fill req conf w0 t eq_refl eq_refl) as [_ Hfill].
    apply (Hfill beach (generated conf t (w_fs w0) beach).1
             "/photoprism/cache/thumbnails/0a1b_224x224.jpg" data);
      reflexivity.
  - destruct (thumbnail_cache_hit_and_fill req conf w1 t eq_refl eq_refl) as [Hhit _].
    apply (Hhit data). reflexivity.
Defined.

(** C3 (amended): the oversized type of "Summer" without the download
    flag, on a cold cache: the original of the thumbnail photo is
    handed to the file server, and served. *)
Lemma oversized_thumbnail_skips_generator_witness :
  ∃ r w' evs,
    run (AlbumThumbnail (thumbnail "aqk2x5y1" "public" "fit_7680" []) conf) w0 = (r, w') ∧
    appended w0 w' evs ∧
    Forall (λ e, generator_event e = false) evs ∧
    w_fs w' = w_fs w0 ∧
    status r = http_StatusOK ∧
    body r = BFile (Blob "beach") ∧
    EvServeFile "/photoprism/originals/2020/beach.jpg" ∈ evs.
Proof.
  destruct (oversized_thumbnail_skips_generator
              (thumbnail "aqk2x5y1" "public" "fit_7680" []) conf w0
              {| thumb.Width := 7680; thumb.Height := 4320; thumb.Options := [3] |})
    as (r & w' & evs & Hrun & Hevs & Hgen & Hfs & Horig); try reflexivity.
  destruct (Horig beach) as (Hserve & Hwhole); try reflexivity.
  destruct Hwhole as (Hst & Hbody); [repeat split; reflexivity|].
  exists r, w', evs. repeat split; assumption.
Defined.

(** C3, as stated, fails once a download of the oversized type has
    filled the cache: the next request for the same type, without the
    download flag, gets the cached rendition and not the original. *)
Lemma oversized_thumbnail_served_from_cache :
  let download := thumbnail "aqk2x5y1" "public" "fit_7680" [("download", "1")] in
  let plain := thumbnail "aqk2x5y1" "public" "fit_7680" [] in
  let w1 := (run (AlbumThumbnail download conf) w0).2 in
  let r := (run (AlbumThumbnail plain conf) w1).1 in
  InvalidToken plain conf = false ∧
  (ExceedsLimit <$> Types (Param plain "type")) = Some true ∧
  Query plain "download" = "" ∧
  file_content (w_fs w1) "/photoprism/originals/2020/beach.jpg" = Blob "beach" ∧
  served r http_StatusOK "image/jpeg" (Blob "jpeg 7680x4320 of beach") ∧
  body r ≠ BFile (Blob "beach").
Proof.
  vm_compute. repeat split; discriminate.
Qed.

(** C9, as stated, fails on the size-limit path: with a valid token,
    the oversized rendition of "Summer" is answered 403 by the file
    server when the original cannot be opened, and 206 when the request
    asks for a range. *)
Lemma oversized_thumbnail_not_answered_200 :
  let plain := thumbnail "aqk2x5y1" "public" "fit_7680" [] in
  let closed := (run (AlbumThumbnail plain conf) (at_rest scenes.unreadable_beach)).1 in
  let partial := (run (AlbumThumbnail scenes.ranged conf) w0).1 in
  InvalidToken plain conf = false ∧
  InvalidToken scenes.ranged conf = false ∧
  file_exists (w_fs w0) "/photoprism/originals/2020/beach.jpg" = true ∧
  status closed = http_StatusForbidden ∧
  body closed = BText "403 Forbidden" ∧
  status partial = 206 ∧
  status closed ≠ http_StatusOK ∧
  status partial ≠ http_StatusOK.
Proof.
  vm_compute. repeat split; discriminate.
Qed.

(** C9 (amended): one request per kind of failure, each answered 200
    with an icon, a forged token answered 403, and the request for the
    oversized rendition of an original that cannot be opened. *)
Lemma thumbnail_failures_answer_200_witness :
  let answer c w := (run (AlbumThumbnail c conf) w).1 in
  (∃ t f,
     Types "fit_7680" = Some t ∧ ExceedsLimit t = true ∧
     AlbumThumbByUID (w_db w0) "aqk2x5y1" = Ok f ∧
     ¬ servable (thumbnail "aqk2x5y1" "public" "fit_7680" [])
         (at_rest scenes.unreadable_beach) (original conf (entity.FileName f))) ∧
  served (answer (thumbnail "aqk2x5y1" "guess" "tile_224" []) w0)
    http_StatusForbidden "image/svg+xml" brokenIconSvg ∧
  served (answer (thumbnail "aqk2x5y1" "public" "tile_9999" []) w0)
    http_StatusOK "image/svg+xml" photoIconSvg ∧
  served (answer (thumbnail "aqk2x0000" "public" "tile_224" []) w0)
    http_StatusOK "image/svg+xml" albumIconSvg ∧
  served (answer (thumbnail "aqk2x7z3" "public" "tile_224" []) w0)
    http_StatusOK "image/svg+xml" photoIconSvg ∧
  served (answer (thumbnail "aqk2x9b5" "public" "tile_224" []) w0)
    http_StatusOK "image/svg+xml" photoIconSvg ∧
  served (answer (thumbnail "aqk2x5y1" "public" "tile_224" []) w_thumb_unreadable)
    http_StatusOK "image/svg+xml" albumIconSvg.
Proof.
  intros answer.
  pose (t := {| thumb.Width := 224; thumb.Height := 224; thumb.Options := [1; 2] |}).
  split; [| split; [| split; [| split; [| split; [| split]]]]].
  - destruct (thumbnail_failures_answer_200
                (thumbnail "aqk2x5y1" "public" "fit_7680" []) conf
                (at_rest scenes.unreadable_beach)) as (Hother & _).
    destruct Hother as (t' & f & Ht & Hbig & _ & _ & Hf & _ & _ & Hno);
      [reflexivity | vm_compute; discriminate |].
    exists t', f. repeat split; assumption.
  - destruct (thumbnail_failures_answer_200
                (thumbnail "aqk2x5y1" "guess" "tile_224" []) conf w0) as (_ & Hbad & _).
    apply Hbad. reflexivity.
  - destruct (thumbnail_failures_answer_200
                (thumbnail "aqk2x5y1" "public" "tile_9999" []) conf w0) as (_ & _ & Hok).
    destruct (Hok eq_refl) as [Hunknown _]. apply Hunknown. reflexivity.
  - destruct (thumbnail_failures_answer_200
                (thumbnail "aqk2x0000" "public" "tile_224" []) conf w0) as (_ & _ & Hok).
    destruct (Hok eq_refl) as [_ Hknown].
    destruct (Hknown t eq_refl eq_refl) as [Hempty _].
    apply (Hempty "record not found"). reflexivity.
  - destruct (thumbnail_failures_answer_200
                (thumbnail "aqk2x7z3" "public" "tile_224" []) conf w0) as (_ & _ & Hok).
    destruct (Hok eq_refl) as [_ Hknown].
    destruct (Hknown t eq_refl eq_refl) as [_ Hfile].
    destruct (Hfile sleigh eq_refl) as [Hgone _]. apply Hgone. reflexivity.
  - destruct (thumbnail_failures_answer_200
                (thumbnail "aqk2x9b5" "public" "tile_224" []) conf w0) as (_ & _ & Hok).
    destruct (Hok eq_refl) as [_ Hknown].
    destruct (Hknown t eq_refl eq_refl) as [_ Hfile].
    destruct (Hfile bundle eq_refl) as [_ Hthere].
    destruct (Hthere eq_refl eq_refl) as [Hgen _].
    apply (Hgen (w_fs w0) "image: unknown format"). reflexivity.
  - destruct (thumbnail_failures_answer_200
                (thumbnail "aqk2x5y1" "public" "tile_224" []) conf w_thumb_unreadable)
      as (_ & _ & Hok).
    destruct (Hok eq_refl) as [_ Hknown].
    destruct (Hknown t eq_refl eq_refl) as [_ Hfile].
    destruct (Hfile beach eq_refl) as [_ Hthere].
    destruct (Hthere eq_refl eq_refl) as [_ Hread].
    apply (Hread (generated conf t (w_fs w_thumb_unreadable) beach).1
             "/photoprism/cache/thumbnails/0a1b_224x224.jpg"); [reflexivity|].
    left. reflexivity.
Defined.

(** C7: the build over the three rows of "Summer", and its turn on
    the row of [palms.jpg]. *)
Lemma archive_build_keeps_order_and_skips_missing_witness :
  let zw := zip_NewWriter "/tmp/photoprism/album/summer-k3v.zip" in
  (∃ zw' s' evs,
     DownloadAlbum_loop conf [beach_row; palms_row; dunes_row] zw s0 = ((true, zw'), s') ∧
     zw_entries zw' =
       [("20200704-beach.jpg", Blob "beach"); ("20200706-dunes.jpg", Blob "dunes")] ∧
     appended (hw s0) (hw s') evs ∧
     List.filter error_line evs = [EvLog LError "album: file '2020/palms.jpg' is missing"] ∧
     w_fs (hw s') = w_fs (hw s0) ∧
     hr s' = hr s0) ∧
  DownloadAlbum_loop conf [palms_row; dunes_row] zw s0 =
    DownloadAlbum_loop conf [dunes_row] zw
      {| hw := with_trace
                 [EvStat "/photoprism/originals/2020/palms.jpg";
                  EvLog LError "album: file '2020/palms.jpg' is missing"] w0;
         hr := fresh |}.
Proof.
  intros zw.
  destruct (archive_build_keeps_order_and_skips_missing conf) as [Hskip Hrun].
  split.
  - apply (Hrun [beach_row; palms_row; dunes_row] zw s0).
    split; [reflexivity|]. repeat constructor.
  - apply (Hskip palms_row [dunes_row] zw s0). reflexivity.
Defined.

(** C1: the export of "Summer" when [dunes.jpg] cannot be opened. *)
Lemma aborted_export_leaves_temp_file_witness :
  ∃ r w' evs,
    run (DownloadAlbum dl_summer conf) w_unreadable = (r, w') ∧
    status r = http_StatusInternalServerError ∧
    appended w_unreadable w' evs ∧
    EvCreate "/tmp/photoprism/album/summer-k3v.zip" ∈ evs ∧
    (EvRemove "/tmp/photoprism/album/summer-k3v.zip" ∉ evs) ∧
    file_exists (w_fs w') "/tmp/photoprism/album/summer-k3v.zip" = true ∧
    w_fs w' !! "/tmp/photoprism/album/summer-k3v.zip" =
      Some (NFile (Zip [("20200704-beach.jpg", Blob "beach")])).
Proof.
  apply (aborted_export_leaves_temp_file dl_summer conf w_unreadable summer
           [beach_row; palms_row] dunes_row []).
  - repeat split; try reflexivity. vm_compute. discriminate.
  - split; [reflexivity|]. repeat constructor.
  - reflexivity.
  - reflexivity.
Defined.

(** C2 (amended): the export of "Winter", whose only photo has lost its
    original. *)
Lemma export_without_files_serves_empty_archive_witness :
  ∃ r w' evs,
    run (DownloadAlbum dl_winter conf) w0 = (r, w') ∧
    status r = http_StatusOK ∧
    headers r = [("Content-Disposition", "attachment; filename=winter-k3v.zip")] ∧
    body r = BFile (Zip []) ∧
    appended w0 w' evs ∧
    EvServeFile "/tmp/photoprism/album/winter-k3v.zip" ∈ evs.
Proof.
  destruct (export_without_files_serves_empty_archive dl_winter conf w0 winter [sleigh_row])
    as (r & w' & evs & Hrun & _ & Hhd & _ & Hwhole & Hevs & Hserve).
  - repeat split; try reflexivity. vm_compute. discriminate.
  - reflexivity.
  - repeat constructor.
  - destruct Hwhole as (Hst & Hbody); [repeat split; reflexivity|].
    exists r, w', evs. repeat split; assumption.
Defined.

(** C2, as stated, fails on the export of "Winter": no file can be
    archived, and the answer is a download of the empty archive, not an
    icon. *)
Lemma export_without_files_is_not_an_icon :
  let r := (run (DownloadAlbum dl_winter conf) w0).1 in
  InvalidDownloadToken dl_winter conf = false ∧
  PhotoSearch (w_db w0) {| form.ps_Album := "aqk2x7z3"; form.ps_Count := 10000;
                           form.ps_Offset := 0 |} = Ok [sleigh_row] ∧
  file_exists (w_fs w0) (original conf (query.FileName sleigh_row)) = false ∧
  status r = http_StatusOK ∧
  headers r = [("Content-Disposition", "attachment; filename=winter-k3v.zip")] ∧
  body r = BFile (Zip []) ∧
  ctype r ≠ "image/svg+xml" ∧
  (∀ icon, body r ≠ BData icon).
Proof.
  vm_compute. repeat split; discriminate.
Qed.

(** C8, as stated, fails when two draws of the random source agree on
    their first three characters: two exports of "Summer", one after the
    other, are given the same destination name. *)
Lemma two_exports_one_name :
  let first := run (DownloadAlbum dl_summer conf) w0 in
  let second := run (DownloadAlbum dl_summer conf) first.2 in
  w_entropy w0 0%nat ≠ w_entropy w0 1%nat ∧
  next_token w0 = next_token first.2 ∧
  zipFileName conf summer (next_token w0) = zipFileName conf summer (next_token first.2) ∧
  headers first.1 = [("Content-Disposition", "attachment; filename=summer-k3v.zip")] ∧
  headers second.1 = [("Content-Disposition", "attachment; filename=summer-k3v.zip")] ∧
  List.filter (λ e, match e with EvCreate _ => true | _ => false end) (w_trace second.2) =
    [EvCreate "/tmp/photoprism/album/summer-k3v.zip";
     EvCreate "/tmp/photoprism/album/summer-k3v.zip"].
Proof.
  vm_compute. repeat split; discriminate.
Qed.

(** * The further properties on the small installation *)

Import scenes.

(** X1: a deletion of "Summer" by the signed-in user.  The album is
    gone from the index; the disk and the memory cache are as they
    were. *)
Lemma album_management_leaves_disk_and_cache_witness :
  let w' := (run (DeleteAlbum signed_in conf) w0).2 in
  AlbumByUID (w_db w') "aqk2x5y1" = Err "record not found" ∧
  w_fs w' = w_fs w0 ∧ w_cache w' = w_cache w0.
Proof.
  split; [reflexivity|].
  apply (album_management_leaves_disk_and_cache EDeleteAlbum signed_in conf w0);
    discriminate.
Defined.

(** X2: the export of "Summer". *)
Lemma reading_endpoints_leave_database_witness :
  w_db (run (DownloadAlbum dl_summer conf) w0).2 = w_db w0.
Proof.
  apply (reading_endpoints_leave_database EDownloadAlbum dl_summer conf w0).
  right. right. reflexivity.
Defined.


(** X4: the signed-in user likes an album that is not in the index. *)
Lemma unknown_album_is_404_and_nothing_else_witness :
  run (LikeAlbum (signed "aqk2x0000" "") conf) w0 =
    (json http_StatusNotFound (BApiError ErrAlbumNotFound),
     with_trace [EvQuery "AlbumByUID" "aqk2x0000"] w0).
Proof.
  apply (unknown_album_is_404_and_nothing_else ELikeAlbum (signed "aqk2x0000" "") conf w0
           "record not found");
    first [discriminate | reflexivity | exact I].
Defined.

(** X5: on the strict installation, a removal with the empty selection
    and a removal of one photo from "Summer". *)
Lemma removal_needs_a_selection_witness :
  run (RemovePhotosFromAlbum (signed "aqk2x5y1" "[]") conf) w_strict =
    (json http_StatusBadRequest (H_error "no photos selected"),
     with_trace [EvLog LError "no photos selected"] w_strict) ∧
  (run (RemovePhotosFromAlbum (signed "aqk2x5y1" "pqk2x0a1b") conf) w_strict).1 =
    json http_StatusOK
      (BH [("message", VStr "photos removed from album");
           ("album", VAlbum summer); ("photos", VStrs ["pqk2x0a1b"])]).
Proof.
  split.
  - destruct (removal_needs_a_selection (signed "aqk2x5y1" "[]") conf w_strict
                {| form.Photos := [] |} eq_refl eq_refl) as [Hempty _].
    apply Hempty. reflexivity.
  - destruct (removal_needs_a_selection (signed "aqk2x5y1" "pqk2x0a1b") conf w_strict
                {| form.Photos := ["pqk2x0a1b"] |} eq_refl eq_refl) as [_ Hsome].
    rewrite (Hsome summer); [reflexivity | discriminate | reflexivity].
Defined.

(** X6: the signed-in user likes "Summer" and fetches it. *)
Lemma like_then_fetch_witness :
  let liked := entity.set_AlbumFavorite true summer in
  let w' := (run (LikeAlbum signed_in conf) w0).2 in
  (run (LikeAlbum signed_in conf) w0).1 = json http_StatusOK BHttpResponse ∧
  w_db w' = Db_Save (w_db w0) liked ∧
  (run (GetAlbum signed_in conf) w').1 = json http_StatusOK (BAlbum liked) ∧
  entity.AlbumFavorite liked = true ∧
  entity.AlbumUID liked = "aqk2x5y1" ∧
  entity.AlbumTitle liked = "Summer" ∧
  entity.AlbumSlug liked = "summer".
Proof.
  apply (like_then_fetch signed_in conf w0 summer true); reflexivity.
Defined.

(** X7: the signed-in user adds one photo to "Summer". *)
Lemma adding_photos_calls_once_per_photo_witness :
  ∃ added w',
    run (AddPhotosToAlbum (signed "aqk2x5y1" "pqk2x0a1b") conf) w0 =
      (json http_StatusOK
         (BH [("message", VStr "photos added to album");
              ("album", VAlbum summer); ("added", VPhotoAlbums added)]), w') ∧
    (length added ≤ 1)%nat ∧
    EvDbWrite "FirstOrCreatePhotoAlbum" "pqk2x0a1b" ∈ w_trace w'.
Proof.
  destruct (adding_photos_calls_once_per_photo (signed "aqk2x5y1" "pqk2x0a1b") conf w0
              {| form.Photos := ["pqk2x0a1b"] |} summer [{| entity.PhotoUID := "pqk2x0a1b" |}]
              eq_refl eq_refl eq_refl eq_refl)
    as (added & w' & Hrun & Hlen & _ & Htr).
  exists added, w'. split; [exact Hrun|]. split; [exact Hlen|].
  rewrite Htr. cbn. apply list_elem_of_further, list_elem_of_further, list_elem_of_here.
Defined.

(** X8: a creation under the title of an album that exists is refused,
    and notifies nobody. *)
Lemma only_successful_requests_notify_witness :
  let r := (run (CreateAlbum (signed "" "Summer") conf) w0).1 in
  let w' := (run (CreateAlbum (signed "" "Summer") conf) w0).2 in
  status r = http_StatusBadRequest ∧
  List.filter notification (w_trace w') = [].
Proof.
  split; [reflexivity|].
  apply (only_successful_requests_notify ECreateAlbum (signed "" "Summer") conf w0).
  vm_compute. discriminate.
Defined.

(** X9: the creation of "Autumn" is published once, as a creation. *)
Lemma successful_change_is_published_once_witness :
  ∃ uid,
    List.filter published (w_trace (run (CreateAlbum (signed "" "Autumn") conf) w0).2) =
    [EvPublish EntityCreated uid].
Proof.
  apply (successful_change_is_published_once ECreateAlbum (signed "" "Autumn") conf w0).
  reflexivity.
Defined.

(** X10: the export of "Summer" when [dunes.jpg] cannot be opened is
    answered 500, and the export of "Summer" on the healthy disk with the
    archive of the two originals that are there. *)
Lemma partial_archive_is_never_served_witness :
  status (run (DownloadAlbum dl_summer conf) w_unreadable).1 = http_StatusInternalServerError ∧
  status (run (DownloadAlbum dl_summer conf) w0).1 = http_StatusOK ∧
  body (run (DownloadAlbum dl_summer conf) w0).1 =
    BFile (Zip [("20200704-beach.jpg", Blob "beach"); ("20200706-dunes.jpg", Blob "dunes")]).
Proof.
  split.
  - destruct (partial_archive_is_never_served dl_summer conf w_unreadable summer
                [beach_row; palms_row; dunes_row]) as [(_ & _ & Hwhole) | (Hst & _)].
    + repeat split; try reflexivity. vm_compute. discriminate.
    + reflexivity.
    + destruct Hwhole as [Hst _]; [repeat split; reflexivity|].
      vm_compute in Hst. discriminate Hst.
    + exact Hst.
  - destruct (partial_archive_is_never_served dl_summer conf w0 summer
                [beach_row; palms_row; dunes_row]) as [(_ & _ & Hwhole) | (Hst & _)].
    + repeat split; try reflexivity. vm_compute. discriminate.
    + reflexivity.
    + apply Hwhole. repeat split; reflexivity.
    + vm_compute in Hst. discriminate Hst.
Defined.

(** X11: the export of "Summer" when no folder can be made, when the
    folder [/tmp/photoprism] cannot be made below a [/tmp] that can, and
    when the temp file cannot be created. *)
Lemma export_setup_failure_serves_nothing_witness :
  (∃ r w',
     run (DownloadAlbum dl_summer conf) (at_rest no_mkdir) = (r, w') ∧
     r = json http_StatusInternalServerError (H_error "failed to create zip folder") ∧
     w_fs w' = disk ∧
     appended (at_rest no_mkdir) w'
       [EvQuery "AlbumByUID" "aqk2x5y1"; EvQuery "PhotoSearch" "aqk2x5y1"; EvToken 3;
        EvMkdirAll "/tmp/photoprism/album";
        EvLog LError "mkdir /tmp: permission denied"]) ∧
  (∃ r w',
     run (DownloadAlbum dl_summer conf) (at_rest read_only_tmp) = (r, w') ∧
     r = json http_StatusInternalServerError (H_error "failed to create zip folder") ∧
     w_fs w' = <["/tmp" := NDir]> disk ∧
     appended (at_rest read_only_tmp) w'
       [EvQuery "AlbumByUID" "aqk2x5y1"; EvQuery "PhotoSearch" "aqk2x5y1"; EvToken 3;
        EvMkdirAll "/tmp/photoprism/album";
        EvLog LError "mkdir /tmp/photoprism: permission denied"]) ∧
  (∃ r w' err,
     run (DownloadAlbum dl_summer conf) (at_rest no_create) = (r, w') ∧
     r = json http_StatusInternalServerError (H_error err) ∧
     w_fs w' = <["/tmp/photoprism/album" := NDir]>
                 (<["/tmp/photoprism" := NDir]> (<["/tmp" := NDir]> disk)) ∧
     appended (at_rest no_create) w'
       [EvQuery "AlbumByUID" "aqk2x5y1"; EvQuery "PhotoSearch" "aqk2x5y1"; EvToken 3;
        EvMkdirAll "/tmp/photoprism/album";
        EvCreate "/tmp/photoprism/album/summer-k3v.zip"; EvLog LError err]).
Proof.
  split; [| split].
  - destruct (export_setup_failure_serves_nothing dl_summer conf (at_rest no_mkdir) summer
                [beach_row; palms_row; dunes_row] eq_refl eq_refl eq_refl) as [Hmk _].
    destruct (Hmk "mkdir /tmp: permission denied" eq_refl)
      as (r & w' & Hrun & Hr & Hfs & _ & _ & Hevs).
    exists r, w'. repeat split; assumption.
  - destruct (export_setup_failure_serves_nothing dl_summer conf (at_rest read_only_tmp) summer
                [beach_row; palms_row; dunes_row] eq_refl eq_refl eq_refl) as [Hmk _].
    destruct (Hmk "mkdir /tmp/photoprism: permission denied" eq_refl)
      as (r & w' & Hrun & Hr & Hfs & _ & _ & Hevs).
    exists r, w'. split; [exact Hrun|]. split; [exact Hr|]. split; [| exact Hevs].
    rewrite Hfs. reflexivity.
  - destruct (export_setup_failure_serves_nothing dl_summer conf (at_rest no_create) summer
                [beach_row; palms_row; dunes_row] eq_refl eq_refl eq_refl) as [_ Hcr].
    destruct (Hcr eq_refl (or_introl eq_refl))
      as (r & w' & err & Hrun & Hr & Hfs & _ & _ & Hevs).
    exists r, w', err. split; [exact Hrun|]. split; [exact Hr|]. split; [| exact Hevs].
    rewrite Hfs. reflexivity.
Defined.

(** X12: the export of "Summer" when the temp file cannot be removed. *)
Lemma failed_cleanup_is_only_logged_witness :
  ∃ r w' evs,
    run (DownloadAlbum dl_summer conf) (at_rest no_remove) = (r, w') ∧
    status r = http_StatusOK ∧
    body r = BFile (Zip [("20200704-beach.jpg", Blob "beach");
                         ("20200706-dunes.jpg", Blob "dunes")]) ∧
    appended (at_rest no_remove) w' evs ∧
    EvLog LError
      "album: could not remove '/tmp/photoprism/album/summer-k3v.zip' (remove /tmp/photoprism/album/summer-k3v.zip: permission denied)"
      ∈ evs ∧
    w_fs w' !! "/tmp/photoprism/album/summer-k3v.zip" =
      Some (NFile (Zip [("20200704-beach.jpg", Blob "beach");
                        ("20200706-dunes.jpg", Blob "dunes")])).
Proof.
  destruct (failed_cleanup_is_only_logged dl_summer conf (at_rest no_remove) summer
              [beach_row; palms_row; dunes_row])
    as (r & w' & evs & Hrun & _ & Hwhole & Hevs & Hlog & Hfs).
  - repeat split; try reflexivity. vm_compute. discriminate.
  - split; [reflexivity|]. repeat constructor.
  - reflexivity.
  - destruct Hwhole as [Hst Hbody]; [repeat split; reflexivity|].
    exists r, w', evs. repeat split; assumption.
Defined.

(** X13: the tile of "Summer" as a download, on a cold cache. *)
Lemma generated_thumbnail_mode_and_header_witness :
  let req := thumbnail "aqk2x5y1" "public" "tile_224" [("download", "true")] in
  ∃ r w' evs,
    run (AlbumThumbnail req conf) w0 = (r, w') ∧
    appended w0 w' evs ∧
    List.filter generator_event evs =
      [EvFromCache "/photoprism/originals/2020/beach.jpg" "0a1b"
         "/photoprism/cache/thumbnails" 224 224 [1; 2]] ∧
    headers r = [("Content-Disposition", "attachment; filename=20200704-beach.jpg")] ∧
    w_fs w' = <["/photoprism/cache/thumbnails/0a1b_224x224.jpg" :=
                  NFile (Blob "jpeg 224x224 of beach")]> disk ∧
    w_db w' = w_db w0.
Proof.
  intros req.
  apply (generated_thumbnail_mode_and_header req conf w0
           {| thumb.Width := 224; thumb.Height := 224; thumb.Options := [1; 2] |}
           beach
           (<["/photoprism/cache/thumbnails/0a1b_224x224.jpg" :=
                NFile (Blob "jpeg 224x224 of beach")]> disk)
           "/photoprism/cache/thumbnails/0a1b_224x224.jpg"
           (Blob "jpeg 224x224 of beach"));
    reflexivity.
Defined.

(** X14: the tile of "Summer", once the first request has filled the
    cache: served from the cache within the hour, looked up in the
    index again one nanosecond after it. *)
Lemma cached_thumbnail_lives_one_hour_witness :
  let req := thumbnail "aqk2x5y1" "public" "tile_224" [] in
  let key := "album-thumbnail:aqk2x5y1:tile_224" in
  let w1 := (run (AlbumThumbnail req conf) w0).2 in
  let w2 := with_now (w_now w0 + time_Hour + 1) w1 in
  run (AlbumThumbnail req conf) (with_now (w_now w0 + time_Hour) w1) =
    ({| status := http_StatusOK; ctype := "image/jpeg"; headers := [];
        body := BData (Blob "jpeg 224x224 of beach") |},
     with_trace (w_trace w1 ++ [EvCacheGet key; EvLog LDebug ("cache hit for " +:+ key)])
       (with_now (w_now w0 + time_Hour) w1)) ∧
  ∃ rest,
    w_trace (run (AlbumThumbnail req conf) w2).2 =
    w_trace w2 ++ EvCacheGet key :: EvQuery "AlbumThumbByUID" "aqk2x5y1" :: rest.
Proof.
  intros req key w1 w2.
  pose (t := {| thumb.Width := 224; thumb.Height := 224; thumb.Options := [1; 2] |}).
  split.
  - destruct (cached_thumbnail_lives_one_hour req conf (with_now (w_now w0 + time_Hour) w1) t
                (Blob "jpeg 224x224 of beach") (w_now w0)
                eq_refl eq_refl eq_refl eq_refl) as [Hlive _].
    apply Hlive. vm_compute. discriminate.
  - destruct (cached_thumbnail_lives_one_hour req conf w2 t
                (Blob "jpeg 224x224 of beach") (w_now w0)
                eq_refl eq_refl eq_refl eq_refl) as [_ Hdead].
    apply Hdead. reflexivity.
Defined.

(** X16: the creation of "Autumn", and a creation under the title of
    "Summer". *)
Lemma creation_outcomes_witness :
  (∃ w',
     run (CreateAlbum (signed "" "Autumn") conf) w0 =
       (json http_StatusOK
          (BAlbum {| entity.AlbumUID := "ak3vq81"; entity.AlbumSlug := "Autumn";
                     entity.AlbumTitle := "Autumn"; entity.AlbumFavorite := false |}), w') ∧
     demo.albums (w_db w') = demo.albums (w_db w0) ++
       [{| entity.AlbumUID := "ak3vq81"; entity.AlbumSlug := "Autumn";
           entity.AlbumTitle := "Autumn"; entity.AlbumFavorite := false |}] ∧
     w_draws w' = 1%nat) ∧
  (∃ w',
     run (CreateAlbum (signed "" "Summer") conf) w0 =
       (json http_StatusBadRequest (H_error "'Summer' already exists"), w') ∧
     w_db w' = w_db w0 ∧
     EvLog LError "UNIQUE constraint failed: albums.album_slug" ∈ w_trace w' ∧
     List.filter notification (w_trace w') = []).
Proof.
  split.
  - destruct (creation_outcomes (signed "" "Autumn") conf w0
                {| form.AlbumTitle := "Autumn"; form.AlbumFavorite := false |}
                eq_refl eq_refl) as (w' & Hrun & Hdb & Hdraws & _).
    exists w'. split; [exact Hrun|]. split; [rewrite Hdb; reflexivity | exact Hdraws].
  - destruct (creation_outcomes (signed "" "Summer") conf w0
                {| form.AlbumTitle := "Summer"; form.AlbumFavorite := false |}
                eq_refl eq_refl) as (w' & Hrun & Hdb & _ & Herr).
    exists w'. split; [exact Hrun|]. split; [exact Hdb|].
    apply (Herr "UNIQUE constraint failed: albums.album_slug"). reflexivity.
Defined.

(** X17: on the strict installation, three updates of "Summer": with no
    body, under the title of "Winter", and under a new title. *)
Lemma update_stages_witness :
  let answer body := (run (UpdateAlbum (signed "aqk2x5y1" body) conf) w_strict).1 in
  let after body := w_db (run (UpdateAlbum (signed "aqk2x5y1" body) conf) w_strict).2 in
  (answer "" = json http_StatusBadRequest (BApiError ErrFormInvalid) ∧
   after "" = w_db w_strict) ∧
  (answer "Winter" = json http_StatusInternalServerError (BApiError ErrSaveFailed) ∧
   after "Winter" = w_db w_strict) ∧
  (answer "Summer 2020" =
     json http_StatusOK
       (BAlbum {| entity.AlbumUID := "aqk2x5y1"; entity.AlbumSlug := "summer";
                  entity.AlbumTitle := "Summer 2020"; entity.AlbumFavorite := false |}) ∧
   AlbumByUID (after "Summer 2020") "aqk2x5y1" =
     Ok {| entity.AlbumUID := "aqk2x5y1"; entity.AlbumSlug := "summer";
           entity.AlbumTitle := "Summer 2020"; entity.AlbumFavorite := false |}).
Proof.
  intros answer after.
  pose (f0 := {| form.AlbumTitle := "Summer"; form.AlbumFavorite := false |}).
  split; [| split].
  - destruct (update_stages (signed "aqk2x5y1" "") conf w_strict summer eq_refl eq_refl)
      as (_ & Hbind & _).
    apply (Hbind f0 "EOF"); reflexivity.
  - destruct (update_stages (signed "aqk2x5y1" "Winter") conf w_strict summer eq_refl eq_refl)
      as (_ & _ & Hsave).
    apply (Hsave f0 {| form.AlbumTitle := "Winter"; form.AlbumFavorite := false |});
      reflexivity.
  - destruct (update_stages (signed "aqk2x5y1" "Summer 2020") conf w_strict summer
                eq_refl eq_refl) as (_ & _ & Hsave).
    destruct (Hsave f0 {| form.AlbumTitle := "Summer 2020"; form.AlbumFavorite := false |}
                eq_refl eq_refl) as [Hr Hdb].
    split; [exact Hr|]. unfold after. rewrite Hdb. reflexivity.
Defined.

(** X18: the signed-in user deletes "Summer". *)
Lemma deletion_is_announced_first_witness :
  run (DeleteAlbum signed_in conf) w0 =
    (json http_StatusOK (BAlbum summer),
     with_db (Db_Delete (w_db w0) summer)
       (with_trace
          [EvQuery "AlbumByUID" "aqk2x5y1";
           EvPublish EntityDeleted "aqk2x5y1";
           EvDbWrite "Delete" "aqk2x5y1";
           EvUpdateClientConfig;
           EvSuccess "album 'Summer' deleted"] w0)).
Proof.
  apply (deletion_is_announced_first signed_in conf w0 summer); reflexivity.
Defined.

(** X19: the album list of the signed-in user. *)
Lemma album_list_outcomes_witness :
  (run (GetAlbums (signed "" "") conf) w0).1 =
    {| status := http_StatusOK; ctype := "application/json; charset=utf-8";
       headers := [("X-Limit", "24"); ("X-Offset", "0")];
       body := BAlbumResults [summer; winter; scans] |}.
Proof.
  apply (album_list_outcomes (signed "" "") conf w0). reflexivity.
Defined.

(** X20: the export of "Summer" on the healthy disk. *)
Lemma served_export_leaves_only_its_folder_witness :
  let w' := (run (DownloadAlbum dl_summer conf) w0).2 in
  w_fs w' = <["/tmp/photoprism/album" := NDir]>
              (<["/tmp/photoprism" := NDir]> (<["/tmp" := NDir]> disk)) ∧
  w_fs w' !! "/tmp/photoprism/album/summer-k3v.zip" = None ∧
  w_fs w' !! "/tmp/photoprism/album" = Some NDir.
Proof.
  destruct (served_export_leaves_only_its_folder dl_summer conf w0 summer
              [beach_row; palms_row; dunes_row]) as (Hfs & Hzf & Hzp & _).
  - repeat split; try reflexivity. vm_compute. discriminate.
  - split; [reflexivity|]. repeat constructor.
  - reflexivity.
  - split; [| split; [exact Hzf | exact Hzp]].
    rewrite Hfs. reflexivity.
Defined.
